(** * Scratchpad: debounced auto-save over browser storage

    A shallow embedding of the two implementations of the scratchpad
    widget, the plain script [legacy_source/app.js] (module [Legacy]) and
    the component [app/components/Scratchpad.tsx] (module [React]), over a
    common model of the browser services they call: [localStorage], the
    timer table behind [setTimeout]/[clearTimeout], [alert] and
    [console.error].

    - Handlers are written in a state-and-exception monad, one definition
      per source function, with [try]/[catch] as [try_catch].
    - Time is a clock in milliseconds. The browser never runs a timer
      before its delay has elapsed and may run it at any moment after:
      the event [Fire id] does nothing unless timer [id] is live and ripe.
    - Storage faults are a policy telling which call throws which error;
      the world may change it between events, never inside a handler.
    - A run is a list of events folded over the state; everything the page
      does to the outside (storage calls, alerts, console errors) is
      appended to a log kept in the environment.
    - The value of a textarea reads back with its line breaks normalised;
      React dispatches [onChange] only for an input event that changes
      the text. *)

From stdpp Require Import base option list gmap strings numbers.

Local Open Scope string_scope.
Local Open Scope N_scope.
Local Open Scope list_scope.

(** ** Configuration (the [CONFIG] object, identical in both files) *)

Module CONFIG.
Definition STORAGE_KEY : string := "scratchpad_notes".
Definition AUTOSAVE_DELAY : N := 500.
Definition SAVE_STATUS_DISPLAY_DURATION : N := 2000.
Definition THEME_KEY : string := "scratchpad_theme".
End CONFIG.

(** The sentinel key of the availability probe. *)
Definition testKey : string := "__localStorage_test__".

(** ** Exceptions and a state-and-exception monad

    A JavaScript statement either completes normally or throws; its side
    effects persist in both cases. *)

Record JsError := { name : string }.

Inductive Completion (A : Type) :=
  | Normal (a : A)
  | Throw (e : JsError).
Arguments Normal {A} a.
Arguments Throw {A} e.

Definition M (S A : Type) : Type := S → Completion A * S.

#[global] Instance M_ret {S} : MRet (M S) := λ A a s, (Normal a, s).

#[global] Instance M_bind {S} : MBind (M S) := λ A B f m s,
  match m s with
  | (Normal a, s') => f a s'
  | (Throw e, s') => (Throw e, s')
  end.

Definition gets {S A} (f : S → A) : M S A := λ s, (Normal (f s), s).
Definition modify {S} (f : S → S) : M S unit := λ s, (Normal (), f s).

(** [try { m } catch (e) { h e }] *)
Definition try_catch {S A} (m : M S A) (h : JsError → M S A) : M S A := λ s,
  match m s with
  | (Normal a, s') => (Normal a, s')
  | (Throw e, s') => h e s'
  end.

(** The state a handler leaves behind, whether it completed or threw. *)
Definition exec {S A} (m : M S A) (s : S) : S := snd (m s).

(** ** The browser *)

Inductive StorageOp :=
  | OpSet (k v : string)
  | OpRemove (k : string)
  | OpGet (k : string).

(** What the page does to the outside world, in the order it happens. *)
Inductive Effect :=
  | Stored (k v : string)
  | Removed (k : string)
  | Refused (op : StorageOp) (e : JsError)
  | Alert (msg : string)
  | ConsoleError (msg : string) (e : JsError).

(** The events the page reacts to.  [Input text] is an edit after which
    the textarea reads [text]: an [input] event for the script's
    listener, a call of [handleInput] with that text for the component
    (which of the page's [input] events React turns into such a call is
    [React.deliver]). [Advance] lets time pass, [Fire] is the browser
    running a timer, [SetPolicy] and [Remote] are the world changing the
    storage behind the page's back (quota reached, storage disabled,
    another tab writing). *)
Inductive Event :=
  | Input (text : string)
  | Advance (dt : N)
  | Fire (id : positive)
  | StorageEv (key newValue : option string)
  | Visibility (h : bool)
  | BeforeUnload
  | ThemeClick
  | CloseError
  | SetPolicy (p : StorageOp → option JsError)
  | Remote (k : string) (v : option string).

Section Browser.
(** [C] is the type of the callbacks handed to [setTimeout]. *)
Context {C : Type}.

Record Timer := { tid : positive; due : N; cb : C }.

(** [policy] tells which storage calls throw, and what; [items] is the
    content of [localStorage]; [timers] holds the timers that are
    scheduled and have neither run nor been cleared. Timer handles are
    the positive integers of the HTML standard, so a handle is truthy
    exactly when it is not [null]. *)
Record Env := {
  items : gmap string string;
  policy : StorageOp → option JsError;
  log : list Effect;
  timers : list Timer;
  next_id : positive;
  now : N;
  hidden : bool
}.

Definition boot (i : gmap string string) (p : StorageOp → option JsError) : Env :=
  {| items := i; policy := p; log := []; timers := []; next_id := 1%positive;
     now := 0; hidden := false |}.

Definition set_items (f : gmap string string → gmap string string) (e : Env) : Env :=
  {| items := f (items e); policy := policy e; log := log e; timers := timers e;
     next_id := next_id e; now := now e; hidden := hidden e |}.
Definition set_policy (p : StorageOp → option JsError) (e : Env) : Env :=
  {| items := items e; policy := p; log := log e; timers := timers e;
     next_id := next_id e; now := now e; hidden := hidden e |}.
Definition emit (x : Effect) (e : Env) : Env :=
  {| items := items e; policy := policy e; log := log e ++ [x]; timers := timers e;
     next_id := next_id e; now := now e; hidden := hidden e |}.
Definition set_timers (f : list Timer → list Timer) (e : Env) : Env :=
  {| items := items e; policy := policy e; log := log e; timers := f (timers e);
     next_id := next_id e; now := now e; hidden := hidden e |}.
Definition bump_id (e : Env) : Env :=
  {| items := items e; policy := policy e; log := log e; timers := timers e;
     next_id := Pos.succ (next_id e); now := now e; hidden := hidden e |}.
Definition tick (dt : N) (e : Env) : Env :=
  {| items := items e; policy := policy e; log := log e; timers := timers e;
     next_id := next_id e; now := now e + dt; hidden := hidden e |}.
Definition set_hidden (h : bool) (e : Env) : Env :=
  {| items := items e; policy := policy e; log := log e; timers := timers e;
     next_id := next_id e; now := now e; hidden := h |}.

(** [localStorage.setItem(k, v)]: a refused write leaves the store as it
    was. *)
Definition setItem (k v : string) : M Env unit := λ e,
  match policy e (OpSet k v) with
  | Some err => (Throw err, emit (Refused (OpSet k v) err) e)
  | None => (Normal (), emit (Stored k v) (set_items (insert k v) e))
  end.

(** [localStorage.removeItem(k)] *)
Definition removeItem (k : string) : M Env unit := λ e,
  match policy e (OpRemove k) with
  | Some err => (Throw err, emit (Refused (OpRemove k) err) e)
  | None => (Normal (), emit (Removed k) (set_items (delete k) e))
  end.

(** [localStorage.getItem(k)]: [None] is JavaScript's [null]. *)
Definition getItem (k : string) : M Env (option string) := λ e,
  match policy e (OpGet k) with
  | Some err => (Throw err, emit (Refused (OpGet k) err) e)
  | None => (Normal (items e !! k), e)
  end.

(** [setTimeout(c, delay)] returns a handle never used before. *)
Definition setTimeout (c : C) (delay : N) : M Env positive := λ e,
  (Normal (next_id e),
   bump_id (set_timers (λ l, l ++ [{| tid := next_id e; due := now e + delay; cb := c |}]) e)).

(** [clearTimeout(id)]: clearing a handle that is not live does nothing. *)
Definition clearTimeout (id : positive) : M Env unit :=
  modify (set_timers (filter (λ t, tid t ≠ id))).

Definition alert (msg : string) : M Env unit := modify (emit (Alert msg)).
Definition console_error (msg : string) (err : JsError) : M Env unit :=
  modify (emit (ConsoleError msg err)).

(** The timer the browser may run now under handle [id]: it is live and
    its delay has elapsed. *)
Definition ripe (id : positive) (e : Env) : option Timer :=
  head (filter (λ t, tid t = id ∧ due t ≤ now e) (timers e)).

(** Another tab writes ([Some v]) or removes ([None]) key [k]. *)
Definition remote (k : string) (v : option string) : Env → Env :=
  set_items (λ m, match v with Some x => <[k:=x]> m | None => delete k m end).

(** The availability probe, textually the same function in both files:
<<
    try { const testKey = '__localStorage_test__';
          localStorage.setItem(testKey, 'test');
          localStorage.removeItem(testKey);
          return true;
    } catch (e) { return false; }
>> *)
Definition isLocalStorageAvailable : M Env bool :=
  try_catch
    (setItem testKey "test" ;;
     removeItem testKey ;;
     mret true)
    (λ _, mret false).

End Browser.
Arguments Timer : clear implicits.
Arguments Env : clear implicits.

(** Observations on the log. *)
Definition stored_at (k : string) (x : Effect) : option string :=
  match x with
  | Stored k' v => if decide (k' = k) then Some v else None
  | _ => None
  end.

(** The values written under key [k], oldest first. *)
Definition writes_to (k : string) (l : list Effect) : list string :=
  omap (stored_at k) l.
Arguments writes_to : simpl never.

Definition is_alert (x : Effect) : bool :=
  match x with Alert _ => true | _ => false end.

(** Every storage call of the log, completed or refused. *)
Definition is_storage (x : Effect) : bool :=
  match x with Stored _ _ | Removed _ | Refused _ _ => true | _ => false end.

Definition is_quota (e : JsError) : bool := String.eqb (name e) "QuotaExceededError".

(** The value of a [textarea] as scripts read it: every CR LF pair and
    every other CR is a single LF. *)
Definition CR : Ascii.ascii := Ascii.ascii_of_nat 13.
Definition LF : Ascii.ascii := Ascii.ascii_of_nat 10.

Fixpoint normalize_newlines (s : string) : string :=
  match s with
  | EmptyString => EmptyString
  | String c rest =>
      if Ascii.eqb c CR then
        match rest with
        | String c' _ =>
            (* the LF of a CR LF pair is kept by the recursive call *)
            if Ascii.eqb c' LF then normalize_newlines rest
            else String LF (normalize_newlines rest)
        | EmptyString => String LF EmptyString
        end
      else String c (normalize_newlines rest)
  end.

(** A text without CR: it reads back from a textarea as it is. *)
Definition normalised (s : string) : Prop := normalize_newlines s = s.

Inductive Status := st_default | st_saving | st_saved | st_error.

#[global] Instance Status_eq_dec : EqDecision Status.
Proof. solve_decision. Defined.

(** ** The plain script: [legacy_source/app.js] *)

Module Legacy.
Import CONFIG.

(** The two closures the script hands to [setTimeout]: [() => saveNotes()]
    in [handleInput], and the reset of the indicator in
    [updateSaveStatus]. *)
Inductive Callback := cb_saveNotes | cb_resetStatus.

#[global] Instance Callback_eq_dec : EqDecision Callback.
Proof. solve_decision. Defined.

(** The part of the document the script reads and writes: the textarea,
    the text of [saveStatus], the three status classes of
    [saveIndicator], the display of [errorModal] and the [dark-mode]
    class of the body (the two theme icons follow [dark_mode] and are
    left out). *)
Record Dom := {
  notepad_value : string;
  saveStatus_text : string;
  saving_class : bool;
  saved_class : bool;
  error_class : bool;
  errorModal_display : string;
  dark_mode : bool
}.

Record State := {
  env : Env Callback;
  dom : Dom;
  saveTimeout : option positive;
  statusTimeout : option positive;
  listening : bool      (* [init] got as far as registering the listeners *)
}.

(** The user's edit leaves the textarea reading [v]. *)
Definition edited (v : string) (d : Dom) : Dom :=
  {| notepad_value := v; saveStatus_text := saveStatus_text d;
     saving_class := saving_class d; saved_class := saved_class d;
     error_class := error_class d; errorModal_display := errorModal_display d;
     dark_mode := dark_mode d |}.
(** [notepad.value = v]: what is read back afterwards is [v] with its
    line breaks normalised. *)
Definition set_notepad_value (v : string) (d : Dom) : Dom :=
  edited (normalize_newlines v) d.
Definition set_text (v : string) (d : Dom) : Dom :=
  {| notepad_value := notepad_value d; saveStatus_text := v;
     saving_class := saving_class d; saved_class := saved_class d;
     error_class := error_class d; errorModal_display := errorModal_display d;
     dark_mode := dark_mode d |}.
Definition set_classes (a b c : bool) (d : Dom) : Dom :=
  {| notepad_value := notepad_value d; saveStatus_text := saveStatus_text d;
     saving_class := a; saved_class := b; error_class := c;
     errorModal_display := errorModal_display d; dark_mode := dark_mode d |}.
Definition set_modal (v : string) (d : Dom) : Dom :=
  {| notepad_value := notepad_value d; saveStatus_text := saveStatus_text d;
     saving_class := saving_class d; saved_class := saved_class d;
     error_class := error_class d; errorModal_display := v;
     dark_mode := dark_mode d |}.
Definition set_dark (v : bool) (d : Dom) : Dom :=
  {| notepad_value := notepad_value d; saveStatus_text := saveStatus_text d;
     saving_class := saving_class d; saved_class := saved_class d;
     error_class := error_class d; errorModal_display := errorModal_display d;
     dark_mode := v |}.

Definition on_env (f : Env Callback → Env Callback) (s : State) : State :=
  {| env := f (env s); dom := dom s; saveTimeout := saveTimeout s;
     statusTimeout := statusTimeout s; listening := listening s |}.
Definition on_dom (f : Dom → Dom) (s : State) : State :=
  {| env := env s; dom := f (dom s); saveTimeout := saveTimeout s;
     statusTimeout := statusTimeout s; listening := listening s |}.
Definition set_saveTimeout (h : option positive) (s : State) : State :=
  {| env := env s; dom := dom s; saveTimeout := h;
     statusTimeout := statusTimeout s; listening := listening s |}.
Definition set_statusTimeout (h : option positive) (s : State) : State :=
  {| env := env s; dom := dom s; saveTimeout := saveTimeout s;
     statusTimeout := h; listening := listening s |}.
Definition set_listening (b : bool) (s : State) : State :=
  {| env := env s; dom := dom s; saveTimeout := saveTimeout s;
     statusTimeout := statusTimeout s; listening := b |}.

(** A browser call made from the script. *)
Definition liftE {A} (m : M (Env Callback) A) : M State A := λ s,
  match m (env s) with (r, e') => (r, on_env (λ _, e') s) end.

Definition showError : M State unit := modify (on_dom (set_modal "flex")).
Definition hideError : M State unit := modify (on_dom (set_modal "none")).

(** The body of the reset closure scheduled by [updateSaveStatus]. *)
Definition resetStatus : M State unit :=
  modify (on_dom (set_text "Auto-save on")) ;;
  modify (on_dom (λ d, set_classes (saving_class d) false (error_class d) d)).

Definition updateSaveStatus (status : Status) : M State unit :=
  (* Clear previous status timeout *)
  h ← gets statusTimeout;
  match h with
  | Some id => liftE (clearTimeout id) ;; modify (set_statusTimeout None)
  | None => mret ()
  end ;;
  (* Remove all status classes *)
  modify (on_dom (set_classes false false false)) ;;
  match status with
  | st_saving =>
      modify (on_dom (set_text "Saving...")) ;;
      modify (on_dom (λ d, set_classes true (saved_class d) (error_class d) d))
  | st_saved =>
      modify (on_dom (set_text "Saved")) ;;
      modify (on_dom (λ d, set_classes (saving_class d) true (error_class d) d)) ;;
      id ← liftE (setTimeout cb_resetStatus SAVE_STATUS_DISPLAY_DURATION);
      modify (set_statusTimeout (Some id))
  | st_error =>
      modify (on_dom (set_text "Error")) ;;
      modify (on_dom (λ d, set_classes (saving_class d) (saved_class d) true d))
  | st_default =>
      modify (on_dom (set_text "Auto-save on"))
  end.

Definition quota_message : string :=
  "Storage quota exceeded. Your notes are too large. Consider clearing some content.".

Definition saveNotes : M State unit :=
  ok ← liftE isLocalStorageAvailable;
  if negb ok then
    updateSaveStatus st_error ;;
    showError
  else
    try_catch
      (content ← gets (notepad_value ∘ dom);
       liftE (setItem STORAGE_KEY content) ;;
       updateSaveStatus st_saved)
      (λ e,
         liftE (console_error "Error saving to localStorage:" e) ;;
         if is_quota e then
           updateSaveStatus st_error ;;
           liftE (alert quota_message)
         else
           updateSaveStatus st_error).

Definition loadNotes : M State unit :=
  ok ← liftE isLocalStorageAvailable;
  if negb ok then
    showError
  else
    try_catch
      (savedNotes ← liftE (getItem STORAGE_KEY);
       match savedNotes with
       | Some v =>
           modify (on_dom (set_notepad_value v)) ;;
           updateSaveStatus st_default
       | None => updateSaveStatus st_default
       end)
      (λ e,
         liftE (console_error "Error loading from localStorage:" e) ;;
         updateSaveStatus st_error).

Definition handleInput : M State unit :=
  (* Show saving status immediately *)
  updateSaveStatus st_saving ;;
  (* Clear existing timeout *)
  h ← gets saveTimeout;
  match h with
  | Some id => liftE (clearTimeout id)
  | None => mret ()
  end ;;
  (* Set new timeout for debounced save *)
  id ← liftE (setTimeout cb_saveNotes AUTOSAVE_DELAY);
  modify (set_saveTimeout (Some id)).

(** [e.newValue || '']: [null] and the empty string are both falsy. *)
Definition or_empty (v : option string) : string :=
  match v with
  | Some x => if decide (x = "") then "" else x
  | None => ""
  end.

Definition handleStorageEvent (key newValue : option string) : M State unit :=
  if decide (key = Some STORAGE_KEY) then
    (* Only update if the value actually changed *)
    v ← gets (notepad_value ∘ dom);
    if decide (newValue ≠ Some v) then
      modify (on_dom (set_notepad_value (or_empty newValue)))
    else mret ()
  else mret ().

Definition updateThemeUI (isDark : bool) : M State unit :=
  modify (on_dom (set_dark isDark)).

Definition handleThemeToggle : M State unit :=
  isDark ← gets (dark_mode ∘ dom);
  let newIsDark := negb isDark in
  updateThemeUI newIsDark ;;
  liftE (setItem THEME_KEY (if newIsDark then "dark" else "light")).

Definition initTheme : M State unit :=
  savedTheme ← liftE (getItem THEME_KEY);
  (* Default to light if not set *)
  let isDark := bool_decide (savedTheme = Some "dark") in
  updateThemeUI isDark.

(** The [beforeunload] listener. *)
Definition handleBeforeUnload : M State unit :=
  h ← gets saveTimeout;
  match h with
  | Some id => liftE (clearTimeout id) ;; saveNotes
  | None => mret ()
  end.

(** The [visibilitychange] listener. *)
Definition handleVisibilityChange : M State unit :=
  hid ← gets (hidden ∘ env);
  h ← gets saveTimeout;
  match hid, h with
  | true, Some id => liftE (clearTimeout id) ;; saveNotes
  | _, _ => mret ()
  end.

(** [init]: focusing the textarea and placing the cursor change nothing
    that is modelled; the last step stands for the registration of all
    the listeners. *)
Definition init : M State unit :=
  initTheme ;;
  ok ← liftE isLocalStorageAvailable;
  if negb ok then
    showError
  else
    loadNotes ;;
    modify (set_listening true).

(** The page as the markup [d] gives it, before the script has run. *)
Definition page (d : Dom) (i : gmap string string) (p : StorageOp → option JsError) : State :=
  {| env := boot i p; dom := d; saveTimeout := None; statusTimeout := None;
     listening := false |}.

Definition start (d : Dom) (i : gmap string string) (p : StorageOp → option JsError) : State :=
  exec init (page d i p).

Definition run_callback (c : Callback) : M State unit :=
  match c with
  | cb_saveNotes => saveNotes
  | cb_resetStatus => resetStatus
  end.

(** The browser runs timer [id] if it is live and ripe; a timer that runs
    leaves the table first. *)
Definition fire (id : positive) (s : State) : State :=
  match ripe id (env s) with
  | Some t => exec (run_callback (cb t))
                   (on_env (set_timers (filter (λ t', tid t' ≠ id))) s)
  | None => s
  end.

(** One event. An exception that escapes a listener is reported by the
    browser and the page goes on. [Input text] is an [input] event of
    the textarea, which then reads [text]; typing changes the textarea
    whether or not a listener is registered. *)
Definition step (ev : Event) (s : State) : State :=
  match ev with
  | Input text =>
      let s' := on_dom (edited text) s in
      if listening s then exec handleInput s' else s'
  | Advance dt => on_env (tick dt) s
  | Fire id => fire id s
  | StorageEv key newValue =>
      if listening s then exec (handleStorageEvent key newValue) s else s
  | Visibility h =>
      let s' := on_env (set_hidden h) s in
      if listening s then exec handleVisibilityChange s' else s'
  | BeforeUnload =>
      if listening s then exec handleBeforeUnload s else s
  | ThemeClick =>
      if listening s then exec handleThemeToggle s else s
  | CloseError =>
      if listening s then exec hideError s else s
  | SetPolicy p => on_env (set_policy p) s
  | Remote k v => on_env (remote k v) s
  end.

Definition run (tr : list Event) (s : State) : State :=
  foldl (λ s ev, step ev s) s tr.

(** The status the indicator shows, read off its classes. *)
Definition status (s : State) : Status :=
  if saving_class (dom s) then st_saving
  else if saved_class (dom s) then st_saved
  else if error_class (dom s) then st_error
  else st_default.

Definition content (s : State) : string := notepad_value (dom s).

Definition is_save (t : Timer Callback) : Prop := cb t = cb_saveNotes.
Definition is_reset (t : Timer Callback) : Prop := cb t = cb_resetStatus.

Definition save_timers (s : State) : list (Timer Callback) :=
  filter is_save (timers (env s)).
Definition reset_timers (s : State) : list (Timer Callback) :=
  filter is_reset (timers (env s)).

End Legacy.

(** ** The component: [app/components/Scratchpad.tsx] *)

Module React.
Import CONFIG.

(** The closures handed to [setTimeout]: [() => saveNotes(newContent)]
    in [handleInput], which keeps the text of the event that scheduled
    it, and [() => setStatus('default')] in [saveNotes]. *)
Inductive Callback := cb_saveNotes (newContent : string) | cb_setDefault.

#[global] Instance Callback_eq_dec : EqDecision Callback.
Proof. solve_decision. Defined.

(** The component's state hooks and refs, and the [dark-mode] class of
    the body. The handlers closed over [content] and [isDark] are
    re-created on every render, so they see the current values.
    [content] is the state as [setContent] received it; the textarea
    rendered from it shows it with its line breaks normalised. *)
Record State := {
  env : Env Callback;
  content : string;
  status : Status;
  showError : bool;
  isDark : bool;
  isLoaded : bool;
  body_dark : bool;
  saveTimeoutRef : option positive;
  statusTimeoutRef : option positive
}.

Definition on_env (f : Env Callback → Env Callback) (s : State) : State :=
  {| env := f (env s); content := content s; status := status s;
     showError := showError s; isDark := isDark s; isLoaded := isLoaded s;
     body_dark := body_dark s; saveTimeoutRef := saveTimeoutRef s;
     statusTimeoutRef := statusTimeoutRef s |}.
Definition set_content (v : string) (s : State) : State :=
  {| env := env s; content := v; status := status s;
     showError := showError s; isDark := isDark s; isLoaded := isLoaded s;
     body_dark := body_dark s; saveTimeoutRef := saveTimeoutRef s;
     statusTimeoutRef := statusTimeoutRef s |}.
Definition set_status (v : Status) (s : State) : State :=
  {| env := env s; content := content s; status := v;
     showError := showError s; isDark := isDark s; isLoaded := isLoaded s;
     body_dark := body_dark s; saveTimeoutRef := saveTimeoutRef s;
     statusTimeoutRef := statusTimeoutRef s |}.
Definition set_showError (v : bool) (s : State) : State :=
  {| env := env s; content := content s; status := status s;
     showError := v; isDark := isDark s; isLoaded := isLoaded s;
     body_dark := body_dark s; saveTimeoutRef := saveTimeoutRef s;
     statusTimeoutRef := statusTimeoutRef s |}.
Definition set_isDark (v : bool) (s : State) : State :=
  {| env := env s; content := content s; status := status s;
     showError := showError s; isDark := v; isLoaded := isLoaded s;
     body_dark := body_dark s; saveTimeoutRef := saveTimeoutRef s;
     statusTimeoutRef := statusTimeoutRef s |}.
Definition set_isLoaded (v : bool) (s : State) : State :=
  {| env := env s; content := content s; status := status s;
     showError := showError s; isDark := isDark s; isLoaded := v;
     body_dark := body_dark s; saveTimeoutRef := saveTimeoutRef s;
     statusTimeoutRef := statusTimeoutRef s |}.
Definition set_body_dark (v : bool) (s : State) : State :=
  {| env := env s; content := content s; status := status s;
     showError := showError s; isDark := isDark s; isLoaded := isLoaded s;
     body_dark := v; saveTimeoutRef := saveTimeoutRef s;
     statusTimeoutRef := statusTimeoutRef s |}.
Definition set_saveTimeoutRef (h : option positive) (s : State) : State :=
  {| env := env s; content := content s; status := status s;
     showError := showError s; isDark := isDark s; isLoaded := isLoaded s;
     body_dark := body_dark s; saveTimeoutRef := h;
     statusTimeoutRef := statusTimeoutRef s |}.
Definition set_statusTimeoutRef (h : option positive) (s : State) : State :=
  {| env := env s; content := content s; status := status s;
     showError := showError s; isDark := isDark s; isLoaded := isLoaded s;
     body_dark := body_dark s; saveTimeoutRef := saveTimeoutRef s;
     statusTimeoutRef := h |}.

(** A browser call made from the component. *)
Definition liftE {A} (m : M (Env Callback) A) : M State A := λ s,
  match m (env s) with (r, e') => (r, on_env (λ _, e') s) end.

Definition setContent (v : string) : M State unit := modify (set_content v).
Definition setStatus (v : Status) : M State unit := modify (set_status v).
Definition setShowError (v : bool) : M State unit := modify (set_showError v).
Definition setIsDark (v : bool) : M State unit := modify (set_isDark v).
Definition setIsLoaded (v : bool) : M State unit := modify (set_isLoaded v).

Definition updateThemeBody (dark : bool) : M State unit :=
  modify (set_body_dark dark).

Definition toggleTheme : M State unit :=
  d ← gets isDark;
  let newDark := negb d in
  setIsDark newDark ;;
  updateThemeBody newDark ;;
  liftE (setItem THEME_KEY (if newDark then "dark" else "light")).

Definition quota_message : string :=
  "Storage quota exceeded. Your notes are too large.".

Definition saveNotes (text : string) : M State unit :=
  ok ← liftE isLocalStorageAvailable;
  if negb ok then
    setStatus st_error ;;
    setShowError true
  else
    try_catch
      (liftE (setItem STORAGE_KEY text) ;;
       setStatus st_saved ;;
       (* Reset status after delay *)
       h ← gets statusTimeoutRef;
       match h with
       | Some id => liftE (clearTimeout id)
       | None => mret ()
       end ;;
       id ← liftE (setTimeout cb_setDefault SAVE_STATUS_DISPLAY_DURATION);
       modify (set_statusTimeoutRef (Some id)))
      (λ e,
         liftE (console_error "Error saving to localStorage:" e) ;;
         setStatus st_error ;;
         if is_quota e then liftE (alert quota_message) else mret ()).

Definition handleInput (newContent : string) : M State unit :=
  setContent newContent ;;
  setStatus st_saving ;;
  h ← gets saveTimeoutRef;
  match h with
  | Some id => liftE (clearTimeout id)
  | None => mret ()
  end ;;
  id ← liftE (setTimeout (cb_saveNotes newContent) AUTOSAVE_DELAY);
  modify (set_saveTimeoutRef (Some id)).

(** [e.newValue || '']: [null] and the empty string are both falsy. *)
Definition or_empty (v : option string) : string :=
  match v with
  | Some x => if decide (x = "") then "" else x
  | None => ""
  end.

Definition handleStorage (key newValue : option string) : M State unit :=
  c ← gets content;
  if decide (key = Some STORAGE_KEY ∧ newValue ≠ Some c) then
    setContent (or_empty newValue)
  else mret ().

Definition handleVisibilityChange : M State unit :=
  hid ← gets (hidden ∘ env);
  h ← gets saveTimeoutRef;
  match hid, h with
  | true, Some id =>
      liftE (clearTimeout id) ;;
      c ← gets content;
      saveNotes c
  | _, _ => mret ()
  end.

Definition handleBeforeUnload : M State unit :=
  h ← gets saveTimeoutRef;
  match h with
  | Some _ =>
      c ← gets content;
      saveNotes c
  | None => mret ()
  end.

(** The first effect of the component ("Initial Load & Theme"). *)
Definition mountEffect : M State unit :=
  (* Theme *)
  savedTheme ← liftE (getItem THEME_KEY);
  let initialDark := bool_decide (savedTheme = Some "dark") in
  setIsDark initialDark ;;
  updateThemeBody initialDark ;;
  (* Content *)
  ok ← liftE isLocalStorageAvailable;
  (if ok : bool return M State unit then
     savedNotes ← liftE (getItem STORAGE_KEY);
     match savedNotes with
     | Some v => setContent v
     | None => mret ()
     end
   else
     setShowError true) ;;
  setIsLoaded true.

(** The component as [useState] and [useRef] initialise it; [d] is the
    [dark-mode] class the markup gives the body. *)
Definition page (d : bool) (i : gmap string string) (p : StorageOp → option JsError) : State :=
  {| env := boot i p; content := ""; status := st_default; showError := false;
     isDark := false; isLoaded := false; body_dark := d;
     saveTimeoutRef := None; statusTimeoutRef := None |}.

Definition start (d : bool) (i : gmap string string) (p : StorageOp → option JsError) : State :=
  exec mountEffect (page d i p).

Definition run_callback (c : Callback) : M State unit :=
  match c with
  | cb_saveNotes newContent => saveNotes newContent
  | cb_setDefault => setStatus st_default
  end.

Definition fire (id : positive) (s : State) : State :=
  match ripe id (env s) with
  | Some t => exec (run_callback (cb t))
                   (on_env (set_timers (filter (λ t', tid t' ≠ id))) s)
  | None => s
  end.

(** One event. Nothing is rendered, and so nothing handled, until
    [isLoaded]; an effect that throws leaves [isLoaded] false and the
    component unmounted. [Input text] is a dispatch of [onChange] with
    [e.target.value] being [text]. *)
Definition step (ev : Event) (s : State) : State :=
  match ev with
  | Input text => if isLoaded s then exec (handleInput text) s else s
  | Advance dt => on_env (tick dt) s
  | Fire id => fire id s
  | StorageEv key newValue =>
      if isLoaded s then exec (handleStorage key newValue) s else s
  | Visibility h =>
      let s' := on_env (set_hidden h) s in
      if isLoaded s then exec handleVisibilityChange s' else s'
  | BeforeUnload =>
      if isLoaded s then exec handleBeforeUnload s else s
  | ThemeClick =>
      if isLoaded s then exec toggleTheme s else s
  | CloseError =>
      if isLoaded s then exec (setShowError false) s else s
  | SetPolicy p => on_env (set_policy p) s
  | Remote k v => on_env (remote k v) s
  end.

Definition run (tr : list Event) (s : State) : State :=
  foldl (λ s ev, step ev s) s tr.

(** An event of the page, as it reaches the component. React dispatches
    [onChange] for an [input] event of the textarea only when the value
    differs from the one it recorded last, the text the component holds:
    an [input] event that leaves the text as it is runs the script's
    listener and not the component's [handleInput]. *)
Definition deliver (ev : Event) (s : State) : State :=
  match ev with
  | Input text => if decide (text = content s) then s else step ev s
  | _ => step ev s
  end.

Definition observe (tr : list Event) (s : State) : State :=
  foldl (λ s ev, deliver ev s) s tr.

Definition getStatusText (s : State) : string :=
  match status s with
  | st_saving => "Saving..."
  | st_saved => "Saved"
  | st_error => "Error"
  | st_default => "Auto-save on"
  end.

Definition is_save (t : Timer Callback) : Prop :=
  match cb t with cb_saveNotes _ => True | cb_setDefault => False end.
Definition is_reset (t : Timer Callback) : Prop := cb t = cb_setDefault.

#[global] Instance is_save_dec t : Decision (is_save t).
Proof. unfold is_save. destruct (cb t); apply _. Defined.

Definition save_timers (s : State) : list (Timer Callback) :=
  filter is_save (timers (env s)).
Definition reset_timers (s : State) : list (Timer Callback) :=
  filter is_reset (timers (env s)).

End React.

(** * Reasoning principles *)

(** ** Line breaks *)

(** Reading a value back a second time changes nothing more. *)
Lemma normalize_newlines_idem (s : string) :
  normalize_newlines (normalize_newlines s) = normalize_newlines s.
Proof.
  induction s as [|c rest IH]; [done|].
  cbn [normalize_newlines].
  destruct (Ascii.eqb c CR) eqn:Ec.
  - destruct rest as [|c' rest']; [done|].
    destruct (Ascii.eqb c' LF) eqn:El; [exact IH|].
    change (normalize_newlines (String LF ?x))
      with (String LF (normalize_newlines x)).
    by rewrite IH.
  - cbn [normalize_newlines]. rewrite Ec. by rewrite IH.
Qed.

Lemma normalised_normalize (s : string) : normalised (normalize_newlines s).
Proof. apply normalize_newlines_idem. Qed.

Lemma normalised_empty : normalised "".
Proof. done. Qed.

#[global] Instance normalised_dec s : Decision (normalised s).
Proof. unfold normalised. apply _. Defined.

(** ** Browser calls in closed form *)

Section BrowserFacts.
Context {C : Type}.
Implicit Types (e : Env C) (h : option positive) (id : positive).

(** The table after [if (h) clearTimeout(h)]. *)
Definition clear h e : Env C :=
  match h with
  | Some id => set_timers (filter (λ t, tid t ≠ id)) e
  | None => e
  end.

(** The environment after [setTimeout(c, delay)]. *)
Definition schedule (c : C) (delay : N) e : Env C := snd (setTimeout c delay e).

Definition available e : bool :=
  bool_decide (policy e (OpSet testKey "test") = None
               ∧ policy e (OpRemove testKey) = None).

(** The environment the probe leaves behind. *)
Definition probed e : Env C := snd (isLocalStorageAvailable e).

Lemma probe_run e :
  isLocalStorageAvailable e =
    match policy e (OpSet testKey "test") with
    | Some err => (Normal false, emit (Refused (OpSet testKey "test") err) e)
    | None =>
        match policy e (OpRemove testKey) with
        | Some err =>
            (Normal false,
             emit (Refused (OpRemove testKey) err)
               (emit (Stored testKey "test") (set_items (insert testKey "test") e)))
        | None =>
            (Normal true,
             emit (Removed testKey)
               (set_items (delete testKey)
                  (emit (Stored testKey "test")
                     (set_items (insert testKey "test") e))))
        end
    end.
Proof.
  unfold isLocalStorageAvailable, try_catch, mbind, M_bind, setItem, removeItem,
    mret, M_ret.
  destruct e as [i p l t n c h]; cbn.
  destruct (p (OpSet testKey "test")); cbn; [done|].
  destruct (p (OpRemove testKey)); cbn; done.
Qed.

Lemma probe_eq e : isLocalStorageAvailable e = (Normal (available e), probed e).
Proof.
  unfold probed, available. rewrite probe_run.
  destruct (policy e (OpSet testKey "test")) eqn:E1.
  { rewrite bool_decide_eq_false_2; [done|]. intros [? _]; done. }
  destruct (policy e (OpRemove testKey)) eqn:E2.
  { rewrite bool_decide_eq_false_2; [done|]. intros [_ ?]; done. }
  by rewrite bool_decide_eq_true_2.
Qed.

Lemma available_true e :
  available e = true ↔
  policy e (OpSet testKey "test") = None ∧ policy e (OpRemove testKey) = None.
Proof. unfold available. by rewrite bool_decide_eq_true. Qed.

(** The probe touches the store and the log, nothing else. *)
Lemma policy_probed e : policy (probed e) = policy e.
Proof.
  unfold probed. rewrite probe_run.
  destruct (policy e (OpSet _ _)); [done|]. by destruct (policy e (OpRemove _)).
Qed.
Lemma timers_probed e : timers (probed e) = timers e.
Proof.
  unfold probed. rewrite probe_run.
  destruct (policy e (OpSet _ _)); [done|]. by destruct (policy e (OpRemove _)).
Qed.
Lemma next_id_probed e : next_id (probed e) = next_id e.
Proof.
  unfold probed. rewrite probe_run.
  destruct (policy e (OpSet _ _)); [done|]. by destruct (policy e (OpRemove _)).
Qed.
Lemma now_probed e : now (probed e) = now e.
Proof.
  unfold probed. rewrite probe_run.
  destruct (policy e (OpSet _ _)); [done|]. by destruct (policy e (OpRemove _)).
Qed.
Lemma hidden_probed e : hidden (probed e) = hidden e.
Proof.
  unfold probed. rewrite probe_run.
  destruct (policy e (OpSet _ _)); [done|]. by destruct (policy e (OpRemove _)).
Qed.

(** The probe's own log entries. *)
Definition probe_log e : list Effect :=
  match policy e (OpSet testKey "test") with
  | Some err => [Refused (OpSet testKey "test") err]
  | None =>
      match policy e (OpRemove testKey) with
      | Some err => [Stored testKey "test"; Refused (OpRemove testKey) err]
      | None => [Stored testKey "test"; Removed testKey]
      end
  end.

Lemma log_probed e : log (probed e) = log e ++ probe_log e.
Proof.
  unfold probed, probe_log. rewrite probe_run.
  destruct (policy e (OpSet _ _)); [done|].
  destruct (policy e (OpRemove _)); cbn; by rewrite <- app_assoc.
Qed.

Lemma items_probed_available e :
  available e = true → items (probed e) = delete testKey (items e).
Proof.
  intros [E1 E2]%available_true. unfold probed. rewrite probe_run, E1, E2. cbn.
  apply delete_insert_eq.
Qed.

Lemma writes_probe_log e k : k ≠ testKey → writes_to k (probe_log e) = [].
Proof.
  intros Hk. unfold probe_log, writes_to.
  destruct (policy e (OpSet _ _)); [done|].
  destruct (policy e (OpRemove _)); cbn; by rewrite decide_False.
Qed.

Lemma alerts_probe_log e : filter is_alert (probe_log e) = [].
Proof.
  unfold probe_log.
  destruct (policy e (OpSet _ _)); [done|]. by destruct (policy e (OpRemove _)).
Qed.

(** Clearing changes the timer table only. *)
Lemma items_clear h e : items (clear h e) = items e.
Proof. by destruct h. Qed.
Lemma policy_clear h e : policy (clear h e) = policy e.
Proof. by destruct h. Qed.
Lemma log_clear h e : log (clear h e) = log e.
Proof. by destruct h. Qed.
Lemma next_id_clear h e : next_id (clear h e) = next_id e.
Proof. by destruct h. Qed.
Lemma now_clear h e : now (clear h e) = now e.
Proof. by destruct h. Qed.
Lemma hidden_clear h e : hidden (clear h e) = hidden e.
Proof. by destruct h. Qed.

Lemma filter_timers_clear (P : Timer C → Prop) `{!∀ t, Decision (P t)} h e :
  filter P (timers (clear h e)) =
    match h with
    | Some id => filter (λ t, tid t ≠ id) (filter P (timers e))
    | None => filter P (timers e)
    end.
Proof.
  destruct h as [id|]; cbn; [|done].
  induction (timers e) as [|t l IH]; [done|].
  rewrite !filter_cons. repeat case_decide; rewrite ?filter_cons;
    repeat case_decide; try done; by rewrite IH.
Qed.

End BrowserFacts.

Create Rewrite HintDb env.
Lemma writes_to_app k l1 l2 : writes_to k (l1 ++ l2) = writes_to k l1 ++ writes_to k l2.
Proof. unfold writes_to. apply omap_app. Qed.

#[global] Hint Rewrite @items_clear @policy_clear @log_clear @next_id_clear
  @now_clear @hidden_clear @policy_probed @timers_probed @next_id_probed
  @now_probed @hidden_probed @log_probed : env.

(** Projections of environments built from browser calls. *)
Ltac env_simpl := repeat (progress (cbn; autorewrite with env)).

(** Unfolds the monad and the browser calls. *)
Ltac munfold :=
  unfold exec, mbind, M_bind, mret, M_ret, gets, modify, try_catch,
    clearTimeout, setTimeout, setItem, getItem, removeItem, alert, console_error,
    modify in *.

(** ** The script's handlers in closed form *)

Module LegacyRun.
Import CONFIG Legacy.
Implicit Types (s : State) (st : Status).

(** What [updateSaveStatus] leaves in the indicator. *)
Definition shown st (d : Dom) : Dom :=
  match st with
  | st_saving => set_classes true false false (set_text "Saving..." d)
  | st_saved => set_classes false true false (set_text "Saved" d)
  | st_error => set_classes false false true (set_text "Error" d)
  | st_default => set_classes false false false (set_text "Auto-save on" d)
  end.

(** The state after [updateSaveStatus(st)]. *)
Definition updated st s : State :=
  {| env := match st with
            | st_saved => schedule cb_resetStatus SAVE_STATUS_DISPLAY_DURATION
            | _ => id
            end (clear (statusTimeout s) (env s));
     dom := shown st (dom s);
     saveTimeout := saveTimeout s;
     statusTimeout := match st with
                      | st_saved => Some (next_id (env s))
                      | _ => None
                      end;
     listening := listening s |}.

Lemma updateSaveStatus_run st s : updateSaveStatus st s = (Normal (), updated st s).
Proof.
  unfold updateSaveStatus, updated, liftE. munfold.
  destruct s as [e [v t a b c m k] h1 h2 l]; cbn.
  destruct h2 as [id|], st; cbn; reflexivity.
Qed.

(** The state after [saveNotes()]. *)
Definition saved_state s : State :=
  let e := env s in
  let c := notepad_value (dom s) in
  if available e then
    match policy e (OpSet STORAGE_KEY c) with
    | None =>
        updated st_saved
          (on_env (λ _, emit (Stored STORAGE_KEY c)
                          (set_items (insert STORAGE_KEY c) (probed e))) s)
    | Some err =>
        let s1 :=
          updated st_error
            (on_env (λ _, emit (ConsoleError "Error saving to localStorage:" err)
                            (emit (Refused (OpSet STORAGE_KEY c) err) (probed e))) s) in
        if is_quota err then on_env (emit (Alert quota_message)) s1 else s1
    end
  else on_dom (set_modal "flex") (updated st_error (on_env (λ _, probed e) s)).

Lemma script_saveNotes_run s : saveNotes s = (Normal (), saved_state s).
Proof.
  unfold saveNotes, saved_state, showError.
  unfold mbind at 1. unfold M_bind at 1. unfold liftE at 1.
  rewrite probe_eq. cbn zeta.
  destruct (available (env s)); cbn [negb].
  - unfold try_catch, mbind, M_bind, gets, liftE at 1, setItem.
    cbn -[updateSaveStatus]. rewrite policy_probed. 
    destruct (policy (env s) _) as [err|] eqn:E.
    + unfold liftE, console_error, alert, modify. cbn -[updateSaveStatus].
      destruct (is_quota err); rewrite ?updateSaveStatus_run; reflexivity.
    + rewrite updateSaveStatus_run. reflexivity.
  - unfold mbind, M_bind. rewrite updateSaveStatus_run. reflexivity.
Qed.

(** The state after [handleInput()]. *)
Definition input_state s : State :=
  let s1 := updated st_saving s in
  {| env := schedule cb_saveNotes AUTOSAVE_DELAY (clear (saveTimeout s) (env s1));
     dom := dom s1;
     saveTimeout := Some (next_id (env s));
     statusTimeout := None;
     listening := listening s |}.

Lemma script_handleInput_run s : handleInput s = (Normal (), input_state s).
Proof.
  unfold handleInput, input_state.
  unfold mbind, M_bind. rewrite updateSaveStatus_run.
  unfold gets, liftE, clearTimeout, setTimeout, modify, mret, M_ret.
  destruct s as [e d [id1|] [id2|] l]; reflexivity.
Qed.

Lemma handleStorageEvent_run key newValue s :
  handleStorageEvent key newValue s =
    (Normal (),
     if decide (key = Some STORAGE_KEY ∧ newValue ≠ Some (notepad_value (dom s)))
     then on_dom (set_notepad_value (or_empty newValue)) s else s).
Proof.
  unfold handleStorageEvent.
  destruct (decide (key = Some STORAGE_KEY)) as [->|Hk].
  - unfold mbind, M_bind, gets, modify, mret, M_ret. cbn.
    destruct (decide (newValue ≠ _)).
    + rewrite decide_True; done.
    + rewrite decide_False; [done|]. intros [_ ?]; done.
  - rewrite decide_False; [done|]. intros [? _]; done.
Qed.

Lemma resetStatus_run s :
  resetStatus s =
    (Normal (),
     on_dom (λ d, set_classes (saving_class d) false (error_class d)
                    (set_text "Auto-save on" d)) s).
Proof. reflexivity. Qed.

Lemma script_handleBeforeUnload_run s :
  handleBeforeUnload s =
    (Normal (),
     match saveTimeout s with
     | Some id => saved_state (on_env (clear (Some id)) s)
     | None => s
     end).
Proof.
  unfold handleBeforeUnload, mbind, M_bind, gets.
  destruct (saveTimeout s); [|done].
  unfold liftE, clearTimeout, modify. by rewrite script_saveNotes_run.
Qed.

Lemma script_handleVisibilityChange_run s :
  handleVisibilityChange s =
    (Normal (),
     match hidden (env s), saveTimeout s with
     | true, Some id => saved_state (on_env (clear (Some id)) s)
     | _, _ => s
     end).
Proof.
  unfold handleVisibilityChange, mbind, M_bind, gets. cbn.
  destruct (hidden (env s)), (saveTimeout s); try done.
  unfold liftE, clearTimeout, modify. by rewrite script_saveNotes_run.
Qed.

Lemma handleThemeToggle_run s :
  handleThemeToggle s =
    let v := if negb (dark_mode (dom s)) then "dark" else "light" in
    let s' := on_dom (set_dark (negb (dark_mode (dom s)))) s in
    match policy (env s) (OpSet THEME_KEY v) with
    | Some err => (Throw err, on_env (emit (Refused (OpSet THEME_KEY v) err)) s')
    | None => (Normal (),
               on_env (λ e, emit (Stored THEME_KEY v) (set_items (insert THEME_KEY v) e)) s')
    end.
Proof.
  unfold handleThemeToggle, updateThemeUI, mbind, M_bind, gets, modify, liftE, setItem.
  cbn. by destruct (policy (env s) _).
Qed.

Lemma initTheme_run s :
  initTheme s =
    match policy (env s) (OpGet THEME_KEY) with
    | Some err => (Throw err, on_env (emit (Refused (OpGet THEME_KEY) err)) s)
    | None =>
        (Normal (),
         on_dom (set_dark (bool_decide (items (env s) !! THEME_KEY = Some "dark"))) s)
    end.
Proof.
  unfold initTheme, updateThemeUI, mbind, M_bind, gets, modify, liftE, getItem.
  destruct (policy (env s) _); [done|]. by destruct s.
Qed.
End LegacyRun.

(** ** The component's handlers in closed form *)

Module ReactRun.
Import CONFIG React.
Implicit Types (s : State) (st : Status).

(** The state after [saveNotes(text)]. *)
Definition saved_state (text : string) s : State :=
  let e := env s in
  if available e then
    match policy e (OpSet STORAGE_KEY text) with
    | None =>
        set_statusTimeoutRef (Some (next_id e))
          (on_env (λ _, schedule cb_setDefault SAVE_STATUS_DISPLAY_DURATION
                          (clear (statusTimeoutRef s)
                             (emit (Stored STORAGE_KEY text)
                                (set_items (insert STORAGE_KEY text) (probed e)))))
             (set_status st_saved s))
    | Some err =>
        let s1 :=
          set_status st_error
            (on_env (λ _, emit (ConsoleError "Error saving to localStorage:" err)
                            (emit (Refused (OpSet STORAGE_KEY text) err) (probed e))) s) in
        if is_quota err then on_env (emit (Alert quota_message)) s1 else s1
    end
  else set_showError true (set_status st_error (on_env (λ _, probed e) s)).

Lemma comp_saveNotes_run text s : saveNotes text s = (Normal (), saved_state text s).
Proof.
  unfold saveNotes, saved_state.
  unfold mbind at 1. unfold M_bind at 1. unfold liftE at 1.
  rewrite probe_eq. cbn zeta.
  destruct (available (env s)); cbn [negb]; [|reflexivity].
  unfold try_catch, mbind, M_bind, gets, liftE at 1, setItem.
  cbn. rewrite policy_probed.
  destruct (policy (env s) _) as [err|] eqn:E.
  - unfold liftE, console_error, alert, modify, setStatus, modify. cbn.
    destruct (is_quota err); reflexivity.
  - unfold liftE, clearTimeout, setTimeout, modify, mret, M_ret. cbn.
    autorewrite with env.
    destruct (statusTimeoutRef s); cbn; autorewrite with env; reflexivity.
Qed.

(** The state after [handleInput] on an event carrying [text]. *)
Definition input_state (text : string) s : State :=
  {| env := schedule (cb_saveNotes text) AUTOSAVE_DELAY (clear (saveTimeoutRef s) (env s));
     content := text; status := st_saving; showError := showError s;
     isDark := isDark s; isLoaded := isLoaded s; body_dark := body_dark s;
     saveTimeoutRef := Some (next_id (env s));
     statusTimeoutRef := statusTimeoutRef s |}.

Lemma comp_handleInput_run text s : handleInput text s = (Normal (), input_state text s).
Proof.
  unfold handleInput, input_state, setContent, setStatus.
  unfold mbind, M_bind, gets, liftE, clearTimeout, setTimeout, modify, mret, M_ret.
  destruct s as [e c st se dk ld bd [id1|] h2]; reflexivity.
Qed.

Lemma handleStorage_run key newValue s :
  handleStorage key newValue s =
    (Normal (),
     if decide (key = Some STORAGE_KEY ∧ newValue ≠ Some (content s))
     then set_content (or_empty newValue) s else s).
Proof.
  unfold handleStorage, mbind, M_bind, gets, setContent, modify, mret, M_ret.
  by destruct (decide _).
Qed.

Lemma comp_handleVisibilityChange_run s :
  handleVisibilityChange s =
    (Normal (),
     match hidden (env s), saveTimeoutRef s with
     | true, Some id => saved_state (content s) (on_env (clear (Some id)) s)
     | _, _ => s
     end).
Proof.
  unfold handleVisibilityChange, mbind, M_bind, gets. cbn.
  destruct (hidden (env s)), (saveTimeoutRef s); try done.
  unfold liftE, clearTimeout, modify. by rewrite comp_saveNotes_run.
Qed.

Lemma comp_handleBeforeUnload_run s :
  handleBeforeUnload s =
    (Normal (),
     match saveTimeoutRef s with
     | Some _ => saved_state (content s) s
     | None => s
     end).
Proof.
  unfold handleBeforeUnload, mbind, M_bind, gets.
  destruct (saveTimeoutRef s); [|done]. by rewrite comp_saveNotes_run.
Qed.

Lemma toggleTheme_run s :
  toggleTheme s =
    let v := if negb (isDark s) then "dark" else "light" in
    let s' := set_body_dark (negb (isDark s)) (set_isDark (negb (isDark s)) s) in
    match policy (env s) (OpSet THEME_KEY v) with
    | Some err => (Throw err, on_env (emit (Refused (OpSet THEME_KEY v) err)) s')
    | None => (Normal (),
               on_env (λ e, emit (Stored THEME_KEY v) (set_items (insert THEME_KEY v) e)) s')
    end.
Proof.
  unfold toggleTheme, updateThemeBody, setIsDark, mbind, M_bind, gets, modify, liftE,
    setItem.
  cbn. by destruct (policy (env s) _).
Qed.
End ReactRun.

(** ** One slot per kind of timer *)

Section Slots.
Context {C : Type}.
Implicit Types (l T : list (Timer C)) (h hs hr : option positive) (N : positive).

(** A list of timers held by a single handle: empty, or the one timer the
    handle names. *)
Definition slot h l : Prop := l = [] ∨ ∃ t, l = [t] ∧ h = Some (tid t).

Lemma filter_one (P : Timer C → Prop) `{!∀ t, Decision (P t)} t :
  filter P [t] = if decide (P t) then [t] else [].
Proof. rewrite filter_cons, filter_nil. by case_decide. Qed.

Lemma slot_nil h : slot h [].
Proof. by left. Qed.

Lemma slot_length h l : slot h l → (length l ≤ 1)%nat.
Proof. intros [->|(t & -> & _)]; cbn; lia. Qed.

Lemma slot_filter (P : Timer C → Prop) `{!∀ t, Decision (P t)} h l :
  slot h l → slot h (filter P l).
Proof.
  intros [->|(t & -> & Hh)]; [by left|].
  rewrite filter_one. case_decide; [right; eauto|by left].
Qed.

Lemma slot_cleared id l : slot (Some id) l → filter (λ t, tid t ≠ id) l = [].
Proof.
  intros [->|(t & -> & [= ->])]; [done|].
  rewrite filter_one. by rewrite decide_False by (intros ?; done).
Qed.

Lemma slot_None l : slot None l → l = [].
Proof. by intros [->|(t & _ & ?)]. Qed.

Lemma slot_elem h l t : slot h l → t ∈ l → l = [t] ∧ h = Some (tid t).
Proof.
  intros [->|(t' & -> & ->)] Hin; [by apply elem_of_nil in Hin|].
  by apply list_elem_of_singleton in Hin as ->.
Qed.

Context (P Q : Timer C → Prop) `{!∀ t, Decision (P t)} `{!∀ t, Decision (Q t)}.
Hypothesis PQ : ∀ t, Q t ↔ ¬ P t.

(** The timer discipline: [hs] is the handle kept for the timers of kind
    [P], [hr] for those of kind [Q]; handles and live timers are older
    than the next handle to be given out. *)
Record tinv T N hs hr : Prop := {
  ti_ids : ∀ t, t ∈ T → (tid t < N)%positive;
  ti_hs : ∀ a, hs = Some a → (a < N)%positive;
  ti_hr : ∀ a, hr = Some a → (a < N)%positive;
  ti_P : slot hs (filter P T);
  ti_Q : slot hr (filter Q T);
  ti_distinct : ∀ a b, hs = Some a → hr = Some b → a ≠ b
}.

Lemma tinv_nil : tinv [] 1%positive None None.
Proof. split; try done; try apply slot_nil. intros t Ht. by apply elem_of_nil in Ht. Qed.

Lemma filter_filter_ne (R : Timer C → Prop) `{!∀ t, Decision (R t)} id T :
  filter R (filter (λ t, tid t ≠ id) T) = filter (λ t, tid t ≠ id) (filter R T).
Proof.
  induction T as [|t l IH]; [done|].
  rewrite !filter_cons. repeat case_decide; rewrite ?filter_cons;
    repeat case_decide; try done; by rewrite IH.
Qed.

Lemma tinv_filter id T N hs hr :
  tinv T N hs hr → tinv (filter (λ t, tid t ≠ id) T) N hs hr.
Proof.
  intros [H1 H2 H3 H4 H5 H6]. split; try done.
  - intros t [_ Ht]%list_elem_of_filter. auto.
  - rewrite filter_filter_ne. by apply slot_filter.
  - rewrite filter_filter_ne. by apply slot_filter.
Qed.

Lemma tinv_clear_P T N hs hr :
  tinv T N hs hr →
  filter P (match hs with Some id => filter (λ t, tid t ≠ id) T | None => T end) = [].
Proof.
  intros [_ _ _ H4 _ _]. destruct hs as [id|].
  - rewrite filter_filter_ne. by apply slot_cleared.
  - by apply slot_None.
Qed.

Lemma tinv_clear_Q T N hs hr :
  tinv T N hs hr →
  filter Q (match hr with Some id => filter (λ t, tid t ≠ id) T | None => T end) = [].
Proof.
  intros [_ _ _ _ H5 _]. destruct hr as [id|].
  - rewrite filter_filter_ne. by apply slot_cleared.
  - by apply slot_None.
Qed.

Lemma tinv_forget_Q T N hs hr : tinv T N hs hr → filter Q T = [] → tinv T N hs None.
Proof. intros [H1 H2 H3 H4 H5 H6] E. split; try done. rewrite E. apply slot_nil. Qed.

Lemma tinv_schedule_P T N hs hr t :
  tinv T N hs hr → P t → tid t = N → filter P T = [] →
  tinv (T ++ [t]) (Pos.succ N) (Some N) hr.
Proof.
  intros [H1 H2 H3 H4 H5 H6] HP Hid E. split.
  - intros t' [Ht|Ht]%elem_of_app;
      [apply H1 in Ht|apply list_elem_of_singleton in Ht as ->]; lia.
  - intros h [= <-]. lia.
  - intros h Hh. apply H3 in Hh. lia.
  - rewrite list.filter_app, E, filter_one. rewrite decide_True by done.
    right. exists t. by rewrite Hid.
  - rewrite list.filter_app, filter_one.
    rewrite decide_False by (rewrite PQ; tauto). by rewrite app_nil_r.
  - intros a b [= <-] Hb. apply H3 in Hb. lia.
Qed.

Lemma tinv_schedule_Q T N hs hr t :
  tinv T N hs hr → Q t → tid t = N → filter Q T = [] →
  tinv (T ++ [t]) (Pos.succ N) hs (Some N).
Proof.
  intros [H1 H2 H3 H4 H5 H6] HQ Hid E. split.
  - intros t' [Ht|Ht]%elem_of_app;
      [apply H1 in Ht|apply list_elem_of_singleton in Ht as ->]; lia.
  - intros h Hh. apply H2 in Hh. lia.
  - intros h [= <-]. lia.
  - rewrite list.filter_app, filter_one.
    rewrite decide_False by (rewrite PQ in HQ; tauto). by rewrite app_nil_r.
  - rewrite list.filter_app, E, filter_one. rewrite decide_True by done.
    right. exists t. by rewrite Hid.
  - intros a b Ha [= <-]. apply H2 in Ha. lia.
Qed.

Lemma tinv_at_most_one T N hs hr :
  tinv T N hs hr → (length (filter P T) ≤ 1)%nat ∧ (length (filter Q T) ≤ 1)%nat.
Proof. intros [_ _ _ H4 H5 _]. eauto using slot_length. Qed.

(** Under the discipline a handle names at most one live timer. *)
Lemma tinv_unique T N hs hr t t' :
  tinv T N hs hr → t ∈ T → t' ∈ T → tid t = tid t' → t = t'.
Proof.
  intros [_ _ _ H4 H5 H6] Ht Ht' E.
  destruct (decide (P t)) as [Pt|Pt], (decide (P t')) as [Pt'|Pt'].
  - destruct (slot_elem hs (filter P T) t H4) as [E1 _]; [by apply list_elem_of_filter|].
    assert (t' ∈ filter P T) as Hin by by apply list_elem_of_filter.
    rewrite E1 in Hin. by apply list_elem_of_singleton in Hin.
  - destruct (slot_elem hs (filter P T) t H4) as [_ E1]; [by apply list_elem_of_filter|].
    destruct (slot_elem hr (filter Q T) t' H5) as [_ E2].
    { apply list_elem_of_filter. by rewrite PQ. }
    exfalso. eapply H6; eauto.
  - destruct (slot_elem hs (filter P T) t' H4) as [_ E1]; [by apply list_elem_of_filter|].
    destruct (slot_elem hr (filter Q T) t H5) as [_ E2].
    { apply list_elem_of_filter. by rewrite PQ. }
    exfalso. eapply H6; eauto.
  - destruct (slot_elem hr (filter Q T) t H5) as [E1 _].
    { apply list_elem_of_filter. by rewrite PQ. }
    assert (t' ∈ filter Q T) as Hin by (apply list_elem_of_filter; by rewrite PQ).
    rewrite E1 in Hin. by apply list_elem_of_singleton in Hin.
Qed.
End Slots.

(** ** Which timer the browser runs *)

Section Ripe.
Context {C : Type}.
Implicit Types (e : Env C) (t : Timer C) (id : positive).

Lemma ripe_Some id e t :
  ripe id e = Some t → t ∈ timers e ∧ tid t = id ∧ due t ≤ now e.
Proof.
  intros Hh%head_Some_elem_of. apply list_elem_of_filter in Hh. destruct Hh as [[? ?] ?]. by split_and!.
Qed.

Lemma ripe_None id e t :
  ripe id e = None → t ∈ timers e → tid t = id → ¬ due t ≤ now e.
Proof.
  intros Hh%head_None Hin Hid Hdue.
  assert (t ∈ filter (λ t, tid t = id ∧ due t ≤ now e) (timers e)) as Hf
    by by apply list_elem_of_filter.
  rewrite Hh in Hf. by apply elem_of_nil in Hf.
Qed.

Context (P Q : Timer C → Prop) `{!∀ t, Decision (P t)} `{!∀ t, Decision (Q t)}.
Hypothesis PQ : ∀ t, Q t ↔ ¬ P t.

Lemma ripe_unique id e t hs hr :
  tinv P Q (timers e) (next_id e) hs hr →
  t ∈ timers e → tid t = id → due t ≤ now e → ripe id e = Some t.
Proof.
  intros Hinv Hin Hid Hdue.
  destruct (ripe id e) as [t'|] eqn:E.
  - apply ripe_Some in E as (Hin' & Hid' & _).
    f_equal. eapply (tinv_unique P Q); eauto. congruence.
  - exfalso. eapply ripe_None; eauto.
Qed.
End Ripe.

(** ** The timer discipline of the script *)

Module LegacyInv.
Import CONFIG Legacy LegacyRun.
Implicit Types (s : State) (st : Status).

Lemma script_kinds t : is_reset t ↔ ¬ is_save t.
Proof. unfold is_reset, is_save. destruct (cb t); split; congruence. Qed.

Definition inv s : Prop :=
  tinv is_save is_reset (timers (env s)) (next_id (env s))
    (saveTimeout s) (statusTimeout s).

Lemma script_inv_on_env f s :
  timers (f (env s)) = timers (env s) → next_id (f (env s)) = next_id (env s) →
  inv s → inv (on_env f s).
Proof. unfold inv. cbn. by intros -> ->. Qed.

Lemma inv_on_dom f s : inv s → inv (on_dom f s).
Proof. done. Qed.

Lemma script_inv_clear h s : inv s → inv (on_env (clear h) s).
Proof.
  unfold inv. cbn. rewrite next_id_clear. destruct h; cbn; [|done].
  apply tinv_filter.
Qed.

Lemma inv_updated st s : inv s → inv (updated st s).
Proof.
  unfold inv, updated. intros Hi.
  pose proof (tinv_clear_Q _ _ _ _ _ _ Hi) as HQ.
  assert (tinv is_save is_reset (timers (clear (statusTimeout s) (env s)))
            (next_id (env s)) (saveTimeout s) None) as Hi'.
  { apply (tinv_forget_Q _ _ _ _ _ (statusTimeout s)).
    - destruct (statusTimeout s); cbn; [by apply tinv_filter|done].
    - by destruct (statusTimeout s). }
  destruct st; cbn; rewrite ?next_id_clear; try done.
  apply (tinv_schedule_Q _ _ script_kinds _ _ _ None); try done.
  by destruct (statusTimeout s).
Qed.

Lemma script_inv_saved_state s : inv s → inv (saved_state s).
Proof.
  intros Hi. unfold saved_state.
  destruct (available (env s)).
  - destruct (policy (env s) _) as [err|].
    + destruct (is_quota err); repeat first
        [ apply inv_updated | apply script_inv_on_env; cbn; autorewrite with env; try done ].
    + apply inv_updated, script_inv_on_env; cbn; autorewrite with env; done.
  - apply inv_on_dom, inv_updated, script_inv_on_env; autorewrite with env; done.
Qed.

Lemma script_inv_input_state s : inv s → inv (input_state s).
Proof.
  intros Hi%(inv_updated st_saving). revert Hi.
  unfold inv, input_state, updated. cbn. rewrite !next_id_clear. intros Hi.
  apply (tinv_schedule_P _ _ script_kinds _ _ (saveTimeout s)); try done.
  - destruct (saveTimeout s); cbn; [by apply tinv_filter|done].
  - pose proof (tinv_clear_P _ _ _ _ _ _ Hi) as HP. by destruct (saveTimeout s).
Qed.

Lemma script_inv_fire id s : inv s → inv (fire id s).
Proof.
  intros Hi. unfold fire. destruct (ripe id (env s)) as [t|]; [|done].
  apply (script_inv_clear (Some id)) in Hi.
  destruct (cb t); cbn [run_callback]; unfold exec.
  - rewrite script_saveNotes_run. by apply script_inv_saved_state.
  - by rewrite resetStatus_run.
Qed.

Lemma script_inv_step ev s : inv s → inv (step ev s).
Proof.
  intros Hi. destruct ev as [text|dt|id|key v|h| | | |p|k v]; cbn [step]; unfold exec.
  - destruct (listening s); [|done].
    rewrite script_handleInput_run. by apply script_inv_input_state.
  - done.
  - by apply script_inv_fire.
  - destruct (listening s); [|done].
    rewrite handleStorageEvent_run. cbn [snd]. by case_decide.
  - destruct (listening s); [|done].
    rewrite script_handleVisibilityChange_run. cbn.
    destruct h, (saveTimeout s) as [id|] eqn:E; try done.
    by apply script_inv_saved_state, (script_inv_clear (Some id)).
  - destruct (listening s); [|done].
    rewrite script_handleBeforeUnload_run. cbn [snd].
    destruct (saveTimeout s) as [id|] eqn:E; [|done].
    by apply script_inv_saved_state, (script_inv_clear (Some id)).
  - destruct (listening s); [|done].
    rewrite handleThemeToggle_run. cbn zeta. by destruct (policy (env s) _).
  - by destruct (listening s).
  - done.
  - done.
Qed.

Lemma script_inv_run tr s : inv s → inv (run tr s).
Proof. revert s. induction tr as [|ev tr IH]; intros s Hi; [done|]. apply IH, script_inv_step, Hi. Qed.

(** The state after [loadNotes()]. *)
Definition loaded_state s : State :=
  let e := env s in
  if available e then
    match policy e (OpGet STORAGE_KEY) with
    | Some err =>
        updated st_error
          (on_env (λ _, emit (ConsoleError "Error loading from localStorage:" err)
                          (emit (Refused (OpGet STORAGE_KEY) err) (probed e))) s)
    | None =>
        updated st_default
          (on_dom (match items (probed e) !! STORAGE_KEY with
                   | Some v => set_notepad_value v
                   | None => id
                   end)
             (on_env (λ _, probed e) s))
    end
  else on_dom (set_modal "flex") (on_env (λ _, probed e) s).

Lemma loadNotes_run s : loadNotes s = (Normal (), loaded_state s).
Proof.
  unfold loadNotes, loaded_state, showError.
  unfold mbind at 1. unfold M_bind at 1. unfold liftE at 1.
  rewrite probe_eq. cbn zeta.
  destruct (available (env s)); cbn [negb]; [|reflexivity].
  unfold try_catch, mbind, M_bind, gets, liftE at 1, getItem.
  cbn -[updateSaveStatus]. rewrite policy_probed.
  destruct (policy (env s) _) as [err|] eqn:E.
  - unfold liftE, console_error, modify. cbn -[updateSaveStatus].
    by rewrite updateSaveStatus_run.
  - destruct (items (probed (env s)) !! STORAGE_KEY) eqn:E2; unfold modify;
      rewrite updateSaveStatus_run; [reflexivity|].
    by destruct s as [e d h1 h2 l].
Qed.

(** The state after [init()], when reading the theme does not throw. *)
Definition init_state s : State :=
  let e := env s in
  let s1 := on_dom (set_dark (bool_decide (items e !! THEME_KEY = Some "dark"))) s in
  if available e
  then set_listening true (loaded_state (on_env (λ _, probed e) s1))
  else on_dom (set_modal "flex") (on_env (λ _, probed e) s1).

Lemma init_run s :
  init s =
    match policy (env s) (OpGet THEME_KEY) with
    | Some err => (Throw err, on_env (emit (Refused (OpGet THEME_KEY) err)) s)
    | None => (Normal (), init_state s)
    end.
Proof.
  unfold init, init_state. unfold mbind at 1. unfold M_bind at 1.
  rewrite initTheme_run.
  destruct (policy (env s) _) as [err|] eqn:E; [done|].
  unfold mbind at 1. unfold M_bind at 1. unfold liftE at 1.
  rewrite probe_eq. cbn -[loadNotes].
  destruct (available (env s)); cbn [negb]; [|reflexivity].
  unfold mbind, M_bind. rewrite loadNotes_run. reflexivity.
Qed.

Lemma inv_loaded_state s : inv s → inv (loaded_state s).
Proof.
  intros Hi. unfold loaded_state.
  destruct (available (env s)).
  - destruct (policy (env s) _) as [err|].
    + apply inv_updated, script_inv_on_env; cbn; autorewrite with env; done.
    + apply inv_updated, inv_on_dom, script_inv_on_env; autorewrite with env; done.
  - apply inv_on_dom, script_inv_on_env; autorewrite with env; done.
Qed.

Lemma script_inv_page d i p : inv (page d i p).
Proof. apply tinv_nil. Qed.

Lemma script_inv_start d i p : inv (start d i p).
Proof.
  unfold start, exec. rewrite init_run. pose proof (script_inv_page d i p) as Hi.
  destruct (policy _ _) as [err|]; cbn [snd].
  - by apply script_inv_on_env.
  - unfold init_state. destruct (available _).
    + apply (inv_loaded_state (on_env _ (on_dom _ (page d i p)))).
      apply script_inv_on_env; autorewrite with env; done.
    + apply inv_on_dom, script_inv_on_env; autorewrite with env; done.
Qed.
End LegacyInv.

(** ** The timer discipline of the component *)

Module ReactInv.
Import CONFIG React ReactRun.
Implicit Types (s : State) (st : Status).

Lemma comp_kinds t : is_reset t ↔ ¬ is_save t.
Proof. unfold is_reset, is_save. destruct (cb t); split; try done. tauto. Qed.

Definition inv s : Prop :=
  tinv is_save is_reset (timers (env s)) (next_id (env s))
    (saveTimeoutRef s) (statusTimeoutRef s).

Lemma comp_inv_on_env f s :
  timers (f (env s)) = timers (env s) → next_id (f (env s)) = next_id (env s) →
  inv s → inv (on_env f s).
Proof. unfold inv. cbn. by intros -> ->. Qed.

Lemma comp_inv_clear h s : inv s → inv (on_env (clear h) s).
Proof.
  unfold inv. cbn. rewrite next_id_clear. destruct h; cbn; [|done].
  apply tinv_filter.
Qed.

Lemma comp_inv_saved_state text s : inv s → inv (saved_state text s).
Proof.
  intros Hi. unfold saved_state.
  destruct (available (env s)).
  - destruct (policy (env s) _) as [err|].
    + destruct (is_quota err);
        repeat (apply comp_inv_on_env; cbn; autorewrite with env; try done).
    + revert Hi. unfold inv. env_simpl. intros Hi.
      pose proof (tinv_clear_Q _ _ _ _ _ _ Hi) as HQ.
      apply (tinv_schedule_Q _ _ comp_kinds _ _ _ None); try done.
      * apply (tinv_forget_Q _ _ _ _ _ (statusTimeoutRef s)).
        -- destruct (statusTimeoutRef s); env_simpl;
             [by apply tinv_filter|done].
        -- destruct (statusTimeoutRef s); env_simpl; done.
      * destruct (statusTimeoutRef s); env_simpl; done.
  - apply (comp_inv_on_env (λ _, probed (env s))); autorewrite with env; done.
Qed.

Lemma comp_inv_input_state text s : inv s → inv (input_state text s).
Proof.
  unfold inv, input_state. cbn. rewrite !next_id_clear. intros Hi.
  pose proof (tinv_clear_P _ _ _ _ _ _ Hi) as HP.
  apply (tinv_schedule_P _ _ comp_kinds _ _ (saveTimeoutRef s)); try done.
  - destruct (saveTimeoutRef s); cbn; [by apply tinv_filter|done].
  - by destruct (saveTimeoutRef s).
Qed.

Lemma comp_inv_fire id s : inv s → inv (fire id s).
Proof.
  intros Hi. unfold fire. destruct (ripe id (env s)) as [t|]; [|done].
  apply (comp_inv_clear (Some id)) in Hi.
  destruct (cb t); cbn [run_callback]; unfold exec.
  - rewrite comp_saveNotes_run. by apply comp_inv_saved_state.
  - done.
Qed.

Lemma comp_inv_step ev s : inv s → inv (step ev s).
Proof.
  intros Hi. destruct ev as [text|dt|id|key v|h| | | |p|k v]; cbn [step]; unfold exec.
  - destruct (isLoaded s); [|done].
    rewrite comp_handleInput_run. by apply comp_inv_input_state.
  - done.
  - by apply comp_inv_fire.
  - destruct (isLoaded s); [|done].
    rewrite handleStorage_run. cbn [snd]. by case_decide.
  - destruct (isLoaded s); [|done].
    rewrite comp_handleVisibilityChange_run. cbn.
    destruct h, (saveTimeoutRef s) as [id|] eqn:E; try done.
    by apply comp_inv_saved_state, (comp_inv_clear (Some id)).
  - destruct (isLoaded s); [|done].
    rewrite comp_handleBeforeUnload_run. cbn [snd].
    destruct (saveTimeoutRef s) as [id|] eqn:E; [|done].
    by apply comp_inv_saved_state.
  - destruct (isLoaded s); [|done].
    rewrite toggleTheme_run. cbn zeta. by destruct (policy (env s) _).
  - by destruct (isLoaded s).
  - done.
  - done.
Qed.

Lemma comp_inv_run tr s : inv s → inv (run tr s).
Proof. revert s. induction tr as [|ev tr IH]; intros s Hi; [done|]. apply IH, comp_inv_step, Hi. Qed.

(** The state after the first effect, when it completes. *)
Definition mount_state s : State :=
  let e := env s in
  let dk := bool_decide (items e !! THEME_KEY = Some "dark") in
  let s1 := on_env (λ _, probed e) (set_body_dark dk (set_isDark dk s)) in
  set_isLoaded true
    (if available e
     then match items (probed e) !! STORAGE_KEY with
          | Some v => set_content v s1
          | None => s1
          end
     else set_showError true s1).

Lemma mountEffect_run s :
  mountEffect s =
    match policy (env s) (OpGet THEME_KEY) with
    | Some err => (Throw err, on_env (emit (Refused (OpGet THEME_KEY) err)) s)
    | None =>
        let dk := bool_decide (items (env s) !! THEME_KEY = Some "dark") in
        match (if available (env s) then policy (env s) (OpGet STORAGE_KEY) else None) with
        | Some err =>
            (Throw err,
             on_env (λ _, emit (Refused (OpGet STORAGE_KEY) err) (probed (env s)))
               (set_body_dark dk (set_isDark dk s)))
        | None => (Normal (), mount_state s)
        end
    end.
Proof.
  unfold mountEffect, mount_state.
  unfold mbind, M_bind, liftE, getItem, setIsDark, updateThemeBody, setContent,
    setShowError, setIsLoaded, modify, mret, M_ret.
  destruct (policy (env s) (OpGet THEME_KEY)) as [err|] eqn:E; [done|].
  cbn. rewrite probe_eq.
  destruct (available (env s)); cbn; [|reflexivity].
  rewrite policy_probed.
  destruct (policy (env s) (OpGet STORAGE_KEY)) as [err|]; [reflexivity|].
  destruct (items (probed (env s)) !! STORAGE_KEY); reflexivity.
Qed.

Lemma comp_inv_page d i p : inv (page d i p).
Proof. apply tinv_nil. Qed.

Lemma comp_inv_start d i p : inv (start d i p).
Proof.
  unfold start, exec. rewrite mountEffect_run. pose proof (comp_inv_page d i p) as Hi.
  destruct (policy _ _) as [err|]; cbn [snd]; [by apply comp_inv_on_env|].
  cbn zeta. destruct (if available _ then _ else _); cbn [snd].
  - apply (comp_inv_on_env (λ _, _)); cbn; autorewrite with env; done.
  - unfold mount_state. cbn zeta. destruct (available _).
    + destruct (items _ !! _); unfold inv; cbn; autorewrite with env; apply tinv_nil.
    + unfold inv; cbn; autorewrite with env; apply tinv_nil.
Qed.
End ReactInv.

Import CONFIG.

(** ** Bursts of typing *)

(** [rapid b tr]: the trace is made of input events, the passing of time
    and timer runs only, and less than the debounce delay elapses after
    each input before the next one (or before the trace ends); [b] is what
    is left of the delay when the trace starts. *)
Fixpoint rapid (b : N) (tr : list Event) : bool :=
  match tr with
  | [] => true
  | Input _ :: tr' => rapid AUTOSAVE_DELAY tr'
  | Advance dt :: tr' => bool_decide (dt < b) && rapid (b - dt) tr'
  | Fire _ :: tr' => rapid b tr'
  | _ => false
  end.

(** What is left of the delay when a rapid trace ends. *)
Fixpoint remaining (b : N) (tr : list Event) : N :=
  match tr with
  | [] => b
  | Input _ :: tr' => remaining AUTOSAVE_DELAY tr'
  | Advance dt :: tr' => remaining (b - dt) tr'
  | _ :: tr' => remaining b tr'
  end.

(** The text of the last input event of [Input c :: tr]. *)
Fixpoint last_input (c : string) (tr : list Event) : string :=
  match tr with
  | [] => c
  | Input c' :: tr' => last_input c' tr'
  | _ :: tr' => last_input c tr'
  end.

(** The storage lets the probe pass and takes [text] under the notes key. *)
Definition accepts (p : StorageOp → option JsError) (text : string) : Prop :=
  p (OpSet testKey "test") = None ∧ p (OpRemove testKey) = None
  ∧ p (OpSet STORAGE_KEY text) = None.


Module LegacyBurst.
Import CONFIG Legacy LegacyRun LegacyInv.
Implicit Types (s : State).

(** A save is pending: the one save timer is due in [b], the textarea
    holds [txt], and [w] is what has been written under the notes key. *)
Definition pending (b : N) (txt : string) (w : list string)
    (p : StorageOp → option JsError) s : Prop :=
  inv s ∧ listening s = true ∧ 0 < b
  ∧ notepad_value (dom s) = txt
  ∧ writes_to STORAGE_KEY (log (env s)) = w
  ∧ policy (env s) = p
  ∧ ∃ id, saveTimeout s = Some id
          ∧ save_timers s =
              [{| tid := id; due := now (env s) + b; cb := cb_saveNotes |}].

Lemma script_pending_input c s :
  inv s → listening s = true →
  pending AUTOSAVE_DELAY c (writes_to STORAGE_KEY (log (env s))) (policy (env s))
    (step (Input c) s)
  ∧ status (step (Input c) s) = st_saving.
Proof.
  intros Hi Hl. cbn [step]. rewrite Hl. unfold exec. rewrite script_handleInput_run. cbn [snd].
  split; [|reflexivity].
  split_and!.
  - apply script_inv_input_state. by apply inv_on_dom.
  - done.
  - done.
  - done.
  - cbn. by autorewrite with env.
  - cbn. by autorewrite with env.
  - exists (next_id (env s)). split; [done|].
    unfold save_timers. cbn. rewrite list.filter_app, filter_one.
    rewrite decide_True by done.
    pose proof (inv_updated st_saving s Hi) as Hi'.
    pose proof (tinv_clear_P _ _ _ _ _ _ Hi') as HP. cbn in HP.
    destruct (saveTimeout s); cbn; autorewrite with env; rewrite HP; done.
Qed.

Lemma script_pending_advance b txt w p dt s :
  dt < b → pending b txt w p s → pending (b - dt) txt w p (step (Advance dt) s).
Proof.
  intros Hdt (Hi & Hl & Hb & Hc & Hw & Hp & id & Hh & Hs).
  split_and!; try done; [lia|].
  exists id. split; [done|]. unfold save_timers in *. cbn. rewrite Hs.
  do 2 f_equal. lia.
Qed.

Lemma script_pending_fire b txt w p id' s :
  pending b txt w p s → pending b txt w p (step (Fire id') s).
Proof.
  intros (Hi & Hl & Hb & Hc & Hw & Hp & id & Hh & Hs).
  cbn [step]. unfold fire.
  destruct (ripe id' (env s)) as [t|] eqn:E; [|by split_and!; eauto].
  apply ripe_Some in E as (Hin & Hid & Hdue).
  assert ({| tid := id; due := now (env s) + b; cb := cb_saveNotes |} ∈ timers (env s))
    as Hin'.
  { assert ({| tid := id; due := now (env s) + b; cb := cb_saveNotes |} ∈ save_timers s)
      as Hx by (rewrite Hs; apply list_elem_of_singleton; done).
    by apply list_elem_of_filter in Hx as [_ ?]. }
  assert (id' ≠ id) as Hne.
  { intros ->. pose proof (tinv_unique _ _ script_kinds _ _ _ _ _ _ Hi Hin Hin' Hid) as ->.
    cbn in Hdue. lia. }
  assert (cb t = cb_resetStatus) as Hcb.
  { destruct (cb t) eqn:Ec; [|done]. exfalso.
    assert (t ∈ save_timers s) as Hx by (by apply list_elem_of_filter).
    rewrite Hs in Hx. apply list_elem_of_singleton in Hx as ->. cbn in Hid. done. }
  rewrite Hcb. cbn [run_callback]. unfold exec. rewrite resetStatus_run. cbn [snd].
  split_and!; try done.
  - by apply inv_on_dom, (script_inv_clear (Some id')).
  - exists id. split; [done|]. unfold save_timers in *. cbn.
    rewrite filter_filter_ne, Hs, filter_one. by rewrite decide_True by (cbn; congruence).
Qed.

Lemma script_pending_run b txt w p tr s :
  rapid b tr = true → pending b txt w p s →
  pending (remaining b tr) (last_input txt tr) w p (run tr s).
Proof.
  revert b txt s. induction tr as [|ev tr IH]; intros b txt s Hr Hp; [done|].
  destruct ev; cbn in Hr; try done; cbn [run foldl remaining last_input].
  - destruct Hp as (Hi & Hl & _ & _ & <- & <- & _).
    apply IH; [done|]. by apply script_pending_input.
  - apply andb_prop in Hr as [Hdt%bool_decide_eq_true Hr].
    apply IH; [done|]. by apply script_pending_advance.
  - apply IH; [done|]. by apply script_pending_fire.
Qed.

(** The quiet period: once the delay has elapsed the pending timer runs,
    writes the text and leaves no save timer behind. *)
Lemma script_pending_flush b txt w p dt s :
  pending b txt w p s → b ≤ dt → accepts p txt →
  ∃ id, saveTimeout s = Some id ∧
    let s' := step (Fire id) (step (Advance dt) s) in
    writes_to STORAGE_KEY (log (env s')) = w ++ [txt]
    ∧ items (env s') !! STORAGE_KEY = Some txt
    ∧ save_timers s' = []
    ∧ status s' = st_saved.
Proof.
  intros (Hi & Hl & Hb & Hc & Hw & Hp & id & Hh & Hs) Hdt (A1 & A2 & A3).
  exists id. split; [done|]. cbn zeta. cbn [step]. unfold fire.
  assert ({| tid := id; due := now (env s) + b; cb := cb_saveNotes |} ∈ timers (env s))
    as Hin.
  { assert ({| tid := id; due := now (env s) + b; cb := cb_saveNotes |} ∈ save_timers s)
      as Hx by (rewrite Hs; apply list_elem_of_singleton; done).
    by apply list_elem_of_filter in Hx as [_ ?]. }
  rewrite (ripe_unique _ _ script_kinds id (env (on_env (tick dt) s)) _
             (saveTimeout s) (statusTimeout s) Hi Hin eq_refl) by (cbn; lia).
  cbn [cb run_callback]. unfold exec. rewrite script_saveNotes_run. cbn [snd].
  unfold saved_state. cbn [env on_env dom].
  assert (available (set_timers (filter (λ t', tid t' ≠ id)) (tick dt (env s))) = true)
    as ->.
  { apply available_true. cbn. by rewrite Hp. }
  cbn [policy set_timers tick]. rewrite Hp, Hc, A3.
  split_and!.
  - env_simpl. rewrite !writes_to_app, Hw.
    rewrite writes_probe_log by done. unfold writes_to. cbn.
    rewrite decide_True by done. by rewrite app_nil_r.
  - env_simpl. apply lookup_insert_eq.
  - unfold save_timers. cbn. rewrite list.filter_app, filter_one.
    rewrite decide_False by done. rewrite app_nil_r.
    rewrite filter_timers_clear. cbn. autorewrite with env. cbn.
    assert (filter is_save (filter (λ t', tid t' ≠ id) (timers (env s))) = []) as HP.
    { rewrite filter_filter_ne. fold (save_timers s). rewrite Hs, filter_one.
      by rewrite decide_False by (cbn; intros ?; done). }
    destruct (statusTimeout s); [rewrite HP|]; done.
  - reflexivity.
Qed.
End LegacyBurst.

Module ReactBurst.
Import CONFIG React ReactRun ReactInv.
Implicit Types (s : State).

(** A save is pending: the one save timer is due in [b] and carries
    [txt], the text of the component; [w] is what has been written under
    the notes key. *)
Definition pending (b : N) (txt : string) (w : list string)
    (p : StorageOp → option JsError) s : Prop :=
  inv s ∧ isLoaded s = true ∧ 0 < b
  ∧ content s = txt
  ∧ writes_to STORAGE_KEY (log (env s)) = w
  ∧ policy (env s) = p
  ∧ ∃ id, saveTimeoutRef s = Some id
          ∧ save_timers s =
              [{| tid := id; due := now (env s) + b; cb := cb_saveNotes txt |}].

Lemma comp_pending_input c s :
  inv s → isLoaded s = true →
  pending AUTOSAVE_DELAY c (writes_to STORAGE_KEY (log (env s))) (policy (env s))
    (step (Input c) s)
  ∧ status (step (Input c) s) = st_saving.
Proof.
  intros Hi Hl. cbn [step]. rewrite Hl. unfold exec. rewrite comp_handleInput_run. cbn [snd].
  split; [|reflexivity].
  split_and!; try done.
  - by apply comp_inv_input_state.
  - cbn. by autorewrite with env.
  - cbn. by autorewrite with env.
  - exists (next_id (env s)). split; [done|].
    unfold save_timers. cbn. rewrite list.filter_app, filter_one.
    rewrite decide_True by done.
    pose proof (tinv_clear_P _ _ _ _ _ _ Hi) as HP.
    destruct (saveTimeoutRef s); cbn; autorewrite with env; rewrite HP; done.
Qed.

Lemma comp_pending_advance b txt w p dt s :
  dt < b → pending b txt w p s → pending (b - dt) txt w p (step (Advance dt) s).
Proof.
  intros Hdt (Hi & Hl & Hb & Hc & Hw & Hp & id & Hh & Hs).
  split_and!; try done; [lia|].
  exists id. split; [done|]. unfold save_timers in *. cbn. rewrite Hs.
  do 2 f_equal. lia.
Qed.

Lemma comp_pending_fire b txt w p id' s :
  pending b txt w p s → pending b txt w p (step (Fire id') s).
Proof.
  intros (Hi & Hl & Hb & Hc & Hw & Hp & id & Hh & Hs).
  cbn [step]. unfold fire.
  destruct (ripe id' (env s)) as [t|] eqn:E; [|by split_and!; eauto].
  apply ripe_Some in E as (Hin & Hid & Hdue).
  assert ({| tid := id; due := now (env s) + b; cb := cb_saveNotes txt |} ∈ timers (env s))
    as Hin'.
  { assert ({| tid := id; due := now (env s) + b; cb := cb_saveNotes txt |}
              ∈ save_timers s)
      as Hx by (rewrite Hs; apply list_elem_of_singleton; done).
    by apply list_elem_of_filter in Hx as [_ ?]. }
  assert (id' ≠ id) as Hne.
  { intros ->. pose proof (tinv_unique _ _ comp_kinds _ _ _ _ _ _ Hi Hin Hin' Hid) as ->.
    cbn in Hdue. lia. }
  assert (cb t = cb_setDefault) as Hcb.
  { destruct (cb t) eqn:Ec; [|done]. exfalso.
    assert (t ∈ save_timers s) as Hx.
    { apply list_elem_of_filter. split; [|done]. unfold is_save. by rewrite Ec. }
    rewrite Hs in Hx. apply list_elem_of_singleton in Hx as ->. cbn in Hid. done. }
  rewrite Hcb. cbn [run_callback]. unfold exec, setStatus, modify. cbn [snd].
  split_and!; try done.
  - by apply (comp_inv_clear (Some id')).
  - exists id. split; [done|]. unfold save_timers in *. cbn.
    rewrite filter_filter_ne, Hs, filter_one. by rewrite decide_True by (cbn; congruence).
Qed.

Lemma comp_pending_run b txt w p tr s :
  rapid b tr = true → pending b txt w p s →
  pending (remaining b tr) (last_input txt tr) w p (run tr s).
Proof.
  revert b txt s. induction tr as [|ev tr IH]; intros b txt s Hr Hp; [done|].
  destruct ev; cbn in Hr; try done; cbn [run foldl remaining last_input].
  - destruct Hp as (Hi & Hl & _ & _ & <- & <- & _).
    apply IH; [done|]. by apply comp_pending_input.
  - apply andb_prop in Hr as [Hdt%bool_decide_eq_true Hr].
    apply IH; [done|]. by apply comp_pending_advance.
  - apply IH; [done|]. by apply comp_pending_fire.
Qed.

Lemma comp_pending_flush b txt w p dt s :
  pending b txt w p s → b ≤ dt → accepts p txt →
  ∃ id, saveTimeoutRef s = Some id ∧
    let s' := step (Fire id) (step (Advance dt) s) in
    writes_to STORAGE_KEY (log (env s')) = w ++ [txt]
    ∧ items (env s') !! STORAGE_KEY = Some txt
    ∧ save_timers s' = []
    ∧ status s' = st_saved.
Proof.
  intros (Hi & Hl & Hb & Hc & Hw & Hp & id & Hh & Hs) Hdt (A1 & A2 & A3).
  exists id. split; [done|]. cbn zeta. cbn [step]. unfold fire.
  assert ({| tid := id; due := now (env s) + b; cb := cb_saveNotes txt |} ∈ timers (env s))
    as Hin.
  { assert ({| tid := id; due := now (env s) + b; cb := cb_saveNotes txt |}
              ∈ save_timers s)
      as Hx by (rewrite Hs; apply list_elem_of_singleton; done).
    by apply list_elem_of_filter in Hx as [_ ?]. }
  rewrite (ripe_unique _ _ comp_kinds id (env (on_env (tick dt) s)) _
             (saveTimeoutRef s) (statusTimeoutRef s) Hi Hin eq_refl) by (cbn; lia).
  cbn [cb run_callback]. unfold exec. rewrite comp_saveNotes_run. cbn [snd].
  unfold saved_state. cbn [env on_env].
  assert (available (set_timers (filter (λ t', tid t' ≠ id)) (tick dt (env s))) = true)
    as ->.
  { apply available_true. cbn. by rewrite Hp. }
  cbn [policy set_timers tick]. rewrite Hp, A3.
  split_and!.
  - env_simpl. rewrite !writes_to_app, Hw.
    rewrite writes_probe_log by done. unfold writes_to. cbn.
    rewrite decide_True by done. by rewrite app_nil_r.
  - env_simpl. apply lookup_insert_eq.
  - unfold save_timers. cbn. rewrite list.filter_app, filter_one.
    rewrite decide_False by (cbn; tauto). rewrite app_nil_r.
    rewrite filter_timers_clear. env_simpl.
    assert (filter is_save (filter (λ t', tid t' ≠ id) (timers (env s))) = []) as HP.
    { rewrite filter_filter_ne. fold (save_timers s). rewrite Hs, filter_one.
      by rewrite decide_False by (cbn; intros ?; done). }
    destruct (statusTimeoutRef s); [rewrite HP|]; done.
  - reflexivity.
Qed.
End ReactBurst.

(** The two implementations after the page has loaded over storage
    content [i] and fault policy [p], and has gone through the events
    [pre]. *)
Definition legacy_after (d : Legacy.Dom) i p (pre : list Event) : Legacy.State :=
  Legacy.run pre (Legacy.start d i p).
Definition react_after (dk : bool) i p (pre : list Event) : React.State :=
  React.run pre (React.start dk i p).

Lemma legacy_after_inv d i p pre : LegacyInv.inv (legacy_after d i p pre).
Proof. apply LegacyInv.script_inv_run, LegacyInv.script_inv_start. Qed.

Lemma react_after_inv dk i p pre : ReactInv.inv (react_after dk i p pre).
Proof. apply ReactInv.comp_inv_run, ReactInv.comp_inv_start. Qed.


(** ** Comparing the timer tables of the two implementations *)

Section Stamps.
Context {C D : Type}.
Implicit Types (l : list (Timer C)) (k : list (Timer D)).

(** Two lists hold the same timers, callbacks apart. *)
Definition same_timers l k : Prop :=
  Forall2 (λ t u, tid t = tid u ∧ due t = due u) l k.

Lemma same_timers_nil : same_timers [] [].
Proof. constructor. Qed.

Lemma same_timers_one t u : tid t = tid u → due t = due u → same_timers [t] [u].
Proof. intros. by repeat constructor. Qed.

Lemma same_timers_nil_r l : same_timers l [] → l = [].
Proof. by intros ->%Forall2_nil_inv_r. Qed.

Lemma same_timers_filter_ne id l k :
  same_timers l k →
  same_timers (filter (λ t, tid t ≠ id) l) (filter (λ u, tid u ≠ id) k).
Proof.
  induction 1 as [|t u l k [Hid Hdue] _ IH]; [constructor|].
  rewrite !filter_cons. rewrite Hid.
  destruct (decide (tid u ≠ id)); [constructor|]; done.
Qed.

Lemma same_timers_elem_l l k t :
  same_timers l k → t ∈ l → ∃ u, u ∈ k ∧ tid t = tid u ∧ due t = due u.
Proof.
  intros H Hin. apply list_elem_of_lookup in Hin as [n Hn].
  destruct (Forall2_lookup_l _ _ _ _ _ H Hn) as (u & Hu & ?).
  exists u. split; [|done]. apply list_elem_of_lookup. eauto.
Qed.

Lemma same_timers_elem_r l k u :
  same_timers l k → u ∈ k → ∃ t, t ∈ l ∧ tid t = tid u ∧ due t = due u.
Proof.
  intros H Hin. apply list_elem_of_lookup in Hin as [n Hn].
  destruct (Forall2_lookup_r _ _ _ _ _ H Hn) as (t & Ht & ?).
  exists t. split; [|done]. apply list_elem_of_lookup. eauto.
Qed.
End Stamps.

(** ** The probe seen from outside *)

Section ProbeItems.
Context {C : Type}.

Lemma items_probed (e : Env C) :
  items (probed e) =
    match policy e (OpSet testKey "test") with
    | Some _ => items e
    | None =>
        match policy e (OpRemove testKey) with
        | Some _ => <[testKey:="test"]> (items e)
        | None => delete testKey (items e)
        end
    end.
Proof.
  unfold probed. rewrite probe_run.
  destruct (policy e (OpSet _ _)); [done|].
  destruct (policy e (OpRemove _)); cbn; [done|]. apply delete_insert_eq.
Qed.

Lemma storage_probe_log (e : Env C) : filter is_storage (probe_log e) = probe_log e.
Proof.
  unfold probe_log.
  destruct (policy e (OpSet _ _)); [done|]. by destruct (policy e (OpRemove _)).
Qed.
End ProbeItems.

Lemma probe_log_ext {C D} (e : Env C) (e' : Env D) :
  policy e = policy e' → probe_log e = probe_log e'.
Proof. unfold probe_log. by intros ->. Qed.

Lemma items_probed_ext {C D} (e : Env C) (e' : Env D) :
  policy e = policy e' → items e = items e' → items (probed e) = items (probed e').
Proof. rewrite !items_probed. by intros -> ->. Qed.

Lemma available_ext {C D} (e : Env C) (e' : Env D) :
  policy e = policy e' → available e = available e'.
Proof. unfold available. by intros ->. Qed.

(** ** Handles of different kinds do not interfere *)

Section SlotsMore.
Context {C : Type}.
Context (P Q : Timer C → Prop) `{!∀ t, Decision (P t)} `{!∀ t, Decision (Q t)}.
Implicit Types (T : list (Timer C)) (hs hr : option positive) (N : positive).

(** Clearing the handle of one kind leaves the timers of the other kind. *)
Lemma tinv_clear_Q_keeps_P T N hs hr :
  tinv P Q T N hs hr →
  filter P (match hr with Some id => filter (λ t, tid t ≠ id) T | None => T end)
  = filter P T.
Proof.
  intros [_ _ _ H4 _ H6]. destruct hr as [id|]; [|done].
  rewrite filter_filter_ne.
  destruct H4 as [->|(t & -> & Hh)]; [done|].
  rewrite filter_one. rewrite decide_True; [done|].
  intros E. by apply (H6 (tid t) id).
Qed.

Lemma tinv_clear_P_keeps_Q T N hs hr :
  tinv P Q T N hs hr →
  filter Q (match hs with Some id => filter (λ t, tid t ≠ id) T | None => T end)
  = filter Q T.
Proof.
  intros [_ _ _ _ H5 H6]. destruct hs as [id|]; [|done].
  rewrite filter_filter_ne.
  destruct H5 as [->|(t & -> & Hh)]; [done|].
  rewrite filter_one. rewrite decide_True; [done|].
  intros E. apply (H6 id (tid t)); done.
Qed.
End SlotsMore.

(** ** Where the two implementations agree *)

Module Agreement.
Module L := Legacy.
Module R := React.
Implicit Types (l : L.State) (r : R.State).

(** The storage calls of a log, completed or refused, in order. *)
Definition storage_calls (x : list Effect) : list Effect := filter is_storage x.

Lemma storage_calls_app x y : storage_calls (x ++ y) = storage_calls x ++ storage_calls y.
Proof. apply list.filter_app. Qed.

(** The script and the component are in step: same storage, same clock,
    same text, same status, the same save timer pending (and the
    component's carries the current text), and the same reset timer
    while the status is saved. The component may in addition hold a
    reset timer that the script has cleared. [bl] and [br] are the
    storage calls each one made before the comparison starts. *)
Record sim (bl br : list Effect) l r : Prop := {
  sim_invL : LegacyInv.inv l;
  sim_invR : ReactInv.inv r;
  sim_listening : L.listening l = true;
  sim_loaded : R.isLoaded r = true;
  sim_items : items (L.env l) = items (R.env r);
  sim_policy : policy (L.env l) = policy (R.env r);
  sim_next : next_id (L.env l) = next_id (R.env r);
  sim_now : now (L.env l) = now (R.env r);
  sim_hidden : hidden (L.env l) = hidden (R.env r);
  sim_log : ∃ x, storage_calls (log (L.env l)) = bl ++ x
                 ∧ storage_calls (log (R.env r)) = br ++ x;
  sim_content : L.notepad_value (L.dom l) = R.content r;
  sim_shown : L.dom l = LegacyRun.shown (R.status r) (L.dom l);
  sim_dark : L.dark_mode (L.dom l) = R.isDark r;
  sim_handle : L.saveTimeout l = R.saveTimeoutRef r;
  sim_saves : same_timers (L.save_timers l) (R.save_timers r);
  sim_closure : ∀ u, u ∈ R.save_timers r → cb u = R.cb_saveNotes (R.content r);
  sim_resets : if decide (R.status r = st_saved)
               then same_timers (L.reset_timers l) (R.reset_timers r)
               else L.reset_timers l = []
}.

Lemma sim_status bl br l r : sim bl br l r → L.status l = R.status r.
Proof.
  intros H. pose proof (sim_shown _ _ _ _ H) as E. unfold L.status. rewrite E.
  by destruct (R.status r).
Qed.

(** A change of the environment that leaves the timers alone and is the
    same on both sides. *)
Lemma sim_env bl br l r (f : Env L.Callback → Env L.Callback)
    (g : Env R.Callback → Env R.Callback) y :
  sim bl br l r →
  timers (f (L.env l)) = timers (L.env l) →
  next_id (f (L.env l)) = next_id (L.env l) →
  timers (g (R.env r)) = timers (R.env r) →
  next_id (g (R.env r)) = next_id (R.env r) →
  items (f (L.env l)) = items (g (R.env r)) →
  policy (f (L.env l)) = policy (g (R.env r)) →
  now (f (L.env l)) = now (g (R.env r)) →
  hidden (f (L.env l)) = hidden (g (R.env r)) →
  storage_calls (log (f (L.env l))) = storage_calls (log (L.env l)) ++ y →
  storage_calls (log (g (R.env r))) = storage_calls (log (R.env r)) ++ y →
  sim bl br (L.on_env f l) (R.on_env g r).
Proof.
  intros [] Ht Hn Ht' Hn' Hi Hp Hw Hh Hl Hl'.
  split; try done.
  - by apply LegacyInv.script_inv_on_env.
  - by apply ReactInv.comp_inv_on_env.
  - cbn. congruence.
  - destruct sim_log0 as (x & E1 & E2). exists (x ++ y). cbn.
    rewrite Hl, Hl', E1, E2. by rewrite !app_assoc.
  - unfold L.save_timers, R.save_timers in *. cbn. by rewrite Ht, Ht'.
  - unfold R.save_timers in *. cbn. by rewrite Ht'.
  - unfold L.reset_timers, R.reset_timers in *. cbn. by rewrite Ht, Ht'.
Qed.

Lemma sim_clear bl br id l r :
  sim bl br l r →
  sim bl br (L.on_env (clear (Some id)) l) (R.on_env (clear (Some id)) r).
Proof.
  intros []. split; try done.
  - by apply (LegacyInv.script_inv_clear (Some id)).
  - by apply (ReactInv.comp_inv_clear (Some id)).
  - unfold L.save_timers, R.save_timers in *. cbn. rewrite !filter_filter_ne.
    by apply same_timers_filter_ne.
  - unfold R.save_timers in *. cbn. intros u Hu. rewrite filter_filter_ne in Hu.
    apply list_elem_of_filter in Hu as [_ Hu]. by apply sim_closure0.
  - unfold L.reset_timers, R.reset_timers in *. cbn in *. rewrite !filter_filter_ne.
    destruct (decide _); [by apply same_timers_filter_ne|]. by rewrite sim_resets0.
Qed.

Ltac sim_easy :=
  try done;
  try (by apply LegacyInv.inv_updated);
  try (cbn; autorewrite with env; first [done | congruence]).

Lemma sim_error bl br l r :
  sim bl br l r →
  sim bl br (LegacyRun.updated st_error l) (R.set_status st_error r).
Proof.
  intros []. split; sim_easy.
  - unfold L.save_timers in *. cbn.
    rewrite (filter_timers_clear L.is_save).
    pose proof (tinv_clear_Q_keeps_P _ _ _ _ _ _ sim_invL0) as E.
    destruct (L.statusTimeout l); [by rewrite filter_filter_ne in E; rewrite E|done].
  - cbn. unfold L.reset_timers. cbn. rewrite (filter_timers_clear L.is_reset).
    pose proof (tinv_clear_Q _ _ _ _ _ _ sim_invL0) as E.
    destruct (L.statusTimeout l); [by rewrite filter_filter_ne in E|done].
Qed.

Lemma sim_saved_ok bl br l r :
  sim bl br l r →
  sim bl br (LegacyRun.updated st_saved l)
    (R.set_statusTimeoutRef (Some (next_id (R.env r)))
       (R.on_env (λ e, schedule R.cb_setDefault SAVE_STATUS_DISPLAY_DURATION
                         (clear (R.statusTimeoutRef r) e))
          (R.set_status st_saved r))).
Proof.
  intros [].
  pose proof (tinv_clear_Q _ _ _ _ _ _ sim_invL0) as EL.
  pose proof (tinv_clear_Q _ _ _ _ _ _ sim_invR0) as ER.
  pose proof (tinv_clear_Q_keeps_P _ _ _ _ _ _ sim_invL0) as KL.
  pose proof (tinv_clear_Q_keeps_P _ _ _ _ _ _ sim_invR0) as KR.
  assert (filter L.is_reset (timers (clear (L.statusTimeout l) (L.env l))) = []) as EL'
    by by destruct (L.statusTimeout l).
  assert (filter R.is_reset (timers (clear (R.statusTimeoutRef r) (R.env r))) = []) as ER'
    by by destruct (R.statusTimeoutRef r).
  assert (filter L.is_save (timers (clear (L.statusTimeout l) (L.env l)))
          = L.save_timers l) as KL' by by destruct (L.statusTimeout l).
  assert (filter R.is_save (timers (clear (R.statusTimeoutRef r) (R.env r)))
          = R.save_timers r) as KR' by by destruct (R.statusTimeoutRef r).
  split; sim_easy.
  - revert sim_invR0. unfold ReactInv.inv. cbn. rewrite next_id_clear. intros Hi.
    apply (tinv_schedule_Q _ _ ReactInv.comp_kinds _ _ _ None); try done.
    apply (tinv_forget_Q _ _ _ _ _ (R.statusTimeoutRef r)); [|done].
    destruct (R.statusTimeoutRef r); cbn; [by apply tinv_filter|done].
  - unfold L.save_timers, R.save_timers. cbn.
    rewrite !list.filter_app, !filter_one, KL', KR'.
    rewrite !decide_False by (cbn; first [done|tauto]). by rewrite !app_nil_r.
  - unfold R.save_timers. cbn. rewrite list.filter_app, filter_one, KR'.
    rewrite decide_False by (cbn; tauto). rewrite app_nil_r. apply sim_closure0.
  - cbn. unfold L.reset_timers, R.reset_timers. cbn.
    rewrite !list.filter_app, !filter_one, EL', ER'.
    rewrite !decide_True by done. cbn. apply same_timers_one; cbn;
      autorewrite with env; congruence.
Qed.

Lemma sim_reset bl br l r :
  sim bl br l r → R.status r = st_saved → L.reset_timers l = [] →
  sim bl br
    (L.on_dom (λ d, L.set_classes (L.saving_class d) false (L.error_class d)
                      (L.set_text "Auto-save on" d)) l)
    (R.set_status st_default r).
Proof.
  intros [] Hst Hr. split; sim_easy.
  cbn. rewrite sim_shown0, Hst. reflexivity.
Qed.

Lemma sim_input bl br c l r :
  sim bl br l r →
  sim bl br (LegacyRun.input_state (L.on_dom (L.edited c) l))
    (ReactRun.input_state c r).
Proof.
  intros [].
  pose proof (LegacyInv.inv_updated st_saving l sim_invL0) as Hu.
  pose proof (tinv_clear_P _ _ _ _ _ _ Hu) as EL.
  pose proof (tinv_clear_Q _ _ _ _ _ _ sim_invL0) as QL.
  pose proof (tinv_clear_P _ _ _ _ _ _ sim_invR0) as ER.
  cbn in EL.
  assert (filter L.is_save
            (timers (clear (L.saveTimeout l) (clear (L.statusTimeout l) (L.env l)))) = [])
    as EL' by by destruct (L.saveTimeout l).
  assert (filter R.is_save (timers (clear (R.saveTimeoutRef r) (R.env r))) = []) as ER'
    by by destruct (R.saveTimeoutRef r).
  split; sim_easy.
  - apply LegacyInv.script_inv_input_state. by apply LegacyInv.inv_on_dom.
  - by apply ReactInv.comp_inv_input_state.
  - unfold L.save_timers, R.save_timers. cbn.
    rewrite !list.filter_app, !filter_one, EL', ER'.
    rewrite !decide_True by done. cbn. apply same_timers_one; cbn;
      autorewrite with env; congruence.
  - unfold R.save_timers. cbn. rewrite list.filter_app, filter_one, ER'.
    rewrite decide_True by done. cbn. intros u ->%list_elem_of_singleton. done.
  - cbn. unfold L.reset_timers. cbn. rewrite list.filter_app, filter_one.
    rewrite decide_False by done. rewrite app_nil_r.
    rewrite (filter_timers_clear L.is_reset).
    assert (filter L.is_reset (timers (clear (L.statusTimeout l) (L.env l))) = []) as ->
      by by destruct (L.statusTimeout l).
    by destruct (L.saveTimeout l).
Qed.

Lemma sim_set_content bl br c l r :
  sim bl br l r → R.save_timers r = [] → normalised c →
  sim bl br (L.on_dom (L.set_notepad_value c) l) (R.set_content c r).
Proof.
  intros [] Hs Hc. unfold L.set_notepad_value. rewrite Hc. split; sim_easy.
  - cbn. rewrite sim_shown0 at 1. by destruct (R.status r).
  - unfold R.save_timers in *. cbn. rewrite Hs. intros u Hu. by apply elem_of_nil in Hu.
Qed.

Lemma storage_calls_one x : storage_calls [x] = if is_storage x then [x] else [].
Proof. unfold storage_calls. rewrite filter_cons, filter_nil. by destruct (is_storage x). Qed.

Ltac env_goal :=
  env_simpl;
  rewrite ?storage_calls_app, ?storage_probe_log, ?storage_calls_one; cbn;
  rewrite <- ?app_assoc, ?app_nil_r; try done; try congruence.

(** Both run [saveNotes] on the current text. *)
Lemma sim_saved bl br l r :
  sim bl br l r →
  sim bl br (LegacyRun.saved_state l) (ReactRun.saved_state (R.content r) r).
Proof.
  intros H. pose proof H as [].
  unfold LegacyRun.saved_state, ReactRun.saved_state. cbn zeta.
  rewrite <- (available_ext _ _ sim_policy0), sim_content0, <- sim_policy0.
  pose proof (probe_log_ext _ _ sim_policy0) as Epl.
  pose proof (items_probed_ext _ _ sim_policy0 sim_items0) as Eit.
  destruct (available (L.env l)).
  - destruct (policy (L.env l) _) as [err|] eqn:Ew.
    + assert (sim bl br
                (LegacyRun.updated st_error
                   (L.on_env (λ _, emit (ConsoleError "Error saving to localStorage:" err)
                                    (emit (Refused (OpSet STORAGE_KEY (R.content r)) err)
                                       (probed (L.env l)))) l))
                (R.set_status st_error
                   (R.on_env (λ _, emit (ConsoleError "Error saving to localStorage:" err)
                                    (emit (Refused (OpSet STORAGE_KEY (R.content r)) err)
                                       (probed (R.env r)))) r))) as H1.
      { apply sim_error.
        apply (sim_env _ _ _ _ _ _
                 (probe_log (L.env l) ++ [Refused (OpSet STORAGE_KEY (R.content r)) err]));
          try done; env_goal; first [congruence | by rewrite Epl]. }
      destruct (is_quota err); [|exact H1].
      apply (sim_env _ _ _ _ (emit (Alert L.quota_message))
               (emit (Alert R.quota_message)) []); try done; env_goal.
    + pose proof (sim_env bl br l r
               (λ _, emit (Stored STORAGE_KEY (R.content r))
                       (set_items (insert STORAGE_KEY (R.content r)) (probed (L.env l))))
               (λ _, emit (Stored STORAGE_KEY (R.content r))
                       (set_items (insert STORAGE_KEY (R.content r)) (probed (R.env r))))
               (probe_log (L.env l) ++ [Stored STORAGE_KEY (R.content r)]) H) as H1.
      apply sim_saved_ok in H1;
        [ | env_goal; first [congruence | by rewrite Epl] .. ].
      revert H1.
      unfold R.set_statusTimeoutRef, R.on_env, R.set_status, schedule, setTimeout,
        bump_id, set_timers.
      env_simpl. done.
  - assert (sim bl br (LegacyRun.updated st_error (L.on_env (λ _, probed (L.env l)) l))
              (R.set_status st_error (R.on_env (λ _, probed (R.env r)) r))) as H1.
    { apply sim_error.
      apply (sim_env _ _ _ _ _ _ (probe_log (L.env l))); try done; env_goal. }
    destruct H1. split; done.
Qed.

(** The events on which the two implementations are compared:
    - an input event changes the text (otherwise it does not reach the
      component);
    - a reset timer runs only while the status is saved;
    - a storage notification is for another key, or carries the text the
      page holds, or else arrives while no save timer is pending and
      carries a text without CR;
    - an unload signal arrives only while no save timer is pending. *)
Definition agreeable (ev : Event) r : bool :=
  match ev with
  | Input text => bool_decide (text ≠ R.content r)
  | Fire id =>
      match ripe id (R.env r) with
      | Some u =>
          match cb u with
          | R.cb_setDefault => bool_decide (R.status r = st_saved)
          | R.cb_saveNotes _ => true
          end
      | None => true
      end
  | StorageEv key v =>
      bool_decide (key ≠ Some STORAGE_KEY ∨ v = Some (R.content r)
                   ∨ (R.save_timers r = [] ∧ normalised (R.or_empty v)))
  | BeforeUnload => bool_decide (R.save_timers r = [])
  | _ => true
  end.

Fixpoint agreeable_trace (tr : list Event) r : bool :=
  match tr with
  | [] => true
  | ev :: tr' => agreeable ev r && agreeable_trace tr' (R.deliver ev r)
  end.

(** An agreeable event reaches the component. *)
Lemma deliver_agreeable ev r : agreeable ev r = true → R.deliver ev r = R.step ev r.
Proof.
  destruct ev; try done. cbn [agreeable R.deliver].
  intros H%bool_decide_eq_true. by rewrite decide_False.
Qed.

Lemma ripe_save bl br id l r u :
  sim bl br l r → ripe id (R.env r) = Some u → R.is_save u →
  ∃ t, ripe id (L.env l) = Some t ∧ cb t = L.cb_saveNotes.
Proof.
  intros [] (Hin & Hid & Hdue)%ripe_Some Hs.
  assert (u ∈ R.save_timers r) as Hu by by apply list_elem_of_filter.
  destruct (same_timers_elem_r _ _ _ sim_saves0 Hu) as (t & Ht & Eid & Edue).
  apply list_elem_of_filter in Ht as [Hk Ht].
  exists t. split; [|done].
  eapply (ripe_unique _ _ LegacyInv.script_kinds); eauto; [congruence|].
  rewrite Edue, sim_now0. done.
Qed.

Lemma ripe_reset bl br id l r u :
  sim bl br l r → ripe id (R.env r) = Some u → cb u = R.cb_setDefault →
  R.status r = st_saved →
  ∃ t, ripe id (L.env l) = Some t ∧ cb t = L.cb_resetStatus
       ∧ L.reset_timers l = [t] ∧ tid t = id.
Proof.
  intros [] (Hin & Hid & Hdue)%ripe_Some Hs Hst.
  rewrite decide_True in sim_resets0 by done.
  assert (u ∈ R.reset_timers r) as Hu by by apply list_elem_of_filter.
  destruct (same_timers_elem_r _ _ _ sim_resets0 Hu) as (t & Ht & Eid & Edue).
  destruct (slot_elem _ _ _ (ti_Q _ _ _ _ _ _ sim_invL0) Ht) as [E1 _].
  apply list_elem_of_filter in Ht as [Hk Ht].
  exists t. split_and!; [|done|done|congruence].
  eapply (ripe_unique _ _ LegacyInv.script_kinds); eauto; [congruence|].
  rewrite Edue, sim_now0. done.
Qed.

Lemma ripe_none bl br id l r :
  sim bl br l r → ripe id (R.env r) = None → ripe id (L.env l) = None.
Proof.
  intros [] Hn. destruct (ripe id (L.env l)) as [t|] eqn:E; [exfalso|done].
  apply ripe_Some in E as (Hin & Hid & Hdue).
  destruct (decide (L.is_save t)) as [Hk|Hk].
  - assert (t ∈ L.save_timers l) as Ht by by apply list_elem_of_filter.
    destruct (same_timers_elem_l _ _ _ sim_saves0 Ht) as (u & Hu & Eid & Edue).
    apply list_elem_of_filter in Hu as [_ Hu].
    eapply (ripe_None id (R.env r) u); eauto; [congruence|].
    rewrite <- Edue, <- sim_now0. done.
  - apply LegacyInv.script_kinds in Hk.
    assert (t ∈ L.reset_timers l) as Ht by by apply list_elem_of_filter.
    destruct (decide (R.status r = st_saved)).
    + destruct (same_timers_elem_l _ _ _ sim_resets0 Ht) as (u & Hu & Eid & Edue).
      apply list_elem_of_filter in Hu as [_ Hu].
      eapply (ripe_None id (R.env r) u); eauto; [congruence|].
      rewrite <- Edue, <- sim_now0. done.
    + rewrite sim_resets0 in Ht. by apply elem_of_nil in Ht.
Qed.

Lemma sim_clear_left bl br id l r :
  sim bl br l r → R.save_timers r = [] → L.saveTimeout l = Some id →
  sim bl br (L.on_env (clear (Some id)) l) r.
Proof.
  intros [] Hs Hh.
  pose proof (tinv_clear_P_keeps_Q _ _ _ _ _ _ sim_invL0) as K. rewrite Hh in K.
  rewrite Hs in sim_saves0. apply same_timers_nil_r in sim_saves0.
  split; sim_easy.
  - by apply (LegacyInv.script_inv_clear (Some id)).
  - unfold L.save_timers in *. cbn. rewrite filter_filter_ne, sim_saves0, Hs.
    apply same_timers_nil.
  - unfold L.reset_timers in *. cbn. by rewrite K.
Qed.

Lemma sim_dark_set bl br b l r :
  sim bl br l r →
  sim bl br (L.on_dom (L.set_dark b) l) (R.set_body_dark b (R.set_isDark b r)).
Proof.
  intros []. split; sim_easy.
  cbn. rewrite sim_shown0 at 1. by destruct (R.status r).
Qed.

Lemma sim_modal bl br v b l r :
  sim bl br l r → sim bl br (L.on_dom (L.set_modal v) l) (R.set_showError b r).
Proof.
  intros []. split; sim_easy.
  cbn. rewrite sim_shown0 at 1. by destruct (R.status r).
Qed.

Lemma sim_step bl br ev l r :
  sim bl br l r → agreeable ev r = true → sim bl br (L.step ev l) (R.deliver ev r).
Proof.
  intros H Hag. rewrite (deliver_agreeable _ _ Hag). pose proof H as [].
  destruct ev as [text|dt|id|key v|h| | | |p|k v]; cbn [L.step R.step];
    rewrite ?sim_listening0, ?sim_loaded0; unfold exec.
  - rewrite LegacyRun.script_handleInput_run, ReactRun.comp_handleInput_run.
    by apply sim_input.
  - apply (sim_env _ _ _ _ _ _ []); try done; env_goal.
  - unfold L.fire, R.fire. cbn [agreeable] in Hag.
    destruct (ripe id (R.env r)) as [u|] eqn:E.
    + destruct (cb u) as [txt|] eqn:Ecb.
      * assert (R.is_save u) as Hk by (unfold R.is_save; by rewrite Ecb).
        destruct (ripe_save _ _ _ _ _ _ H E Hk) as (t & -> & ->).
        cbn [L.run_callback R.run_callback]. unfold exec.
        rewrite LegacyRun.script_saveNotes_run, ReactRun.comp_saveNotes_run. cbn [snd].
        assert (txt = R.content r) as ->.
        { apply ripe_Some in E as (Hin & _ & _).
          assert (u ∈ R.save_timers r) as Hu by by apply list_elem_of_filter.
          apply sim_closure0 in Hu. congruence. }
        apply (sim_saved _ _ _ (R.on_env (clear (Some id)) r)). by apply sim_clear.
      * apply bool_decide_eq_true in Hag.
        destruct (ripe_reset _ _ _ _ _ _ H E Ecb Hag) as (t & -> & -> & Hr & Hid).
        cbn [L.run_callback R.run_callback]. unfold exec.
        rewrite LegacyRun.resetStatus_run. cbn [snd].
        apply sim_reset; [by apply sim_clear|done|].
        unfold L.reset_timers in *. cbn. rewrite filter_filter_ne, Hr, filter_one.
        by rewrite decide_False by (intros ?; done).
    + by rewrite (ripe_none _ _ _ _ _ H E).
  - rewrite LegacyRun.handleStorageEvent_run, ReactRun.handleStorage_run. cbn [snd].
    rewrite sim_content0. apply bool_decide_eq_true in Hag.
    repeat case_decide; try tauto;
      (destruct Hag as [?|[?|[? ?]]]; [tauto..|]); by apply sim_set_content.
  - rewrite LegacyRun.script_handleVisibilityChange_run, ReactRun.comp_handleVisibilityChange_run.
    cbn [snd].
    assert (sim bl br (L.on_env (set_hidden h) l) (R.on_env (set_hidden h) r)) as H1
      by (apply (sim_env _ _ _ _ _ _ []); try done; env_goal).
    cbn. rewrite <- sim_handle0.
    destruct h, (L.saveTimeout l) as [id|]; try done.
    apply (sim_saved _ _ _ (R.on_env (clear (Some id)) (R.on_env (set_hidden true) r))).
    by apply sim_clear.
  - rewrite LegacyRun.script_handleBeforeUnload_run, ReactRun.comp_handleBeforeUnload_run. cbn [snd].
    rewrite <- sim_handle0. destruct (L.saveTimeout l) as [id|] eqn:Eh; [|done].
    apply sim_saved. apply sim_clear_left; [done| |done].
    by apply bool_decide_eq_true in Hag.
  - rewrite LegacyRun.handleThemeToggle_run, ReactRun.toggleTheme_run. cbn zeta.
    rewrite <- sim_dark0, <- sim_policy0.
    pose proof (sim_dark_set _ _ (negb (L.dark_mode (L.dom l))) _ _ H) as H1.
    destruct (policy (L.env l) _) as [err|] eqn:Ep; cbn [snd].
    + apply (sim_env _ _ _ _ _ _
               [Refused (OpSet THEME_KEY
                           (if negb (L.dark_mode (L.dom l)) then "dark" else "light"))
                  err]); try done; env_goal.
    + apply (sim_env _ _ _ _ _ _
               [Stored THEME_KEY
                  (if negb (L.dark_mode (L.dom l)) then "dark" else "light")]);
        try done; env_goal.
  - unfold L.hideError, R.setShowError, modify. cbn [snd]. by apply sim_modal.
  - apply (sim_env _ _ _ _ _ _ []); try done; env_goal.
  - apply (sim_env _ _ _ _ _ _ []); try done; env_goal.
    by rewrite sim_items0.
Qed.

Lemma sim_run bl br tr l r :
  sim bl br l r → agreeable_trace tr r = true → sim bl br (L.run tr l) (R.observe tr r).
Proof.
  revert l r. induction tr as [|ev tr IH]; intros l r H Hag; [done|].
  cbn [agreeable_trace] in Hag. apply andb_prop in Hag as [H1 H2].
  cbn [L.run R.observe foldl]. apply IH; [by apply sim_step|done].
Qed.

(** Both complete their initial load: this is where the comparison
    starts. The markup's textarea is empty, as the component's state is,
    and the stored notes have no CR. *)
Lemma sim_start d dk i p :
  L.notepad_value d = "" →
  from_option normalised True (i !! STORAGE_KEY) →
  L.listening (L.start d i p) = true → R.isLoaded (R.start dk i p) = true →
  sim (storage_calls (log (L.env (L.start d i p))))
      (storage_calls (log (R.env (R.start dk i p))))
      (L.start d i p) (R.start dk i p).
Proof.
  intros Hd Hn. pose proof (LegacyInv.script_inv_start d i p) as HiL.
  pose proof (ReactInv.comp_inv_start dk i p) as HiR. revert HiL HiR.
  unfold L.start, R.start, exec.
  rewrite LegacyInv.init_run, ReactInv.mountEffect_run.
  change (policy (L.env (L.page d i p))) with p.
  change (policy (R.env (R.page dk i p))) with p.
  destruct (p (OpGet THEME_KEY)) as [err|] eqn:E1; [done|]. cbn zeta.
  change (available (R.env (R.page dk i p))) with (available (L.env (L.page d i p))).
  unfold LegacyInv.init_state, ReactInv.mount_state. cbn zeta.
  change (available (R.env (R.page dk i p))) with (available (L.env (L.page d i p))).
  destruct (available (L.env (L.page d i p))) eqn:Ea; [|done].
  destruct (p (OpGet STORAGE_KEY)) as [err|] eqn:E2; [done|].
  cbn [snd]. intros HiL HiR _ _.
  unfold LegacyInv.loaded_state in *. cbn zeta in *. cbn [L.env L.on_env L.on_dom] in *.
  assert (available (probed (L.env (L.page d i p))) = true) as Ea'.
  { unfold available in *. by rewrite policy_probed. }
  rewrite Ea' in *. rewrite policy_probed in *.
  change (policy (L.env (L.page d i p))) with p in *. rewrite E2 in *.
  assert (items (probed (probed (L.env (L.page d i p)))) = delete testKey i) as Ei2.
  { rewrite !items_probed_available by done. cbn. apply delete_delete_eq. }
  assert (items (probed (R.env (R.page dk i p))) = delete testKey i) as Ei1.
  { by rewrite items_probed_available. }
  rewrite Ei2 in *. rewrite Ei1 in *.
  assert (delete testKey i !! STORAGE_KEY = i !! STORAGE_KEY) as Ek
    by by rewrite lookup_delete_ne.
  destruct (delete testKey i !! STORAGE_KEY) as [v|] eqn:Ev.
  all: rewrite <- Ek in Hn; cbn in Hn.
  all: unfold L.set_notepad_value in *; rewrite ?Hn in *.
  all: split; try done;
    unfold L.save_timers, L.reset_timers, R.save_timers, R.reset_timers;
    env_simpl; rewrite ?Ei1, ?Ei2; try done.
  all: try (exists []; by rewrite !app_nil_r).
  all: try apply same_timers_nil.
  all: try (intros u Hu; by apply elem_of_nil in Hu).
  all: transitivity (delete testKey i); [exact Ei2|symmetry; exact Ei1].
Qed.

End Agreement.

(** ** Flushing a pending save *)

Module LegacyFlush.
Import Legacy LegacyRun LegacyInv LegacyBurst.

(** With a save pending, [saveNotes] run after clearing the handle
    writes the text and leaves no save timer. *)
Lemma script_flush b txt w p s :
  pending b txt w p s → accepts p txt →
  ∃ id, saveTimeout s = Some id ∧
    let s' := saved_state (on_env (clear (Some id)) s) in
    writes_to STORAGE_KEY (log (env s')) = w ++ [txt]
    ∧ items (env s') !! STORAGE_KEY = Some txt
    ∧ save_timers s' = [].
Proof.
  intros (Hi & Hl & Hb & Hc & Hw & Hp & id & Hh & Hs) (A1 & A2 & A3).
  exists id. split; [done|]. cbn zeta.
  unfold saved_state. cbn [env on_env dom].
  assert (available (clear (Some id) (env s)) = true) as ->.
  { apply available_true. cbn. by rewrite Hp. }
  rewrite policy_clear, Hp, Hc, A3.
  split_and!.
  - env_simpl. rewrite !writes_to_app, Hw.
    rewrite writes_probe_log by done. unfold writes_to. cbn.
    rewrite decide_True by done. by rewrite app_nil_r.
  - env_simpl. apply lookup_insert_eq.
  - unfold save_timers. cbn. rewrite list.filter_app, filter_one.
    rewrite decide_False by done. rewrite app_nil_r.
    rewrite filter_timers_clear. env_simpl.
    assert (filter is_save (filter (λ t', tid t' ≠ id) (timers (env s))) = []) as HP.
    { rewrite filter_filter_ne. fold (save_timers s). rewrite Hs, filter_one.
      by rewrite decide_False by (cbn; intros ?; done). }
    destruct (statusTimeout s); [rewrite HP|]; done.
Qed.
End LegacyFlush.

Module ReactFlush.
Import React ReactRun ReactInv ReactBurst.

Lemma comp_flush b txt w p s :
  pending b txt w p s → accepts p txt →
  ∃ id, saveTimeoutRef s = Some id ∧
    let s' := saved_state (content s) (on_env (clear (Some id)) s) in
    writes_to STORAGE_KEY (log (env s')) = w ++ [txt]
    ∧ items (env s') !! STORAGE_KEY = Some txt
    ∧ save_timers s' = [].
Proof.
  intros (Hi & Hl & Hb & Hc & Hw & Hp & id & Hh & Hs) (A1 & A2 & A3).
  exists id. split; [done|]. cbn zeta.
  unfold saved_state. cbn [env on_env].
  assert (available (clear (Some id) (env s)) = true) as ->.
  { apply available_true. cbn. by rewrite Hp. }
  rewrite policy_clear, Hp, Hc, A3.
  split_and!.
  - env_simpl. rewrite !writes_to_app, Hw.
    rewrite writes_probe_log by done. unfold writes_to. cbn.
    rewrite decide_True by done. by rewrite app_nil_r.
  - env_simpl. apply lookup_insert_eq.
  - unfold save_timers. cbn. rewrite list.filter_app, filter_one.
    rewrite decide_False by (cbn; tauto). rewrite app_nil_r.
    rewrite filter_timers_clear. env_simpl.
    assert (filter is_save (filter (λ t', tid t' ≠ id) (timers (env s))) = []) as HP.
    { rewrite filter_filter_ne. fold (save_timers s). rewrite Hs, filter_one.
      by rewrite decide_False by (cbn; intros ?; done). }
    destruct (statusTimeoutRef s); [rewrite HP|]; done.
Qed.
End ReactFlush.

(** * The specification, claim by claim *)

(** ** Fixtures for the concrete runs *)

(** A storage that never refuses a call. *)
Definition no_fault : StorageOp → option JsError := λ _, None.

(** A storage too full for the notes: the sentinel fits, the notes do not. *)
Definition notes_over_quota : StorageOp → option JsError := λ op,
  match op with
  | OpSet k _ =>
      if decide (k = STORAGE_KEY) then Some {| name := "QuotaExceededError" |} else None
  | _ => None
  end.

(** A storage that refuses every write, the sentinel's included, and can
    still be read. *)
Definition read_only : StorageOp → option JsError := λ op,
  match op with
  | OpSet _ _ => Some {| name := "QuotaExceededError" |}
  | _ => None
  end.

(** Two lines, with the line break as CR LF and as LF. *)
Definition two_lines_crlf : string := "a" +:+ String CR (String LF "b").
Definition two_lines_lf : string := "a" +:+ String LF "b".

(** A store that holds notes from an earlier visit. *)
Definition kept_notes : gmap string string := {[ STORAGE_KEY := "kept" ]}.

(** The markup of the script's page: empty textarea, no status class. *)
Definition blank : Legacy.Dom :=
  {| Legacy.notepad_value := ""; Legacy.saveStatus_text := "Auto-save on";
     Legacy.saving_class := false; Legacy.saved_class := false;
     Legacy.error_class := false; Legacy.errorModal_display := "none";
     Legacy.dark_mode := false |}.

(** C1. Debounce coalescing, in both implementations. Let the page have
    any history [pre], and let a burst follow: an input [c] and then the
    trace [tr] of further inputs, each less than [AUTOSAVE_DELAY] after the
    one before. Every input sets the status to saving and leaves its own
    timer as the only save timer; during the burst nothing is written under
    the notes key; and when the delay has elapsed and the pending timer
    runs, over a storage that accepts the write, exactly one value is
    written under the notes key, the text of the last input, after which
    no save timer is left. *)
Theorem debounce_coalescing (d : Legacy.Dom) (dk : bool) (i : gmap string string)
    (p : StorageOp → option JsError) (pre tr : list Event) (c : string) (dt : N) :
  Legacy.listening (legacy_after d i p pre) = true →
  React.isLoaded (react_after dk i p pre) = true →
  rapid AUTOSAVE_DELAY tr = true →
  remaining AUTOSAVE_DELAY tr ≤ dt →
  accepts (policy (Legacy.env (legacy_after d i p pre))) (last_input c tr) →
  accepts (policy (React.env (react_after dk i p pre))) (last_input c tr) →
  (let s := legacy_after d i p pre in
   let s1 := Legacy.run (Input c :: tr) s in
   Legacy.status (Legacy.step (Input c) s) = st_saving
   ∧ Legacy.save_timers (Legacy.step (Input c) s) =
       [{| tid := next_id (Legacy.env s);
           due := now (Legacy.env s) + AUTOSAVE_DELAY;
           cb := Legacy.cb_saveNotes |}]
   ∧ writes_to STORAGE_KEY (log (Legacy.env s1)) = writes_to STORAGE_KEY (log (Legacy.env s))
   ∧ ∃ id, Legacy.save_timers s1 =
             [{| tid := id;
                 due := now (Legacy.env s1) + remaining AUTOSAVE_DELAY tr;
                 cb := Legacy.cb_saveNotes |}]
       ∧ let s2 := Legacy.run [Advance dt; Fire id] s1 in
         writes_to STORAGE_KEY (log (Legacy.env s2)) =
           writes_to STORAGE_KEY (log (Legacy.env s)) ++ [last_input c tr]
         ∧ items (Legacy.env s2) !! STORAGE_KEY = Some (last_input c tr)
         ∧ Legacy.save_timers s2 = [])
  ∧
  (let s := react_after dk i p pre in
   let s1 := React.run (Input c :: tr) s in
   React.status (React.step (Input c) s) = st_saving
   ∧ React.save_timers (React.step (Input c) s) =
       [{| tid := next_id (React.env s);
           due := now (React.env s) + AUTOSAVE_DELAY;
           cb := React.cb_saveNotes c |}]
   ∧ writes_to STORAGE_KEY (log (React.env s1)) = writes_to STORAGE_KEY (log (React.env s))
   ∧ ∃ id, React.save_timers s1 =
             [{| tid := id;
                 due := now (React.env s1) + remaining AUTOSAVE_DELAY tr;
                 cb := React.cb_saveNotes (last_input c tr) |}]
       ∧ let s2 := React.run [Advance dt; Fire id] s1 in
         writes_to STORAGE_KEY (log (React.env s2)) =
           writes_to STORAGE_KEY (log (React.env s)) ++ [last_input c tr]
         ∧ items (React.env s2) !! STORAGE_KEY = Some (last_input c tr)
         ∧ React.save_timers s2 = []).
Proof.
  intros Hl Hr Hrapid Hdt HaL HaR. split.
  - set (s := legacy_after d i p pre) in *. cbn zeta.
    pose proof (legacy_after_inv d i p pre) as Hi. fold s in Hi.
    destruct (LegacyBurst.script_pending_input c s Hi Hl) as [Hp Hst].
    split; [done|]. split.
    { destruct Hp as (_ & _ & _ & _ & _ & _ & id & Hh & Hs).
      rewrite Hs. cbn [Legacy.step] in Hh. rewrite Hl in Hh. unfold exec in Hh.
      rewrite LegacyRun.script_handleInput_run in Hh. cbn in Hh. injection Hh as <-.
      cbn [Legacy.step]. rewrite Hl. unfold exec. rewrite LegacyRun.script_handleInput_run.
      cbn. by autorewrite with env. }
    pose proof (LegacyBurst.script_pending_run _ _ _ _ tr _ Hrapid Hp) as Hp1.
    change (Legacy.run tr (Legacy.step (Input c) s))
      with (Legacy.run (Input c :: tr) s) in Hp1.
    split; [apply Hp1|].
    destruct (LegacyBurst.script_pending_flush _ _ _ _ dt _ Hp1 Hdt HaL) as (id & Hh & Hf).
    exists id. split.
    { destruct Hp1 as (_ & _ & _ & _ & _ & _ & id' & Hh' & Hs). congruence. }
    cbn zeta in Hf. destruct Hf as (? & ? & ? & _). done.
  - set (s := react_after dk i p pre) in *. cbn zeta.
    pose proof (react_after_inv dk i p pre) as Hi. fold s in Hi.
    destruct (ReactBurst.comp_pending_input c s Hi Hr) as [Hp Hst].
    split; [done|]. split.
    { destruct Hp as (_ & _ & _ & _ & _ & _ & id & Hh & Hs).
      rewrite Hs. cbn [React.step] in Hh. rewrite Hr in Hh. unfold exec in Hh.
      rewrite ReactRun.comp_handleInput_run in Hh. cbn in Hh. injection Hh as <-.
      cbn [React.step]. rewrite Hr. unfold exec. rewrite ReactRun.comp_handleInput_run.
      cbn. by autorewrite with env. }
    pose proof (ReactBurst.comp_pending_run _ _ _ _ tr _ Hrapid Hp) as Hp1.
    change (React.run tr (React.step (Input c) s))
      with (React.run (Input c :: tr) s) in Hp1.
    split; [apply Hp1|].
    destruct (ReactBurst.comp_pending_flush _ _ _ _ dt _ Hp1 Hdt HaR) as (id & Hh & Hf).
    exists id. split.
    { destruct Hp1 as (_ & _ & _ & _ & _ & _ & id' & Hh' & Hs). congruence. }
    cbn zeta in Hf. destruct Hf as (? & ? & ? & _). done.
Qed.

(** A burst of three inputs 100 ms and 200 ms apart, then 500 ms of quiet,
    on a freshly loaded page over an empty, working storage. *)
Lemma debounce_coalescing_witness :
  (let s := legacy_after blank ∅ no_fault [] in
   let s1 := Legacy.run [Input "h"; Advance 100; Input "he"; Advance 200; Input "hello"] s in
   ∃ id, Legacy.save_timers s1 =
           [{| tid := id; due := now (Legacy.env s1) + 500; cb := Legacy.cb_saveNotes |}]
     ∧ writes_to STORAGE_KEY
         (log (Legacy.env (Legacy.run [Advance 500; Fire id] s1))) = ["hello"])
  ∧
  (let s := react_after false ∅ no_fault [] in
   let s1 := React.run [Input "h"; Advance 100; Input "he"; Advance 200; Input "hello"] s in
   ∃ id, React.save_timers s1 =
           [{| tid := id; due := now (React.env s1) + 500;
               cb := React.cb_saveNotes "hello" |}]
     ∧ writes_to STORAGE_KEY
         (log (React.env (React.run [Advance 500; Fire id] s1))) = ["hello"]).
Proof.
  destruct (debounce_coalescing blank false ∅ no_fault []
              [Advance 100; Input "he"; Advance 200; Input "hello"] "h" 500)
    as [HL HR]; try reflexivity; try (by vm_compute).
  split.
  - destruct HL as (_ & _ & _ & id & Hs & Hw & _). exists id. split; [exact Hs|exact Hw].
  - destruct HR as (_ & _ & _ & id & Hs & Hw & _). exists id. split; [exact Hs|exact Hw].
Defined.

(** The script clears the reset timer on every input: whatever the state,
    an input leaves no reset timer live and the status at saving. *)
Lemma legacy_input_clears_reset (d : Legacy.Dom) (i : gmap string string)
    (p : StorageOp → option JsError) (pre : list Event) (c : string) :
  Legacy.listening (legacy_after d i p pre) = true →
  Legacy.reset_timers (Legacy.step (Input c) (legacy_after d i p pre)) = []
  ∧ Legacy.status (Legacy.step (Input c) (legacy_after d i p pre)) = st_saving.
Proof.
  intros Hl. pose proof (legacy_after_inv d i p pre) as Hi.
  set (l := legacy_after d i p pre) in *.
  cbn [Legacy.step]. rewrite Hl. unfold exec. rewrite LegacyRun.script_handleInput_run.
  cbn [snd]. split; [|done].
  unfold Legacy.reset_timers. cbn. rewrite list.filter_app, filter_one.
  rewrite decide_False by done. rewrite app_nil_r.
  rewrite (filter_timers_clear Legacy.is_reset).
  pose proof (tinv_clear_Q _ _ _ _ _ _ Hi) as E.
  assert (filter Legacy.is_reset (timers (clear (Legacy.statusTimeout l) (Legacy.env l)))
          = []) as -> by by destruct (Legacy.statusTimeout l).
  by destruct (Legacy.saveTimeout l).
Qed.

(** The component does not: an input leaves whatever reset timer is
    live. *)
Lemma react_input_keeps_reset (dk : bool) (i : gmap string string)
    (p : StorageOp → option JsError) (pre : list Event) (c : string) :
  React.isLoaded (react_after dk i p pre) = true →
  React.reset_timers (React.step (Input c) (react_after dk i p pre))
  = React.reset_timers (react_after dk i p pre).
Proof.
  intros Hl. pose proof (react_after_inv dk i p pre) as Hi.
  set (r := react_after dk i p pre) in *.
  cbn [React.step]. rewrite Hl. unfold exec. rewrite ReactRun.comp_handleInput_run.
  cbn [snd]. unfold React.reset_timers. cbn. rewrite list.filter_app, filter_one.
  rewrite decide_False by done. rewrite app_nil_r.
  pose proof (tinv_clear_P_keeps_Q _ _ _ _ _ _ Hi) as E.
  by destruct (React.saveTimeoutRef r).
Qed.

(** C2, where the component departs from it. Type "a", let the save run
    at 500 ms (status saved, reset timer due at 2500 ms), type "ab" at
    2300 ms. In the script the reset timer is gone and the status stays at
    saving. In the component [handleInput] leaves the reset timer live; it
    runs at 2500 ms and puts the status back to default while the save
    timer for "ab" is still pending. *)
Theorem react_reset_timer_survives_input :
  let tr := [Input "a"; Advance 500; Fire 1%positive; Advance 1800; Input "ab"] in
  let l := legacy_after blank ∅ no_fault tr in
  let r := react_after false ∅ no_fault tr in
  let l' := Legacy.run [Advance 200; Fire 2%positive] l in
  let r' := React.run [Advance 200; Fire 2%positive] r in
  (Legacy.status l = st_saving ∧ Legacy.reset_timers l = [] ∧ Legacy.status l' = st_saving)
  ∧ React.status r = st_saving
  ∧ React.reset_timers r = [{| tid := 2; due := 2500; cb := React.cb_setDefault |}]
  ∧ React.status r' = st_default
  ∧ React.save_timers r' = [{| tid := 3; due := 2800; cb := React.cb_saveNotes "ab" |}].
Proof. by vm_compute. Qed.

(** The component as the page's events reach it. *)
Definition react_sees (dk : bool) (i : gmap string string)
    (p : StorageOp → option JsError) (tr : list Event) : React.State :=
  React.observe tr (React.start dk i p).

(** C3 as stated fails, in seven ways.
    (1) Type "a"; within the debounce delay another tab stores "b" and the
    notification arrives; then the save timer runs. The script writes the
    textarea, which by then holds "b"; the component writes the text its
    timer was created with, "a", over the other tab's "b".
    (2) Over a storage that refuses writes when the page loads, the script
    stops before registering its listeners and ignores typing, the
    component handles it and ends in the error status.
    (3) A notification carries a text with CR LF. The script's textarea
    reads it back with LF, the component keeps it as it came; the next
    flush writes two different values.
    (4) An input event leaves the text as it is. The script's listener
    restarts the debounce, the component's [handleInput] is not called:
    450 ms later the component has saved and the script has not.
    (5) The page is unloaded while a save is pending. The script clears
    the timer, the component does not and writes a second time.
    (6) Typing resumes while the status is saved. The script clears the
    reset timer, the component does not: its status falls back to default
    while the save is pending.
    (7) The stored notes have a CR LF. After the load the script's
    textarea reads them with LF, the component holds them as stored. *)
Lemma implementations_differ :
  (let tr := [Input "a"; Remote STORAGE_KEY (Some "b");
              StorageEv (Some STORAGE_KEY) (Some "b"); Advance 500; Fire 1%positive] in
   let l := legacy_after blank ∅ no_fault tr in
   let r := react_sees false ∅ no_fault tr in
   writes_to STORAGE_KEY (log (Legacy.env l)) = ["b"]
   ∧ writes_to STORAGE_KEY (log (React.env r)) = ["a"]
   ∧ writes_to STORAGE_KEY (log (Legacy.env l)) ≠ writes_to STORAGE_KEY (log (React.env r)))
  ∧
  (let tr := [Input "a"; Advance 500; Fire 1%positive] in
   let l := legacy_after blank ∅ read_only tr in
   let r := react_sees false ∅ read_only tr in
   Legacy.status l = st_default ∧ React.status r = st_error
   ∧ Legacy.status l ≠ React.status r)
  ∧
  (let tr := [Input "x"; Advance 500; Fire 1%positive;
              Remote STORAGE_KEY (Some two_lines_crlf);
              StorageEv (Some STORAGE_KEY) (Some two_lines_crlf); Visibility true] in
   let l := legacy_after blank ∅ no_fault tr in
   let r := react_sees false ∅ no_fault tr in
   Legacy.content l = two_lines_lf ∧ React.content r = two_lines_crlf
   ∧ writes_to STORAGE_KEY (log (Legacy.env l)) = ["x"; two_lines_lf]
   ∧ writes_to STORAGE_KEY (log (React.env r)) = ["x"; two_lines_crlf]
   ∧ writes_to STORAGE_KEY (log (Legacy.env l)) ≠ writes_to STORAGE_KEY (log (React.env r)))
  ∧
  (let tr := [Input "a"; Advance 100; Input "a"; Advance 450; Fire 1%positive] in
   let l := legacy_after blank ∅ no_fault tr in
   let r := react_sees false ∅ no_fault tr in
   writes_to STORAGE_KEY (log (Legacy.env l)) = [] ∧ Legacy.status l = st_saving
   ∧ writes_to STORAGE_KEY (log (React.env r)) = ["a"] ∧ React.status r = st_saved)
  ∧
  (let tr := [Input "a"; BeforeUnload; Advance 500; Fire 1%positive] in
   let l := legacy_after blank ∅ no_fault tr in
   let r := react_sees false ∅ no_fault tr in
   writes_to STORAGE_KEY (log (Legacy.env l)) = ["a"]
   ∧ writes_to STORAGE_KEY (log (React.env r)) = ["a"; "a"])
  ∧
  (let tr := [Input "a"; Advance 500; Fire 1%positive; Advance 1800; Input "ab";
              Advance 200; Fire 2%positive] in
   let l := legacy_after blank ∅ no_fault tr in
   let r := react_sees false ∅ no_fault tr in
   Legacy.status l = st_saving ∧ React.status r = st_default)
  ∧
  (let i : gmap string string := {[ STORAGE_KEY := two_lines_crlf ]} in
   Legacy.content (legacy_after blank i no_fault []) = two_lines_lf
   ∧ React.content (react_sees false i no_fault []) = two_lines_crlf).
Proof. by vm_compute. Qed.

(** C3, amended. Let both implementations complete their initial load over
    the same storage, the markup's textarea being empty and the stored
    notes having no CR, and let them go through the same events, among
    which: every input event changes the text; a reset timer runs only
    while the status is saved; an unload signal arrives only while no save
    timer is pending; and a storage notification is for another key, or
    carries the text the page holds, or else arrives while no save timer
    is pending and carries a text without CR. Then both make the same
    storage calls with the same keys, values and outcomes, in the same
    order, and end with the same status, shown by the same text, the same
    text in the editor and the same stored content. *)
Theorem implementations_agree (d : Legacy.Dom) (dk : bool) (i : gmap string string)
    (p : StorageOp → option JsError) (tr : list Event) :
  Legacy.notepad_value d = "" →
  from_option normalised True (i !! STORAGE_KEY) →
  Legacy.listening (Legacy.start d i p) = true →
  React.isLoaded (React.start dk i p) = true →
  Agreement.agreeable_trace tr (React.start dk i p) = true →
  (∃ calls,
     Agreement.storage_calls (log (Legacy.env (legacy_after d i p tr))) =
       Agreement.storage_calls (log (Legacy.env (Legacy.start d i p))) ++ calls
     ∧ Agreement.storage_calls (log (React.env (react_sees dk i p tr))) =
         Agreement.storage_calls (log (React.env (React.start dk i p))) ++ calls)
  ∧ Legacy.status (legacy_after d i p tr) = React.status (react_sees dk i p tr)
  ∧ Legacy.saveStatus_text (Legacy.dom (legacy_after d i p tr)) =
      React.getStatusText (react_sees dk i p tr)
  ∧ Legacy.content (legacy_after d i p tr) = React.content (react_sees dk i p tr)
  ∧ items (Legacy.env (legacy_after d i p tr)) = items (React.env (react_sees dk i p tr)).
Proof.
  intros Hd Hn Hl Hr Hag.
  pose proof (Agreement.sim_run _ _ tr _ _ (Agreement.sim_start d dk i p Hd Hn Hl Hr) Hag)
    as H.
  fold (legacy_after d i p tr) in H. fold (react_sees dk i p tr) in H.
  split_and!.
  - apply (Agreement.sim_log _ _ _ _ H).
  - by apply Agreement.sim_status in H.
  - pose proof (Agreement.sim_shown _ _ _ _ H) as E. rewrite E.
    unfold React.getStatusText. by destruct (React.status _).
  - apply (Agreement.sim_content _ _ _ _ H).
  - apply (Agreement.sim_items _ _ _ _ H).
Qed.

(** A session on which the two agree, over a store that holds notes:
    typing; while the save is pending, a notification for the theme key
    and one carrying the text just typed; the save, the status reset; a
    notification from another tab while idle; a theme click; more typing
    flushed by hiding the page. *)
Lemma implementations_agree_witness :
  let tr := [Input "a"; StorageEv (Some THEME_KEY) (Some "dark");
             StorageEv (Some STORAGE_KEY) (Some "a");
             Advance 500; Fire 1%positive; Advance 2000; Fire 2%positive;
             Remote STORAGE_KEY (Some "b"); StorageEv (Some STORAGE_KEY) (Some "b");
             ThemeClick; Input "bc"; Advance 100; Visibility true] in
  writes_to STORAGE_KEY (log (Legacy.env (legacy_after blank kept_notes no_fault tr)))
  = ["a"; "bc"]
  ∧ Legacy.status (legacy_after blank kept_notes no_fault tr)
    = React.status (react_sees false kept_notes no_fault tr)
  ∧ Legacy.content (legacy_after blank kept_notes no_fault tr)
    = React.content (react_sees false kept_notes no_fault tr).
Proof.
  assert (from_option normalised True (kept_notes !! STORAGE_KEY)) as Hn
    by (by vm_compute).
  assert (Legacy.listening (Legacy.start blank kept_notes no_fault) = true) as Hl
    by (by vm_compute).
  assert (React.isLoaded (React.start false kept_notes no_fault) = true) as Hr
    by (by vm_compute).
  assert (Agreement.agreeable_trace
            [Input "a"; StorageEv (Some THEME_KEY) (Some "dark");
             StorageEv (Some STORAGE_KEY) (Some "a");
             Advance 500; Fire 1%positive; Advance 2000; Fire 2%positive;
             Remote STORAGE_KEY (Some "b"); StorageEv (Some STORAGE_KEY) (Some "b");
             ThemeClick; Input "bc"; Advance 100; Visibility true]
            (React.start false kept_notes no_fault) = true) as Hag
    by (by vm_compute).
  pose proof (implementations_agree blank false kept_notes no_fault _ eq_refl Hn Hl Hr Hag)
    as (_ & Hs & _ & Hc & _).
  cbn zeta. split; [by vm_compute|]. split; [exact Hs|exact Hc].
Defined.

(** C4 as stated fails for the script: the textarea does not hold the
    notified value when that value has a CR. A notification carrying
    "a", CR, LF, "b" leaves the script's textarea reading "a", LF, "b";
    the component's text is the notified value. *)
Lemma notification_not_verbatim :
  let l := exec (Legacy.handleStorageEvent (Some STORAGE_KEY) (Some two_lines_crlf))
             (Legacy.start blank ∅ no_fault) in
  let r := exec (React.handleStorage (Some STORAGE_KEY) (Some two_lines_crlf))
             (React.start false ∅ no_fault) in
  Legacy.content l = two_lines_lf
  ∧ Legacy.content l ≠ two_lines_crlf
  ∧ React.content r = two_lines_crlf.
Proof. by vm_compute. Qed.

(** C4, amended. Cross-tab reconciliation: a storage notification for the
    notes key whose new value differs from the local text replaces the
    local text, the empty string standing in for [null]: in the
    component by the notified value, in the script by the notified value
    as the textarea reads it back, with CR LF and CR turned into LF (the
    notified value itself when it has no CR). Any other notification
    leaves the text as it is. *)
Theorem notification_replaces_content (key newValue : option string)
    (l : Legacy.State) (r : React.State) :
  Legacy.content (exec (Legacy.handleStorageEvent key newValue) l) =
    (if decide (key = Some STORAGE_KEY ∧ newValue ≠ Some (Legacy.content l))
     then normalize_newlines (from_option id "" newValue) else Legacy.content l)
  ∧ (normalised (from_option id "" newValue) →
     Legacy.content (exec (Legacy.handleStorageEvent key newValue) l) =
       (if decide (key = Some STORAGE_KEY ∧ newValue ≠ Some (Legacy.content l))
        then from_option id "" newValue else Legacy.content l))
  ∧ React.content (exec (React.handleStorage key newValue) r) =
      (if decide (key = Some STORAGE_KEY ∧ newValue ≠ Some (React.content r))
       then from_option id "" newValue else React.content r).
Proof.
  unfold exec. rewrite LegacyRun.handleStorageEvent_run, ReactRun.handleStorage_run.
  unfold Legacy.content. cbn [snd].
  assert (Legacy.or_empty newValue = from_option id "" newValue) as EL.
  { destruct newValue as [x|]; cbn; [|done]. by case_decide. }
  assert (React.or_empty newValue = from_option id "" newValue) as ER.
  { destruct newValue as [x|]; cbn; [|done]. by case_decide. }
  split_and!.
  - case_decide; [|done]. cbn. by rewrite EL.
  - intros Hn. case_decide; [|done]. cbn. by rewrite EL.
  - case_decide; [|done]. cbn. by rewrite ER.
Qed.

(** A notification carrying "b" while the page holds "a". *)
Lemma notification_replaces_content_witness :
  let l := legacy_after blank ∅ no_fault [Input "a"] in
  Legacy.content (exec (Legacy.handleStorageEvent (Some STORAGE_KEY) (Some "b")) l) = "b".
Proof.
  cbn zeta.
  destruct (notification_replaces_content (Some STORAGE_KEY) (Some "b")
              (legacy_after blank ∅ no_fault [Input "a"])
              (react_after false ∅ no_fault [Input "a"])) as (_ & H & _).
  assert (normalised (from_option id "" (Some "b"))) as Hn by (by vm_compute).
  rewrite (H Hn). by vm_compute.
Defined.

(** C5, where the code departs from it. (1) Neither implementation ever
    resets its save-timer handle, so once any save timer has run the handle
    is stale but truthy: hiding the page then writes again although no save
    timer is pending. (2) The component's unload handler writes without
    clearing the pending timer, which stays live and writes a second time
    when it runs; the script's unload handler clears it. *)
Theorem flush_departs_from_pending_check :
  let typed := [Input "draft"] in
  let saved := [Input "draft"; Advance 500; Fire 1%positive] in
  let l := legacy_after blank ∅ no_fault saved in
  let r := react_after false ∅ no_fault saved in
  (Legacy.save_timers l = [] ∧ React.save_timers r = []
   ∧ writes_to STORAGE_KEY (log (Legacy.env l)) = ["draft"]
   ∧ writes_to STORAGE_KEY (log (React.env r)) = ["draft"]
   ∧ writes_to STORAGE_KEY (log (Legacy.env (Legacy.step (Visibility true) l)))
     = ["draft"; "draft"]
   ∧ writes_to STORAGE_KEY (log (React.env (React.step (Visibility true) r)))
     = ["draft"; "draft"]
   ∧ writes_to STORAGE_KEY (log (Legacy.env (Legacy.step BeforeUnload l)))
     = ["draft"; "draft"]
   ∧ writes_to STORAGE_KEY (log (React.env (React.step BeforeUnload r)))
     = ["draft"; "draft"])
  ∧
  (Legacy.save_timers (legacy_after blank ∅ no_fault (typed ++ [BeforeUnload])) = []
   ∧ React.save_timers (react_after false ∅ no_fault (typed ++ [BeforeUnload]))
     = [{| tid := 1; due := 500; cb := React.cb_saveNotes "draft" |}]
   ∧ writes_to STORAGE_KEY
       (log (React.env (react_after false ∅ no_fault (typed ++ [BeforeUnload]))))
     = ["draft"]
   ∧ writes_to STORAGE_KEY
       (log (React.env (react_after false ∅ no_fault
                          (typed ++ [BeforeUnload; Advance 500; Fire 1%positive]))))
     = ["draft"; "draft"]).
Proof. by vm_compute. Qed.

(** Where the handlers clear the pending timer the flush is as specified:
    after any history and a burst of inputs, hiding the page (in both
    implementations), or unloading it (in the script), writes the last
    text at once over a storage that accepts it, and leaves no save
    timer. *)
Lemma flush_on_exit (d : Legacy.Dom) (dk : bool) (i : gmap string string)
    (p : StorageOp → option JsError) (pre tr : list Event) (c : string) :
  Legacy.listening (legacy_after d i p pre) = true →
  React.isLoaded (react_after dk i p pre) = true →
  rapid AUTOSAVE_DELAY tr = true →
  accepts (policy (Legacy.env (legacy_after d i p pre))) (last_input c tr) →
  accepts (policy (React.env (react_after dk i p pre))) (last_input c tr) →
  let l := legacy_after d i p pre in
  let r := react_after dk i p pre in
  let l1 := Legacy.run (Input c :: tr) l in
  let r1 := React.run (Input c :: tr) r in
  (∀ ev, ev = Visibility true ∨ ev = BeforeUnload →
     writes_to STORAGE_KEY (log (Legacy.env (Legacy.step ev l1))) =
       writes_to STORAGE_KEY (log (Legacy.env l)) ++ [last_input c tr]
     ∧ items (Legacy.env (Legacy.step ev l1)) !! STORAGE_KEY = Some (last_input c tr)
     ∧ Legacy.save_timers (Legacy.step ev l1) = [])
  ∧ writes_to STORAGE_KEY (log (React.env (React.step (Visibility true) r1))) =
      writes_to STORAGE_KEY (log (React.env r)) ++ [last_input c tr]
  ∧ items (React.env (React.step (Visibility true) r1)) !! STORAGE_KEY
    = Some (last_input c tr)
  ∧ React.save_timers (React.step (Visibility true) r1) = [].
Proof.
  intros Hl Hr Hrapid HaL HaR. cbn zeta. split.
  - set (l := legacy_after d i p pre) in *.
    pose proof (legacy_after_inv d i p pre) as Hi. fold l in Hi.
    destruct (LegacyBurst.script_pending_input c l Hi Hl) as [Hp _].
    pose proof (LegacyBurst.script_pending_run _ _ _ _ tr _ Hrapid Hp) as Hp1.
    change (Legacy.run tr (Legacy.step (Input c) l))
      with (Legacy.run (Input c :: tr) l) in Hp1.
    set (l1 := Legacy.run (Input c :: tr) l) in *.
    intros ev [-> | ->].
    + assert (LegacyBurst.pending (remaining AUTOSAVE_DELAY tr) (last_input c tr)
                (writes_to STORAGE_KEY (log (Legacy.env l))) (policy (Legacy.env l))
                (Legacy.on_env (set_hidden true) l1)) as Hp2.
      { destruct Hp1 as (? & ? & ? & ? & ? & ? & id & ? & ?).
        split_and!; try done. exists id. done. }
      destruct (LegacyFlush.script_flush _ _ _ _ _ Hp2 HaL) as (id & Hh & Hf).
      cbn [Legacy.step]. destruct Hp1 as (_ & -> & _). unfold exec.
      rewrite LegacyRun.script_handleVisibilityChange_run. cbn [snd].
      cbn [Legacy.env Legacy.on_env hidden set_hidden Legacy.saveTimeout] in *.
      rewrite Hh. exact Hf.
    + destruct (LegacyFlush.script_flush _ _ _ _ _ Hp1 HaL) as (id & Hh & Hf).
      cbn [Legacy.step]. destruct Hp1 as (_ & -> & _). unfold exec.
      rewrite LegacyRun.script_handleBeforeUnload_run. cbn [snd]. rewrite Hh. exact Hf.
  - set (r := react_after dk i p pre) in *.
    pose proof (react_after_inv dk i p pre) as Hi. fold r in Hi.
    destruct (ReactBurst.comp_pending_input c r Hi Hr) as [Hp _].
    pose proof (ReactBurst.comp_pending_run _ _ _ _ tr _ Hrapid Hp) as Hp1.
    change (React.run tr (React.step (Input c) r))
      with (React.run (Input c :: tr) r) in Hp1.
    set (r1 := React.run (Input c :: tr) r) in *.
    assert (ReactBurst.pending (remaining AUTOSAVE_DELAY tr) (last_input c tr)
              (writes_to STORAGE_KEY (log (React.env r))) (policy (React.env r))
              (React.on_env (set_hidden true) r1)) as Hp2.
    { destruct Hp1 as (? & ? & ? & ? & ? & ? & id & ? & ?).
      split_and!; try done. exists id. done. }
    destruct (ReactFlush.comp_flush _ _ _ _ _ Hp2 HaR) as (id & Hh & Hf).
    cbn [React.step]. destruct Hp1 as (_ & -> & _). unfold exec.
    rewrite ReactRun.comp_handleVisibilityChange_run. cbn [snd].
    cbn [React.env React.on_env hidden set_hidden React.saveTimeoutRef React.content] in *.
    rewrite Hh. exact Hf.
Qed.

(** The alerts shown since the log was [before]. *)
Definition alerts_since (before after : list Effect) : list Effect :=
  filter is_alert (drop (length before) after).

(** C6. A write of the notes that throws, after the probe has passed:
    [saveNotes] still returns normally, the status is error, and an alert
    is shown exactly when the error is named QuotaExceededError (then it is
    the quota message, and nothing else is alerted). *)
Theorem write_failure_handled (l : Legacy.State) (r : React.State) (text : string)
    (e : JsError) :
  available (Legacy.env l) = true →
  policy (Legacy.env l) (OpSet STORAGE_KEY (Legacy.content l)) = Some e →
  available (React.env r) = true →
  policy (React.env r) (OpSet STORAGE_KEY text) = Some e →
  (fst (Legacy.saveNotes l) = Normal ()
   ∧ Legacy.status (exec Legacy.saveNotes l) = st_error
   ∧ alerts_since (log (Legacy.env l)) (log (Legacy.env (exec Legacy.saveNotes l))) =
       (if is_quota e then [Alert Legacy.quota_message] else []))
  ∧
  (fst (React.saveNotes text r) = Normal ()
   ∧ React.status (exec (React.saveNotes text) r) = st_error
   ∧ alerts_since (log (React.env r)) (log (React.env (exec (React.saveNotes text) r))) =
       (if is_quota e then [Alert React.quota_message] else [])).
Proof.
  intros AL WL AR WR. unfold exec, alerts_since, Legacy.content in *.
  rewrite LegacyRun.script_saveNotes_run, ReactRun.comp_saveNotes_run. cbn [fst snd].
  unfold LegacyRun.saved_state, ReactRun.saved_state. cbn zeta.
  rewrite AL, WL, AR, WR.
  split; (split; [done|]); destruct (is_quota e); (split; [done|]); env_simpl;
    rewrite <- ?app_assoc, drop_app_length, !list.filter_app, alerts_probe_log; done.
Qed.

(** A page whose storage is too full for the notes: the quota alert. *)
Lemma write_failure_handled_witness :
  let l := Legacy.run [Input "too long"] (Legacy.start blank ∅ notes_over_quota) in
  let r := React.run [Input "too long"] (React.start false ∅ notes_over_quota) in
  (fst (Legacy.saveNotes l) = Normal ()
   ∧ Legacy.status (exec Legacy.saveNotes l) = st_error
   ∧ alerts_since (log (Legacy.env l)) (log (Legacy.env (exec Legacy.saveNotes l))) =
       [Alert Legacy.quota_message])
  ∧
  (fst (React.saveNotes "too long" r) = Normal ()
   ∧ React.status (exec (React.saveNotes "too long") r) = st_error
   ∧ alerts_since (log (React.env r))
       (log (React.env (exec (React.saveNotes "too long") r))) =
       [Alert React.quota_message]).
Proof.
  exact (write_failure_handled
           (Legacy.run [Input "too long"] (Legacy.start blank ∅ notes_over_quota))
           (React.run [Input "too long"] (React.start false ∅ notes_over_quota))
           "too long" {| name := "QuotaExceededError" |}
           eq_refl eq_refl eq_refl eq_refl).
Defined.

(** C7. The availability probe never throws; it answers [true] exactly
    when neither the write nor the removal of the sentinel is refused; when
    it answers [true] the sentinel key is absent from the store; and no key
    other than the sentinel is changed. Both files contain this same
    function. *)
Theorem probe_collapses_failures {C : Type} (e : Env C) :
  let r := isLocalStorageAvailable e in
  fst r = Normal (bool_decide (policy e (OpSet testKey "test") = None
                               ∧ policy e (OpRemove testKey) = None))
  ∧ (fst r = Normal true → items (snd r) !! testKey = None)
  ∧ (∀ k, k ≠ testKey → items (snd r) !! k = items e !! k).
Proof.
  cbn zeta. rewrite probe_run.
  case_bool_decide as Hp.
  - destruct Hp as [-> ->]. cbn. split_and!; [done| |].
    + intros _. apply lookup_delete_eq.
    + intros k Hk. rewrite lookup_delete_ne by done. by rewrite lookup_insert_ne.
  - destruct (policy e (OpSet testKey "test")) eqn:E1; cbn; [done|].
    destruct (policy e (OpRemove testKey)) eqn:E2; cbn; [|by destruct Hp].
    split_and!; [done..|]. intros k Hk. by rewrite lookup_insert_ne.
Qed.

(** C8. At most one save timer and at most one status-reset timer are live
    in every state either implementation can reach, whatever the stored
    content, the faults of the storage and the sequence of events. *)
Theorem one_timer_of_each_kind (d : Legacy.Dom) (dk : bool) (i : gmap string string)
    (p : StorageOp → option JsError) (tr : list Event) :
  (length (Legacy.save_timers (legacy_after d i p tr)) ≤ 1)%nat
  ∧ (length (Legacy.reset_timers (legacy_after d i p tr)) ≤ 1)%nat
  ∧ (length (React.save_timers (react_after dk i p tr)) ≤ 1)%nat
  ∧ (length (React.reset_timers (react_after dk i p tr)) ≤ 1)%nat.
Proof.
  pose proof (tinv_at_most_one _ _ _ _ _ _ (legacy_after_inv d i p tr)) as [? ?].
  pose proof (tinv_at_most_one _ _ _ _ _ _ (react_after_inv dk i p tr)) as [? ?].
  done.
Qed.

(** C9. Theme initialisation: when reading the theme key yields [v] (a
    string, or [None] for an absent key), dark mode is on afterwards
    exactly when [v] is the string "dark"; a read that throws leaves the
    theme as it was. In the component both the [isDark] state and the class
    of the body follow this rule. *)
Theorem theme_initialisation (l : Legacy.State) (r : React.State) :
  Legacy.dark_mode (Legacy.dom (exec Legacy.initTheme l)) =
    match fst (getItem THEME_KEY (Legacy.env l)) with
    | Normal v => bool_decide (v = Some "dark")
    | Throw _ => Legacy.dark_mode (Legacy.dom l)
    end
  ∧ React.isDark (exec React.mountEffect r) =
      match fst (getItem THEME_KEY (React.env r)) with
      | Normal v => bool_decide (v = Some "dark")
      | Throw _ => React.isDark r
      end
  ∧ React.body_dark (exec React.mountEffect r) =
      match fst (getItem THEME_KEY (React.env r)) with
      | Normal v => bool_decide (v = Some "dark")
      | Throw _ => React.body_dark r
      end.
Proof.
  unfold exec. rewrite LegacyRun.initTheme_run, ReactInv.mountEffect_run.
  unfold getItem. split_and!.
  - by destruct (policy (Legacy.env l) _).
  - destruct (policy (React.env r) (OpGet THEME_KEY)); [done|]. cbn zeta.
    destruct (if available _ then _ else _); [done|].
    unfold ReactInv.mount_state. cbn.
    destruct (available _); [|done]. by destruct (items _ !! STORAGE_KEY).
  - destruct (policy (React.env r) (OpGet THEME_KEY)); [done|]. cbn zeta.
    destruct (if available _ then _ else _); [done|].
    unfold ReactInv.mount_state. cbn.
    destruct (available _); [|done]. by destruct (items _ !! STORAGE_KEY).
Qed.

(** C10. A storage notification changes nothing but the local text: the
    environment (store, log of storage calls and alerts, timer table) is
    untouched, the timer handles and the status are unchanged, and when the
    key is not the notes key or the value equals the local text the whole
    state is unchanged. *)
Theorem notification_frame (key newValue : option string)
    (l : Legacy.State) (r : React.State) :
  (let l' := exec (Legacy.handleStorageEvent key newValue) l in
   l' = (if decide (key = Some STORAGE_KEY ∧ newValue ≠ Some (Legacy.content l))
         then Legacy.on_dom (Legacy.set_notepad_value (Legacy.content l')) l else l)
   ∧ Legacy.env l' = Legacy.env l
   ∧ Legacy.saveTimeout l' = Legacy.saveTimeout l
   ∧ Legacy.statusTimeout l' = Legacy.statusTimeout l
   ∧ Legacy.status l' = Legacy.status l
   ∧ Legacy.saveStatus_text (Legacy.dom l') = Legacy.saveStatus_text (Legacy.dom l))
  ∧
  (let r' := exec (React.handleStorage key newValue) r in
   r' = (if decide (key = Some STORAGE_KEY ∧ newValue ≠ Some (React.content r))
         then React.set_content (React.content r') r else r)
   ∧ React.env r' = React.env r
   ∧ React.saveTimeoutRef r' = React.saveTimeoutRef r
   ∧ React.statusTimeoutRef r' = React.statusTimeoutRef r
   ∧ React.status r' = React.status r).
Proof.
  cbn zeta. unfold exec.
  rewrite LegacyRun.handleStorageEvent_run, ReactRun.handleStorage_run.
  unfold Legacy.content. cbn [snd].
  split; case_decide; try done.
  split_and!; try done.
  unfold Legacy.on_dom, Legacy.set_notepad_value, Legacy.edited. cbn.
  by rewrite normalize_newlines_idem.
Qed.

(** * Further properties of the code *)

(** ** Loading *)

(** What the store holds under the notes key is not touched by the probe. *)
Lemma notes_survive_probe {C : Type} (e : Env C) :
  items (probed e) !! STORAGE_KEY = items e !! STORAGE_KEY.
Proof.
  rewrite items_probed.
  destruct (policy e (OpSet _ _)); [done|].
  destruct (policy e (OpRemove _)).
  - by rewrite lookup_insert_ne.
  - by rewrite lookup_delete_ne.
Qed.

(** X1. How a page load ends. The script registers its listeners exactly
    when reading the theme does not throw and the probe passes; a read of
    the notes that throws is caught and shown as the error status. The
    component finishes loading exactly when reading the theme does not
    throw and either the probe fails (the notice is shown, the notes are
    not read) or reading the notes does not throw: its effect has no
    [catch] around [getItem]. *)
Theorem load_outcome (d : Legacy.Dom) (dk : bool) (i : gmap string string)
    (p : StorageOp → option JsError) :
  let ok := available (Legacy.env (Legacy.page d i p)) in
  Legacy.listening (Legacy.start d i p) =
    match p (OpGet THEME_KEY) with Some _ => false | None => ok end
  ∧ (Legacy.listening (Legacy.start d i p) = true →
     Legacy.status (Legacy.start d i p) =
       match p (OpGet STORAGE_KEY) with Some _ => st_error | None => st_default end)
  ∧ (p (OpGet THEME_KEY) = None → ok = false →
     Legacy.errorModal_display (Legacy.dom (Legacy.start d i p)) = "flex")
  ∧ React.isLoaded (React.start dk i p) =
      match p (OpGet THEME_KEY) with
      | Some _ => false
      | None =>
          if ok then match p (OpGet STORAGE_KEY) with Some _ => false | None => true end
          else true
      end
  ∧ React.showError (React.start dk i p) =
      match p (OpGet THEME_KEY) with Some _ => false | None => negb ok end
  ∧ React.status (React.start dk i p) = st_default.
Proof.
  cbn zeta. unfold Legacy.start, React.start, exec.
  rewrite LegacyInv.init_run, ReactInv.mountEffect_run.
  change (policy (Legacy.env (Legacy.page d i p))) with p.
  change (policy (React.env (React.page dk i p))) with p.
  change (available (React.env (React.page dk i p)))
    with (available (Legacy.env (Legacy.page d i p))).
  destruct (p (OpGet THEME_KEY)) as [err|] eqn:E1; [by split_and!|].
  cbn zeta. unfold LegacyInv.init_state, ReactInv.mount_state. cbn zeta.
  change (available (React.env (React.page dk i p)))
    with (available (Legacy.env (Legacy.page d i p))).
  destruct (available (Legacy.env (Legacy.page d i p))) eqn:Ea; [|by split_and!].
  unfold LegacyInv.loaded_state. cbn zeta. cbn [Legacy.env Legacy.on_env Legacy.on_dom].
  assert (available (probed (Legacy.env (Legacy.page d i p))) = true) as ->.
  { unfold available in *. by rewrite policy_probed. }
  rewrite policy_probed.
  change (policy (Legacy.env (Legacy.page d i p))) with p.
  destruct (p (OpGet STORAGE_KEY)) as [err|] eqn:E2; [by split_and!|].
  split_and!; try done; by destruct (items _ !! STORAGE_KEY).
Qed.

(** The text the page shows once loaded over store [i]. *)
Lemma legacy_loaded_content (d : Legacy.Dom) (i : gmap string string)
    (p : StorageOp → option JsError) :
  p (OpGet THEME_KEY) = None → p (OpGet STORAGE_KEY) = None →
  available (Legacy.env (Legacy.page d i p)) = true →
  Legacy.content (Legacy.start d i p)
  = from_option normalize_newlines (Legacy.notepad_value d) (i !! STORAGE_KEY).
Proof.
  intros E1 E2 Ea. unfold Legacy.start, exec, Legacy.content.
  rewrite LegacyInv.init_run.
  change (policy (Legacy.env (Legacy.page d i p))) with p. rewrite E1. cbn [snd].
  unfold LegacyInv.init_state. cbn zeta. rewrite Ea.
  unfold LegacyInv.loaded_state. cbn zeta. cbn [Legacy.env Legacy.on_env Legacy.on_dom].
  assert (available (probed (Legacy.env (Legacy.page d i p))) = true) as ->.
  { unfold available in *. by rewrite policy_probed. }
  rewrite policy_probed.
  change (policy (Legacy.env (Legacy.page d i p))) with p. rewrite E2.
  rewrite !notes_survive_probe.
  change (items (Legacy.env (Legacy.page d i p))) with i.
  by destruct (i !! STORAGE_KEY).
Qed.

Lemma react_loaded_content (dk : bool) (i : gmap string string)
    (p : StorageOp → option JsError) :
  p (OpGet THEME_KEY) = None → p (OpGet STORAGE_KEY) = None →
  available (React.env (React.page dk i p)) = true →
  React.content (React.start dk i p) = from_option id "" (i !! STORAGE_KEY).
Proof.
  intros E1 E2 Ea. unfold React.start, exec.
  rewrite ReactInv.mountEffect_run.
  change (policy (React.env (React.page dk i p))) with p. rewrite E1. cbn zeta.
  rewrite Ea, E2. cbn [snd]. unfold ReactInv.mount_state. cbn zeta. rewrite Ea.
  rewrite notes_survive_probe.
  change (items (React.env (React.page dk i p))) with i.
  by destruct (i !! STORAGE_KEY).
Qed.

(** What a successful save leaves in the store. *)
Lemma legacy_save_stores (l : Legacy.State) :
  available (Legacy.env l) = true →
  policy (Legacy.env l) (OpSet STORAGE_KEY (Legacy.content l)) = None →
  items (Legacy.env (exec Legacy.saveNotes l)) =
    <[STORAGE_KEY := Legacy.content l]> (delete testKey (items (Legacy.env l)))
  ∧ Legacy.status (exec Legacy.saveNotes l) = st_saved
  ∧ Legacy.content (exec Legacy.saveNotes l) = Legacy.content l
  ∧ policy (Legacy.env (exec Legacy.saveNotes l)) = policy (Legacy.env l).
Proof.
  intros Ea Ew. unfold exec, Legacy.content in *. rewrite LegacyRun.script_saveNotes_run.
  cbn [snd]. unfold LegacyRun.saved_state. cbn zeta. rewrite Ea, Ew.
  split_and!; try done.
  - env_simpl. by rewrite items_probed_available.
  - by env_simpl.
Qed.

Lemma react_save_stores (r : React.State) (text : string) :
  available (React.env r) = true →
  policy (React.env r) (OpSet STORAGE_KEY text) = None →
  items (React.env (exec (React.saveNotes text) r)) =
    <[STORAGE_KEY := text]> (delete testKey (items (React.env r)))
  ∧ React.status (exec (React.saveNotes text) r) = st_saved
  ∧ React.content (exec (React.saveNotes text) r) = React.content r
  ∧ policy (React.env (exec (React.saveNotes text) r)) = policy (React.env r).
Proof.
  intros Ea Ew. unfold exec. rewrite ReactRun.comp_saveNotes_run.
  cbn [snd]. unfold ReactRun.saved_state. cbn zeta. rewrite Ea, Ew.
  split_and!; try done.
  - env_simpl. by rewrite items_probed_available.
  - by env_simpl.
Qed.

(** X2. Round trip. What either implementation saves comes back after
    a reload over the store left behind, whatever the markup: the
    component shows the text as it was saved, the script shows it as its
    textarea reads it back, with CR LF and CR turned into LF, so as it was
    saved when it has no CR. The empty text is included (a stored empty
    string is not [null]). The storage accepts the save and can be read at
    the reload. *)
Theorem notes_round_trip (l : Legacy.State) (r : React.State) (text : string)
    (d : Legacy.Dom) (dk : bool) (p' : StorageOp → option JsError) :
  available (Legacy.env l) = true →
  policy (Legacy.env l) (OpSet STORAGE_KEY (Legacy.content l)) = None →
  available (React.env r) = true →
  policy (React.env r) (OpSet STORAGE_KEY text) = None →
  p' (OpGet THEME_KEY) = None → p' (OpGet STORAGE_KEY) = None →
  p' (OpSet testKey "test") = None → p' (OpRemove testKey) = None →
  let after_script := items (Legacy.env (exec Legacy.saveNotes l)) in
  let after_comp := items (React.env (exec (React.saveNotes text) r)) in
  (Legacy.content (Legacy.start d after_script p') = normalize_newlines (Legacy.content l)
   ∧ React.content (React.start dk after_script p') = Legacy.content l
   ∧ Legacy.content (Legacy.start d after_comp p') = normalize_newlines text
   ∧ React.content (React.start dk after_comp p') = text)
  ∧ (normalised (Legacy.content l) →
     Legacy.content (Legacy.start d after_script p') = Legacy.content l)
  ∧ (normalised text → Legacy.content (Legacy.start d after_comp p') = text).
Proof.
  intros AL WL AR WR G1 G2 S1 S2. cbn zeta.
  destruct (legacy_save_stores l AL WL) as (-> & _).
  destruct (react_save_stores r text AR WR) as (-> & _).
  assert (∀ i, available (Legacy.env (Legacy.page d i p')) = true) as HaL.
  { intros i. by apply available_true. }
  assert (∀ i, available (React.env (React.page dk i p')) = true) as HaR.
  { intros i. by apply available_true. }
  rewrite !legacy_loaded_content, !react_loaded_content by done.
  rewrite !lookup_insert_eq. cbn.
  split_and!; try done; by intros ->.
Qed.

Lemma notes_round_trip_witness :
  let l := Legacy.run [Input ""] (Legacy.start blank ∅ no_fault) in
  let r := React.run [Input two_lines_crlf] (React.start false ∅ no_fault) in
  React.content (React.start true (items (Legacy.env (exec Legacy.saveNotes l))) no_fault)
  = ""
  ∧ Legacy.content
      (Legacy.start blank (items (React.env (exec (React.saveNotes two_lines_crlf) r)))
         no_fault)
    = two_lines_lf.
Proof.
  destruct (notes_round_trip
              (Legacy.run [Input ""] (Legacy.start blank ∅ no_fault))
              (React.run [Input two_lines_crlf] (React.start false ∅ no_fault))
              two_lines_crlf blank true no_fault) as [(_ & H1 & H2 & _) _];
    try reflexivity.
  split; [exact H1|exact H2].
Defined.

(** X3. [loadNotes] at its edges. It never throws. The textarea changes
    only when the probe passes and the read returns a value, and then to
    that value as the textarea reads it back (CR LF and CR turned into
    LF); an absent key leaves it alone. A failed probe shows the
    notice and leaves the status; a passed probe leaves the notice and sets
    the status to default, or to error when the read throws. The stored
    notes are never changed and nothing is written under their key. *)
Theorem loadNotes_edges (s : Legacy.State) :
  let s' := exec Legacy.loadNotes s in
  let e := Legacy.env s in
  fst (Legacy.loadNotes s) = Normal ()
  ∧ Legacy.content s' =
      (if available e then
         match policy e (OpGet STORAGE_KEY) with
         | Some _ => Legacy.content s
         | None =>
             from_option normalize_newlines (Legacy.content s) (items e !! STORAGE_KEY)
         end
       else Legacy.content s)
  ∧ Legacy.status s' =
      (if available e then
         match policy e (OpGet STORAGE_KEY) with
         | Some _ => st_error
         | None => st_default
         end
       else Legacy.status s)
  ∧ Legacy.errorModal_display (Legacy.dom s') =
      (if available e then Legacy.errorModal_display (Legacy.dom s) else "flex")
  ∧ items (Legacy.env s') !! STORAGE_KEY = items e !! STORAGE_KEY
  ∧ writes_to STORAGE_KEY (log (Legacy.env s')) = writes_to STORAGE_KEY (log e).
Proof.
  cbn zeta. unfold exec, Legacy.content. rewrite LegacyInv.loadNotes_run. cbn [fst snd].
  unfold LegacyInv.loaded_state. cbn zeta.
  destruct (available (Legacy.env s)) eqn:Ea.
  - destruct (policy (Legacy.env s) (OpGet STORAGE_KEY)) as [err|] eqn:Eg.
    + split_and!; try done; env_simpl; rewrite ?notes_survive_probe; try done.
      rewrite !writes_to_app, writes_probe_log by done. unfold writes_to. cbn.
      by rewrite !app_nil_r.
    + rewrite notes_survive_probe.
      split_and!; try done; env_simpl; rewrite ?notes_survive_probe; try done.
      * by destruct (items (Legacy.env s) !! STORAGE_KEY).
      * by destruct (items (Legacy.env s) !! STORAGE_KEY).
      * rewrite !writes_to_app, writes_probe_log by done. by rewrite app_nil_r.
  - split_and!; try done; env_simpl; rewrite ?notes_survive_probe; try done.
    rewrite !writes_to_app, writes_probe_log by done. by rewrite app_nil_r.
Qed.

(** ** What the page never does *)

(** A freshly loaded page holds no timer and no handle, and has written
    nothing under the notes key. *)
Lemma legacy_start_quiet (d : Legacy.Dom) (i : gmap string string)
    (p : StorageOp → option JsError) :
  timers (Legacy.env (Legacy.start d i p)) = []
  ∧ Legacy.saveTimeout (Legacy.start d i p) = None
  ∧ writes_to STORAGE_KEY (log (Legacy.env (Legacy.start d i p))) = [].
Proof.
  unfold Legacy.start, exec. rewrite LegacyInv.init_run.
  destruct (policy _ _) as [err|]; cbn [snd]; [by split_and!|].
  unfold LegacyInv.init_state. cbn zeta.
  destruct (available _).
  - unfold LegacyInv.loaded_state. cbn zeta. cbn [Legacy.env Legacy.on_env Legacy.on_dom].
    destruct (available _).
    + destruct (policy _ _) as [err|];
        (split_and!; [by env_simpl|done|]); env_simpl;
        rewrite ?writes_to_app, ?writes_probe_log by done; done.
    + (split_and!; [by env_simpl|done|]); env_simpl;
        rewrite ?writes_to_app, ?writes_probe_log by done; done.
  - (split_and!; [by env_simpl|done|]); env_simpl;
      rewrite ?writes_to_app, ?writes_probe_log by done; done.
Qed.

Lemma react_start_quiet (dk : bool) (i : gmap string string)
    (p : StorageOp → option JsError) :
  timers (React.env (React.start dk i p)) = []
  ∧ React.saveTimeoutRef (React.start dk i p) = None
  ∧ writes_to STORAGE_KEY (log (React.env (React.start dk i p))) = [].
Proof.
  unfold React.start, exec. rewrite ReactInv.mountEffect_run.
  destruct (policy _ (OpGet THEME_KEY)) as [err|]; cbn [snd]; [by split_and!|].
  cbn zeta. destruct (available _) eqn:Ea.
  - destruct (policy _ (OpGet STORAGE_KEY)) as [err|]; cbn [snd].
    + (split_and!; [by env_simpl|done|]); env_simpl;
        rewrite ?writes_to_app, ?writes_probe_log by done; done.
    + unfold ReactInv.mount_state. cbn zeta. rewrite Ea.
      destruct (items _ !! STORAGE_KEY);
        (split_and!; [by env_simpl|done|]); env_simpl;
        rewrite ?writes_to_app, ?writes_probe_log by done; done.
  - cbn [snd]. unfold ReactInv.mount_state. cbn zeta. rewrite Ea.
    (split_and!; [by env_simpl|done|]); env_simpl;
      rewrite ?writes_to_app, ?writes_probe_log by done; done.
Qed.

Lemma ripe_no_timers {C : Type} (id : positive) (e : Env C) :
  timers e = [] → ripe id e = None.
Proof. unfold ripe. by intros ->. Qed.

(** A trace without input events. *)
Definition no_input (tr : list Event) : bool :=
  forallb (λ ev, match ev with Input _ => false | _ => true end) tr.

Lemma writes_to_snoc_other k k' v l :
  k' ≠ k → writes_to k (l ++ [Stored k' v]) = writes_to k l.
Proof.
  intros Hk. rewrite writes_to_app. unfold writes_to at 2. cbn.
  rewrite decide_False by done. by rewrite app_nil_r.
Qed.

Lemma writes_to_snoc_refused k op e l : writes_to k (l ++ [Refused op e]) = writes_to k l.
Proof. rewrite writes_to_app. unfold writes_to at 2. cbn. by rewrite app_nil_r. Qed.

Lemma legacy_untouched_step (ev : Event) (s : Legacy.State) :
  match ev with Input _ => False | _ => True end →
  timers (Legacy.env s) = [] → Legacy.saveTimeout s = None →
  timers (Legacy.env (Legacy.step ev s)) = []
  ∧ Legacy.saveTimeout (Legacy.step ev s) = None
  ∧ writes_to STORAGE_KEY (log (Legacy.env (Legacy.step ev s)))
    = writes_to STORAGE_KEY (log (Legacy.env s)).
Proof.
  intros Hev Ht Hh.
  destruct ev as [text|dt|id|key v|h| | | |p|k v]; try done; cbn [Legacy.step];
    unfold exec.
  - unfold Legacy.fire. by rewrite (ripe_no_timers id _ Ht).
  - destruct (Legacy.listening s); [|done].
    rewrite LegacyRun.handleStorageEvent_run. cbn [snd]. by case_decide.
  - destruct (Legacy.listening s); [|done].
    rewrite LegacyRun.script_handleVisibilityChange_run. cbn. rewrite Hh. by destruct h.
  - destruct (Legacy.listening s); [|done].
    rewrite LegacyRun.script_handleBeforeUnload_run. cbn [snd]. by rewrite Hh.
  - destruct (Legacy.listening s); [|done].
    rewrite LegacyRun.handleThemeToggle_run. cbn zeta.
    destruct (policy (Legacy.env s) _); cbn; (split_and!; [done|done|]).
    + apply writes_to_snoc_refused.
    + by apply writes_to_snoc_other.
  - by destruct (Legacy.listening s).
Qed.

Lemma react_untouched_step (ev : Event) (s : React.State) :
  match ev with Input _ => False | _ => True end →
  timers (React.env s) = [] → React.saveTimeoutRef s = None →
  timers (React.env (React.step ev s)) = []
  ∧ React.saveTimeoutRef (React.step ev s) = None
  ∧ writes_to STORAGE_KEY (log (React.env (React.step ev s)))
    = writes_to STORAGE_KEY (log (React.env s)).
Proof.
  intros Hev Ht Hh.
  destruct ev as [text|dt|id|key v|h| | | |p|k v]; try done; cbn [React.step];
    unfold exec.
  - unfold React.fire. by rewrite (ripe_no_timers id _ Ht).
  - destruct (React.isLoaded s); [|done].
    rewrite ReactRun.handleStorage_run. cbn [snd]. by case_decide.
  - destruct (React.isLoaded s); [|done].
    rewrite ReactRun.comp_handleVisibilityChange_run. cbn. rewrite Hh. by destruct h.
  - destruct (React.isLoaded s); [|done].
    rewrite ReactRun.comp_handleBeforeUnload_run. cbn [snd]. by rewrite Hh.
  - destruct (React.isLoaded s); [|done].
    rewrite ReactRun.toggleTheme_run. cbn zeta.
    destruct (policy (React.env s) _); cbn; (split_and!; [done|done|]).
    + apply writes_to_snoc_refused.
    + by apply writes_to_snoc_other.
  - by destruct (React.isLoaded s).
Qed.

(** X4. No typing, no save. As long as no input event has occurred since
    the page loaded, neither implementation writes under the notes key or
    schedules a timer, whatever else happens: timers asked to run, storage
    notifications, the page hidden or unloaded, theme clicks, storage
    faults coming and going. *)
Theorem no_write_without_input (d : Legacy.Dom) (dk : bool) (i : gmap string string)
    (p : StorageOp → option JsError) (tr : list Event) :
  no_input tr = true →
  (writes_to STORAGE_KEY (log (Legacy.env (legacy_after d i p tr))) = []
   ∧ timers (Legacy.env (legacy_after d i p tr)) = [])
  ∧ (writes_to STORAGE_KEY (log (React.env (react_after dk i p tr))) = []
     ∧ timers (React.env (react_after dk i p tr)) = []).
Proof.
  intros Hni. unfold legacy_after, react_after.
  destruct (legacy_start_quiet d i p) as (HtL & HhL & HwL).
  destruct (react_start_quiet dk i p) as (HtR & HhR & HwR).
  revert HtL HhL HwL HtR HhR HwR.
  generalize (Legacy.start d i p) (React.start dk i p).
  induction tr as [|ev tr IH]; intros l r HtL HhL HwL HtR HhR HwR; [done|].
  cbn in Hni. apply andb_prop in Hni as [Hev Hni].
  assert (match ev with Input _ => False | _ => True end) as Hev' by by destruct ev.
  destruct (legacy_untouched_step ev l Hev' HtL HhL) as (? & ? & Ew).
  destruct (react_untouched_step ev r Hev' HtR HhR) as (? & ? & Ew').
  cbn [Legacy.run React.run foldl]. apply IH; try done; congruence.
Qed.

Lemma no_write_without_input_witness :
  let tr := [Visibility true; ThemeClick; StorageEv (Some STORAGE_KEY) (Some "remote");
             BeforeUnload; Fire 1%positive; Advance 5000] in
  writes_to STORAGE_KEY (log (Legacy.env (legacy_after blank ∅ no_fault tr))) = []
  ∧ writes_to STORAGE_KEY (log (React.env (react_after false ∅ no_fault tr))) = [].
Proof.
  destruct (no_write_without_input blank false ∅ no_fault
              [Visibility true; ThemeClick; StorageEv (Some STORAGE_KEY) (Some "remote");
               BeforeUnload; Fire 1%positive; Advance 5000] eq_refl) as [[H1 _] [H2 _]].
  split; [exact H1|exact H2].
Defined.

(** A storage that cannot even be read. *)
Definition unreadable : StorageOp → option JsError := λ _, Some {| name := "SecurityError" |}.

Lemma legacy_inert_run (tr : list Event) (s : Legacy.State) :
  Legacy.listening s = false → timers (Legacy.env s) = [] →
  log (Legacy.env (Legacy.run tr s)) = log (Legacy.env s)
  ∧ timers (Legacy.env (Legacy.run tr s)) = []
  ∧ Legacy.status (Legacy.run tr s) = Legacy.status s
  ∧ Legacy.saveStatus_text (Legacy.dom (Legacy.run tr s))
    = Legacy.saveStatus_text (Legacy.dom s).
Proof.
  revert s. induction tr as [|ev tr IH]; intros s Hl Ht; [done|].
  change (Legacy.run (ev :: tr) s) with (Legacy.run tr (Legacy.step ev s)).
  assert (Legacy.listening (Legacy.step ev s) = false
          ∧ timers (Legacy.env (Legacy.step ev s)) = []
          ∧ log (Legacy.env (Legacy.step ev s)) = log (Legacy.env s)
          ∧ Legacy.status (Legacy.step ev s) = Legacy.status s
          ∧ Legacy.saveStatus_text (Legacy.dom (Legacy.step ev s))
            = Legacy.saveStatus_text (Legacy.dom s)) as (Hl' & Ht' & El & Es & Et).
  { destruct ev; cbn [Legacy.step]; rewrite ?Hl; try done.
    unfold Legacy.fire. by rewrite (ripe_no_timers _ _ Ht). }
  destruct (IH _ Hl' Ht') as (? & ? & ? & ?). split_and!; congruence.
Qed.

Lemma react_inert_run (tr : list Event) (s : React.State) :
  React.isLoaded s = false → timers (React.env s) = [] →
  log (React.env (React.run tr s)) = log (React.env s)
  ∧ timers (React.env (React.run tr s)) = []
  ∧ React.status (React.run tr s) = React.status s
  ∧ React.content (React.run tr s) = React.content s.
Proof.
  revert s. induction tr as [|ev tr IH]; intros s Hl Ht; [done|].
  change (React.run (ev :: tr) s) with (React.run tr (React.step ev s)).
  assert (React.isLoaded (React.step ev s) = false
          ∧ timers (React.env (React.step ev s)) = []
          ∧ log (React.env (React.step ev s)) = log (React.env s)
          ∧ React.status (React.step ev s) = React.status s
          ∧ React.content (React.step ev s) = React.content s)
    as (Hl' & Ht' & El & Es & Et).
  { destruct ev; cbn [React.step]; rewrite ?Hl; try done.
    unfold React.fire. by rewrite (ripe_no_timers _ _ Ht). }
  destruct (IH _ Hl' Ht') as (? & ? & ? & ?). split_and!; congruence.
Qed.

(** X5. A load that did not complete leaves the page inert. In the script,
    when [init] stopped before registering its listeners (the theme could
    not be read, or the probe failed), no later event makes it call the
    storage, alert, log, schedule a timer or change the status or its
    text. In the component, when the first effect threw, no later event
    makes it act, schedule a timer or change its status or its text. *)
Theorem inert_after_failed_load (d : Legacy.Dom) (dk : bool) (i : gmap string string)
    (p : StorageOp → option JsError) (tr : list Event) :
  (Legacy.listening (Legacy.start d i p) = false →
   log (Legacy.env (legacy_after d i p tr)) = log (Legacy.env (Legacy.start d i p))
   ∧ timers (Legacy.env (legacy_after d i p tr)) = []
   ∧ Legacy.status (legacy_after d i p tr) = Legacy.status (Legacy.start d i p)
   ∧ Legacy.saveStatus_text (Legacy.dom (legacy_after d i p tr))
     = Legacy.saveStatus_text (Legacy.dom (Legacy.start d i p)))
  ∧
  (React.isLoaded (React.start dk i p) = false →
   log (React.env (react_after dk i p tr)) = log (React.env (React.start dk i p))
   ∧ timers (React.env (react_after dk i p tr)) = []
   ∧ React.status (react_after dk i p tr) = React.status (React.start dk i p)
   ∧ React.content (react_after dk i p tr) = React.content (React.start dk i p)).
Proof.
  unfold legacy_after, react_after. split; intros Hl.
  - apply legacy_inert_run; [done|]. apply legacy_start_quiet.
  - apply react_inert_run; [done|]. apply react_start_quiet.
Qed.

Lemma inert_after_failed_load_witness :
  let tr := [Input "lost"; Advance 500; Fire 1%positive; SetPolicy no_fault;
             Input "still lost"; Advance 500; Fire 1%positive; Visibility true] in
  log (Legacy.env (legacy_after blank ∅ read_only tr))
  = log (Legacy.env (Legacy.start blank ∅ read_only))
  ∧ log (React.env (react_after false ∅ unreadable tr))
    = log (React.env (React.start false ∅ unreadable)).
Proof.
  destruct (inert_after_failed_load blank false ∅ read_only
              [Input "lost"; Advance 500; Fire 1%positive; SetPolicy no_fault;
               Input "still lost"; Advance 500; Fire 1%positive; Visibility true])
    as [HL _].
  destruct (inert_after_failed_load blank false ∅ unreadable
              [Input "lost"; Advance 500; Fire 1%positive; SetPolicy no_fault;
               Input "still lost"; Advance 500; Fire 1%positive; Visibility true])
    as [_ HR].
  split; [apply HL; reflexivity|apply HR; reflexivity].
Defined.

(** ** The script's status indicator *)

Module LegacyIndicator.
Import Legacy LegacyRun LegacyInv.
Implicit Types (s : State) (st : Status).

(** The indicator is tidy: it shows one status [st], by its text and by
    exactly the class of that status, and a reset timer is live only while
    that status is saved. *)
Definition tidy s : Prop :=
  inv s ∧ ∃ st, dom s = shown st (dom s) ∧ (reset_timers s = [] ∨ st = st_saved).

Lemma tidy_status s st : dom s = shown st (dom s) → status s = st.
Proof. intros E. unfold status. rewrite E. by destruct st. Qed.

Lemma reset_timers_updated st s :
  inv s → st ≠ st_saved → reset_timers (updated st s) = [].
Proof.
  intros Hi Hst. unfold reset_timers.
  pose proof (tinv_clear_Q _ _ _ _ _ _ Hi) as E.
  assert (filter is_reset (timers (clear (statusTimeout s) (env s))) = []) as E'
    by by destruct (statusTimeout s).
  by destruct st.
Qed.

Lemma tidy_updated st s : inv s → tidy (updated st s).
Proof.
  intros Hi. split; [by apply inv_updated|].
  exists st. split; [by destruct st|].
  destruct (decide (st = st_saved)); [by right|left]. by apply reset_timers_updated.
Qed.

Lemma tidy_env f s :
  timers (f (env s)) = timers (env s) → next_id (f (env s)) = next_id (env s) →
  tidy s → tidy (on_env f s).
Proof.
  intros Ht Hn [Hi (st & Ed & Hr)]. split; [by apply script_inv_on_env|].
  exists st. split; [done|]. unfold reset_timers in *. cbn. by rewrite Ht.
Qed.

Lemma tidy_dom (f : Dom → Dom) s :
  (∀ st d, f (shown st d) = shown st (f d)) → tidy s → tidy (on_dom f s).
Proof.
  intros Hf [Hi (st & Ed & Hr)]. split; [done|].
  exists st. split; [|done]. cbn. rewrite Ed at 1. apply Hf.
Qed.

Lemma tidy_saved_state s : inv s → tidy (saved_state s).
Proof.
  intros Hi. unfold saved_state.
  destruct (available (env s)).
  - destruct (policy (env s) _) as [err|].
    + destruct (is_quota err).
      * apply tidy_env; [done..|]. apply tidy_updated, script_inv_on_env; by env_simpl.
      * apply tidy_updated, script_inv_on_env; by env_simpl.
    + apply tidy_updated, script_inv_on_env; by env_simpl.
  - apply tidy_dom; [by intros []|].
    apply tidy_updated, script_inv_on_env; by env_simpl.
Qed.

Lemma tidy_input_state s : inv s → tidy (input_state s).
Proof.
  intros Hi. split; [by apply script_inv_input_state|].
  exists st_saving. split; [done|]. left.
  unfold reset_timers. cbn. rewrite list.filter_app, filter_one.
  rewrite decide_False by done. rewrite app_nil_r.
  rewrite (filter_timers_clear is_reset).
  pose proof (tinv_clear_Q _ _ _ _ _ _ Hi) as E.
  assert (filter is_reset (timers (clear (statusTimeout s) (env s))) = []) as ->
    by by destruct (statusTimeout s).
  by destruct (saveTimeout s).
Qed.

Lemma tidy_fire id s : tidy s → tidy (fire id s).
Proof.
  intros Ht. unfold fire. destruct (ripe id (env s)) as [t|] eqn:E; [|done].
  destruct Ht as [Hi (st & Ed & Hr)].
  pose proof (script_inv_clear (Some id) s Hi) as Hi1.
  apply ripe_Some in E as (Hin & Hid & _).
  destruct (cb t) eqn:Ecb; cbn [run_callback]; unfold exec.
  - rewrite script_saveNotes_run. by apply tidy_saved_state.
  - rewrite resetStatus_run. cbn [snd].
    assert (t ∈ reset_timers s) as Hr' by by apply list_elem_of_filter.
    destruct Hr as [Hr| ->]; [rewrite Hr in Hr'; by apply elem_of_nil in Hr'|].
    destruct (slot_elem _ _ _ (ti_Q _ _ _ _ _ _ Hi) Hr') as [E1 _].
    split; [done|]. exists st_default. split.
    + cbn. rewrite Ed. reflexivity.
    + left. unfold reset_timers in *. cbn. rewrite filter_filter_ne, E1, filter_one.
      by rewrite decide_False by (intros ?; done).
Qed.

Lemma tidy_step ev s : tidy s → tidy (step ev s).
Proof.
  intros Ht. pose proof Ht as [Hi _].
  destruct ev as [text|dt|id|key v|h| | | |p|k v]; cbn [step]; unfold exec.
  - destruct (listening s); [|by apply tidy_dom; [intros []|]].
    rewrite script_handleInput_run. by apply tidy_input_state.
  - by apply tidy_env.
  - by apply tidy_fire.
  - destruct (listening s); [|done].
    rewrite handleStorageEvent_run. cbn [snd]. case_decide; [|done].
    by apply tidy_dom; [intros []|].
  - assert (tidy (on_env (set_hidden h) s)) as Ht' by by apply tidy_env.
    destruct (listening s); [|done].
    rewrite script_handleVisibilityChange_run. cbn.
    destruct h, (saveTimeout s) as [id|]; try done.
    apply tidy_saved_state. by apply (script_inv_clear (Some id)).
  - destruct (listening s); [|done].
    rewrite script_handleBeforeUnload_run. cbn [snd].
    destruct (saveTimeout s) as [id|]; [|done].
    by apply tidy_saved_state, (script_inv_clear (Some id)).
  - destruct (listening s); [|done].
    rewrite handleThemeToggle_run. cbn zeta.
    destruct (policy (env s) _); cbn [snd];
      (apply tidy_env; [done..|]); by apply tidy_dom; [intros []|].
  - destruct (listening s); [|done]. by apply tidy_dom; [intros []|].
  - by apply tidy_env.
  - by apply tidy_env.
Qed.

Lemma tidy_run tr s : tidy s → tidy (run tr s).
Proof.
  revert s. induction tr as [|ev tr IH]; intros s Ht; [done|]. apply IH, tidy_step, Ht.
Qed.

Lemma tidy_start d i p : listening (start d i p) = true → tidy (start d i p).
Proof.
  unfold start, exec. rewrite init_run.
  destruct (policy _ _) as [err|]; cbn [snd]; [done|].
  unfold init_state. cbn zeta. destruct (available (env (page d i p))) eqn:Ea; [|done].
  intros _.
  set (s := on_env (λ _, probed (env (page d i p)))
              (on_dom (set_dark (bool_decide (items (env (page d i p)) !! THEME_KEY
                                              = Some "dark"))) (page d i p))).
  assert (inv s) as Hi.
  { apply script_inv_on_env; [by env_simpl..|]. apply script_inv_page. }
  assert (available (env s) = true) as Ea'.
  { unfold available in *. cbn. by rewrite policy_probed. }
  assert (tidy (loaded_state s)) as [Hi' Ht]; [|by split].
  unfold loaded_state. rewrite Ea'.
  destruct (policy (env s) _); apply tidy_updated, script_inv_on_env; by env_simpl.
Qed.
End LegacyIndicator.

(** The text [updateSaveStatus] and the reset closure give each status. *)
Definition status_text (st : Status) : string :=
  match st with
  | st_saving => "Saving..."
  | st_saved => "Saved"
  | st_error => "Error"
  | st_default => "Auto-save on"
  end.

(** X6. The script's indicator never contradicts itself. Once [init] has
    registered the listeners, in every state the page can reach the text
    of the indicator is the text of the status its classes show, and at
    most one of the three status classes is set: the one of that status.
    (The reset closure only removes the class saved; this holds because it
    runs only while the status is saved.) *)
Theorem indicator_consistent (d : Legacy.Dom) (i : gmap string string)
    (p : StorageOp → option JsError) (tr : list Event) :
  Legacy.listening (Legacy.start d i p) = true →
  Legacy.saveStatus_text (Legacy.dom (legacy_after d i p tr))
  = status_text (Legacy.status (legacy_after d i p tr))
  ∧ (Legacy.saving_class (Legacy.dom (legacy_after d i p tr)),
     Legacy.saved_class (Legacy.dom (legacy_after d i p tr)),
     Legacy.error_class (Legacy.dom (legacy_after d i p tr)))
    = match Legacy.status (legacy_after d i p tr) with
      | st_saving => (true, false, false)
      | st_saved => (false, true, false)
      | st_error => (false, false, true)
      | st_default => (false, false, false)
      end.
Proof.
  intros Hl.
  destruct (LegacyIndicator.tidy_run tr _ (LegacyIndicator.tidy_start d i p Hl))
    as [_ (st & Ed & _)].
  fold (legacy_after d i p tr) in Ed.
  rewrite (LegacyIndicator.tidy_status _ _ Ed). rewrite Ed. by destruct st.
Qed.

Lemma indicator_consistent_witness :
  let s := legacy_after blank ∅ no_fault
             [Input "a"; Advance 500; Fire 1%positive; SetPolicy read_only; Input "ab";
              Visibility true; Advance 2500; Fire 2%positive] in
  Legacy.saveStatus_text (Legacy.dom s) = status_text (Legacy.status s)
  ∧ Legacy.status s = st_error.
Proof.
  split; [|reflexivity].
  apply (indicator_consistent blank ∅ no_fault
           [Input "a"; Advance 500; Fire 1%positive; SetPolicy read_only; Input "ab";
            Visibility true; Advance 2500; Fire 2%positive]); reflexivity.
Defined.

(** X7. In the script a reset timer is live only while the status is
    saved, in every state the page can reach: [updateSaveStatus] clears it
    on every change of status. So its firing can only turn saved into
    default. *)
Theorem reset_only_while_saved (d : Legacy.Dom) (i : gmap string string)
    (p : StorageOp → option JsError) (tr : list Event) :
  Legacy.reset_timers (legacy_after d i p tr) = []
  ∨ Legacy.status (legacy_after d i p tr) = st_saved.
Proof.
  destruct (Legacy.listening (Legacy.start d i p)) eqn:Hl.
  - destruct (LegacyIndicator.tidy_run tr _ (LegacyIndicator.tidy_start d i p Hl))
      as [_ (st & Ed & Hr)].
    fold (legacy_after d i p tr) in Ed, Hr.
    rewrite (LegacyIndicator.tidy_status _ _ Ed). done.
  - left. destruct (legacy_start_quiet d i p) as (Ht & _ & _).
    destruct (legacy_inert_run tr _ Hl Ht) as (_ & Ht' & _).
    unfold Legacy.reset_timers, legacy_after. by rewrite Ht'.
Qed.

(** ** The whole save cycle *)

Module LegacyCycle.
Import Legacy LegacyRun LegacyInv LegacyBurst.
Implicit Types (s : State).

(** The pending timer runs [saveNotes] once its delay has elapsed. *)
Lemma fire_pending b txt w p dt s id :
  pending b txt w p s → saveTimeout s = Some id → b ≤ dt →
  step (Fire id) (step (Advance dt) s)
  = saved_state (on_env (clear (Some id)) (on_env (tick dt) s)).
Proof.
  intros (Hi & Hl & Hb & Hc & Hw & Hp & id' & Hh & Hs) Hid Hdt.
  rewrite Hh in Hid. injection Hid as ->.
  cbn [step]. unfold fire.
  assert ({| tid := id; due := now (env s) + b; cb := cb_saveNotes |} ∈ timers (env s))
    as Hin.
  { assert ({| tid := id; due := now (env s) + b; cb := cb_saveNotes |} ∈ save_timers s)
      as Hx by (rewrite Hs; apply list_elem_of_singleton; done).
    by apply list_elem_of_filter in Hx as [_ ?]. }
  rewrite (ripe_unique _ _ script_kinds id (env (on_env (tick dt) s)) _
             (saveTimeout s) (statusTimeout s) Hi Hin eq_refl) by (cbn; lia).
  cbn [cb run_callback]. unfold exec. by rewrite script_saveNotes_run.
Qed.

(** After a successful save exactly one reset timer is live, due when the
    display duration has elapsed. *)
Lemma reset_after_save s :
  inv s → available (env s) = true →
  policy (env s) (OpSet STORAGE_KEY (notepad_value (dom s))) = None →
  reset_timers (saved_state s)
  = [{| tid := next_id (env s); due := now (env s) + SAVE_STATUS_DISPLAY_DURATION;
        cb := cb_resetStatus |}]
  ∧ statusTimeout (saved_state s) = Some (next_id (env s)).
Proof.
  intros Hi Ea Ew. unfold saved_state. cbn zeta. rewrite Ea, Ew.
  split; [|by env_simpl].
  unfold reset_timers. cbn. rewrite list.filter_app, filter_one.
  rewrite decide_True by done.
  pose proof (tinv_clear_Q _ _ _ _ _ _ Hi) as E.
  rewrite (filter_timers_clear is_reset). env_simpl.
  assert (match statusTimeout s with
          | Some id => filter (λ t, tid t ≠ id) (filter is_reset (timers (env s)))
          | None => filter is_reset (timers (env s))
          end = []) as ->.
  { destruct (statusTimeout s); [by rewrite filter_filter_ne in E|done]. }
  done.
Qed.

(** The reset timer, and nothing before its time. *)
Lemma fire_reset s t dt :
  inv s → reset_timers s = [t] →
  step (Fire (tid t)) (step (Advance dt) s)
  = (if decide (due t ≤ now (env s) + dt)
     then exec resetStatus (on_env (clear (Some (tid t))) (on_env (tick dt) s))
     else step (Advance dt) s).
Proof.
  intros Hi Hr.
  assert (t ∈ timers (env s) ∧ cb t = cb_resetStatus) as [Hin Hcb].
  { assert (t ∈ reset_timers s) as Hx by (rewrite Hr; by apply list_elem_of_singleton).
    apply list_elem_of_filter in Hx as [? ?]. done. }
  cbn [step]. unfold fire. case_decide as Hd.
  - rewrite (ripe_unique _ _ script_kinds (tid t) (env (on_env (tick dt) s)) t
               (saveTimeout s) (statusTimeout s) Hi Hin eq_refl) by done.
    by rewrite Hcb.
  - destruct (ripe _ _) as [t'|] eqn:E; [|done].
    apply ripe_Some in E as (Hin' & Hid & Hdue).
    assert (t' = t) as -> by (eapply (tinv_unique _ _ script_kinds); eauto).
    by destruct Hd.
Qed.

(** A table whose save timers and reset timers are both gone is empty. *)
Lemma no_timers s : save_timers s = [] → reset_timers s = [] → timers (env s) = [].
Proof.
  unfold save_timers, reset_timers. intros Hs Hr.
  destruct (timers (env s)) as [|t l] eqn:E; [done|]. exfalso.
  destruct (decide (is_save t)) as [Hk|Hk].
  - rewrite filter_cons_True in Hs by done. done.
  - apply script_kinds in Hk. rewrite filter_cons_True in Hr by done. done.
Qed.

Lemma cycle c d1 s :
  inv s → listening s = true → accepts (policy (env s)) c → AUTOSAVE_DELAY ≤ d1 →
  let s2 := run [Input c; Advance d1; Fire (next_id (env s))] s in
  let rid := Pos.succ (next_id (env s)) in
  (status s2 = st_saved ∧ items (env s2) !! STORAGE_KEY = Some c)
  ∧ (∀ d2, d2 < SAVE_STATUS_DISPLAY_DURATION →
       run [Advance d2; Fire rid] s2 = run [Advance d2] s2)
  ∧ (∀ d2, SAVE_STATUS_DISPLAY_DURATION ≤ d2 →
       let s3 := run [Advance d2; Fire rid] s2 in
       status s3 = st_default
       ∧ saveStatus_text (dom s3) = "Auto-save on"
       ∧ timers (env s3) = []
       ∧ items (env s3) !! STORAGE_KEY = Some c).
Proof.
  intros Hi Hl Ha Hd1. cbn zeta.
  destruct (script_pending_input c s Hi Hl) as [Hp _].
  assert (saveTimeout (step (Input c) s) = Some (next_id (env s))) as Hid.
  { cbn [step]. rewrite Hl. unfold exec. by rewrite script_handleInput_run. }
  assert (next_id (env (step (Input c) s)) = Pos.succ (next_id (env s))) as Hnext.
  { cbn [step]. rewrite Hl. unfold exec. rewrite script_handleInput_run. cbn.
    by rewrite !next_id_clear. }
  set (s1 := step (Input c) s) in *.
  change (run [Input c; Advance d1; Fire (next_id (env s))] s)
    with (step (Fire (next_id (env s))) (step (Advance d1) s1)).
  destruct (script_pending_flush _ _ _ _ d1 _ Hp Hd1 Ha) as (id & Hid' & Hf).
  rewrite Hid in Hid'. injection Hid' as <-. cbn zeta in Hf.
  destruct Hf as (_ & Hit & Hsv & Hst).
  pose proof (fire_pending _ _ _ _ d1 _ _ Hp Hid Hd1) as E2.
  set (s2 := step (Fire (next_id (env s))) (step (Advance d1) s1)) in *.
  set (sA := on_env (clear (Some (next_id (env s)))) (on_env (tick d1) s1)) in *.
  destruct Hp as (Hi1 & _ & _ & Hc & _ & Hpol & _).
  assert (inv sA) as HiA.
  { apply (script_inv_clear (Some _)). by apply script_inv_on_env. }
  destruct Ha as (A1 & A2 & A3).
  assert (policy (env sA) = policy (env s)) as HpA by (rewrite <- Hpol; reflexivity).
  assert (notepad_value (dom sA) = c) as HcA by (rewrite <- Hc; reflexivity).
  assert (available (env sA) = true) as Ea.
  { apply available_true. by rewrite HpA. }
  assert (policy (env sA) (OpSet STORAGE_KEY (notepad_value (dom sA))) = None) as Ew.
  { by rewrite HpA, HcA. }
  destruct (reset_after_save sA HiA Ea Ew) as [Hr _].
  rewrite <- E2 in Hr.
  assert (inv s2) as Hi2 by (rewrite E2; by apply script_inv_saved_state).
  assert (now (env s2) = now (env sA) ∧ dom s2 = shown st_saved (dom sA)) as [Hnow Hdom].
  { rewrite E2. unfold saved_state. cbn zeta. rewrite Ea, Ew. split; [by env_simpl|done]. }
  assert (next_id (env sA) = Pos.succ (next_id (env s))) as HnA
    by (rewrite <- Hnext; reflexivity).
  rewrite HnA in Hr. clearbody s2.
  split; [done|]. split.
  - intros d2 Hd2.
    change (run [Advance d2; Fire (Pos.succ (next_id (env s)))] s2)
      with (step (Fire (Pos.succ (next_id (env s)))) (step (Advance d2) s2)).
    pose proof (fire_reset s2 _ d2 Hi2 Hr) as Ef. cbn [tid due] in Ef. rewrite Ef.
    rewrite decide_False; [done|]. rewrite Hnow. unfold SAVE_STATUS_DISPLAY_DURATION in *. lia.
  - intros d2 Hd2.
    change (run [Advance d2; Fire (Pos.succ (next_id (env s)))] s2)
      with (step (Fire (Pos.succ (next_id (env s)))) (step (Advance d2) s2)).
    pose proof (fire_reset s2 _ d2 Hi2 Hr) as Ef. cbn [tid due] in Ef. rewrite Ef.
    rewrite decide_True by (rewrite Hnow; unfold SAVE_STATUS_DISPLAY_DURATION in *; lia).
    unfold exec. rewrite resetStatus_run. cbn [snd].
    split_and!.
    + unfold status. cbn. by rewrite Hdom.
    + done.
    + apply no_timers.
      * unfold save_timers in *. cbn. by rewrite filter_filter_ne, Hsv.
      * unfold reset_timers in *. cbn. rewrite filter_filter_ne, Hr, filter_one.
        by rewrite decide_False by (cbn; intros ?; done).
    + done.
Qed.
End LegacyCycle.

Module ReactCycle.
Import React ReactRun ReactInv ReactBurst.
Implicit Types (s : State).

Lemma fire_pending_comp b txt w p dt s id :
  pending b txt w p s → saveTimeoutRef s = Some id → b ≤ dt →
  step (Fire id) (step (Advance dt) s)
  = saved_state txt (on_env (clear (Some id)) (on_env (tick dt) s)).
Proof.
  intros (Hi & Hl & Hb & Hc & Hw & Hp & id' & Hh & Hs) Hid Hdt.
  rewrite Hh in Hid. injection Hid as ->.
  cbn [step]. unfold fire.
  assert ({| tid := id; due := now (env s) + b; cb := cb_saveNotes txt |} ∈ timers (env s))
    as Hin.
  { assert ({| tid := id; due := now (env s) + b; cb := cb_saveNotes txt |}
              ∈ save_timers s)
      as Hx by (rewrite Hs; apply list_elem_of_singleton; done).
    by apply list_elem_of_filter in Hx as [_ ?]. }
  rewrite (ripe_unique _ _ comp_kinds id (env (on_env (tick dt) s)) _
             (saveTimeoutRef s) (statusTimeoutRef s) Hi Hin eq_refl) by (cbn; lia).
  cbn [cb run_callback]. unfold exec. by rewrite comp_saveNotes_run.
Qed.

Lemma reset_after_save_comp text s :
  inv s → available (env s) = true →
  policy (env s) (OpSet STORAGE_KEY text) = None →
  reset_timers (saved_state text s)
  = [{| tid := next_id (env s); due := now (env s) + SAVE_STATUS_DISPLAY_DURATION;
        cb := cb_setDefault |}]
  ∧ statusTimeoutRef (saved_state text s) = Some (next_id (env s)).
Proof.
  intros Hi Ea Ew. unfold saved_state. cbn zeta. rewrite Ea, Ew.
  split; [|by env_simpl].
  unfold reset_timers. cbn. rewrite list.filter_app, filter_one.
  rewrite decide_True by done.
  pose proof (tinv_clear_Q _ _ _ _ _ _ Hi) as E.
  rewrite (filter_timers_clear is_reset). env_simpl.
  assert (match statusTimeoutRef s with
          | Some id => filter (λ t, tid t ≠ id) (filter is_reset (timers (env s)))
          | None => filter is_reset (timers (env s))
          end = []) as ->.
  { destruct (statusTimeoutRef s); [by rewrite filter_filter_ne in E|done]. }
  done.
Qed.

Lemma fire_reset_comp s t dt :
  inv s → reset_timers s = [t] →
  step (Fire (tid t)) (step (Advance dt) s)
  = (if decide (due t ≤ now (env s) + dt)
     then set_status st_default (on_env (clear (Some (tid t))) (on_env (tick dt) s))
     else step (Advance dt) s).
Proof.
  intros Hi Hr.
  assert (t ∈ timers (env s) ∧ cb t = cb_setDefault) as [Hin Hcb].
  { assert (t ∈ reset_timers s) as Hx by (rewrite Hr; by apply list_elem_of_singleton).
    apply list_elem_of_filter in Hx as [? ?]. done. }
  cbn [step]. unfold fire. case_decide as Hd.
  - rewrite (ripe_unique _ _ comp_kinds (tid t) (env (on_env (tick dt) s)) t
               (saveTimeoutRef s) (statusTimeoutRef s) Hi Hin eq_refl) by done.
    by rewrite Hcb.
  - destruct (ripe _ _) as [t'|] eqn:E; [|done].
    apply ripe_Some in E as (Hin' & Hid & Hdue).
    assert (t' = t) as -> by (eapply (tinv_unique _ _ comp_kinds); eauto).
    by destruct Hd.
Qed.

Lemma no_timers_comp s : save_timers s = [] → reset_timers s = [] → timers (env s) = [].
Proof.
  unfold save_timers, reset_timers. intros Hs Hr.
  destruct (timers (env s)) as [|t l] eqn:E; [done|]. exfalso.
  destruct (decide (is_save t)) as [Hk|Hk].
  - rewrite filter_cons_True in Hs by done. done.
  - apply comp_kinds in Hk. rewrite filter_cons_True in Hr by done. done.
Qed.

Lemma cycle_comp c d1 s :
  inv s → isLoaded s = true → accepts (policy (env s)) c → AUTOSAVE_DELAY ≤ d1 →
  let s2 := run [Input c; Advance d1; Fire (next_id (env s))] s in
  let rid := Pos.succ (next_id (env s)) in
  (status s2 = st_saved ∧ items (env s2) !! STORAGE_KEY = Some c)
  ∧ (∀ d2, d2 < SAVE_STATUS_DISPLAY_DURATION →
       run [Advance d2; Fire rid] s2 = run [Advance d2] s2)
  ∧ (∀ d2, SAVE_STATUS_DISPLAY_DURATION ≤ d2 →
       let s3 := run [Advance d2; Fire rid] s2 in
       status s3 = st_default
       ∧ getStatusText s3 = "Auto-save on"
       ∧ timers (env s3) = []
       ∧ items (env s3) !! STORAGE_KEY = Some c).
Proof.
  intros Hi Hl Ha Hd1. cbn zeta.
  destruct (comp_pending_input c s Hi Hl) as [Hp _].
  assert (saveTimeoutRef (step (Input c) s) = Some (next_id (env s))) as Hid.
  { cbn [step]. rewrite Hl. unfold exec. by rewrite comp_handleInput_run. }
  assert (next_id (env (step (Input c) s)) = Pos.succ (next_id (env s))) as Hnext.
  { cbn [step]. rewrite Hl. unfold exec. rewrite comp_handleInput_run. cbn.
    by rewrite !next_id_clear. }
  set (s1 := step (Input c) s) in *.
  change (run [Input c; Advance d1; Fire (next_id (env s))] s)
    with (step (Fire (next_id (env s))) (step (Advance d1) s1)).
  destruct (comp_pending_flush _ _ _ _ d1 _ Hp Hd1 Ha) as (id & Hid' & Hf).
  rewrite Hid in Hid'. injection Hid' as <-. cbn zeta in Hf.
  destruct Hf as (_ & Hit & Hsv & Hst).
  pose proof (fire_pending_comp _ _ _ _ d1 _ _ Hp Hid Hd1) as E2.
  set (s2 := step (Fire (next_id (env s))) (step (Advance d1) s1)) in *.
  set (sA := on_env (clear (Some (next_id (env s)))) (on_env (tick d1) s1)) in *.
  destruct Hp as (Hi1 & _ & _ & Hc & _ & Hpol & _).
  assert (inv sA) as HiA.
  { apply (comp_inv_clear (Some _)). by apply comp_inv_on_env. }
  destruct Ha as (A1 & A2 & A3).
  assert (policy (env sA) = policy (env s)) as HpA by (rewrite <- Hpol; reflexivity).
  assert (available (env sA) = true) as Ea.
  { apply available_true. by rewrite HpA. }
  assert (policy (env sA) (OpSet STORAGE_KEY c) = None) as Ew by by rewrite HpA.
  destruct (reset_after_save_comp c sA HiA Ea Ew) as [Hr _].
  rewrite <- E2 in Hr.
  assert (inv s2) as Hi2 by (rewrite E2; by apply comp_inv_saved_state).
  assert (now (env s2) = now (env sA)) as Hnow.
  { rewrite E2. unfold saved_state. cbn zeta. rewrite Ea, Ew. by env_simpl. }
  assert (next_id (env sA) = Pos.succ (next_id (env s))) as HnA
    by (rewrite <- Hnext; reflexivity).
  rewrite HnA in Hr. clearbody s2.
  split; [done|]. split.
  - intros d2 Hd2.
    change (run [Advance d2; Fire (Pos.succ (next_id (env s)))] s2)
      with (step (Fire (Pos.succ (next_id (env s)))) (step (Advance d2) s2)).
    pose proof (fire_reset_comp s2 _ d2 Hi2 Hr) as Ef. cbn [tid due] in Ef. rewrite Ef.
    rewrite decide_False; [done|]. rewrite Hnow. unfold SAVE_STATUS_DISPLAY_DURATION in *. lia.
  - intros d2 Hd2.
    change (run [Advance d2; Fire (Pos.succ (next_id (env s)))] s2)
      with (step (Fire (Pos.succ (next_id (env s)))) (step (Advance d2) s2)).
    pose proof (fire_reset_comp s2 _ d2 Hi2 Hr) as Ef. cbn [tid due] in Ef. rewrite Ef.
    rewrite decide_True by (rewrite Hnow; unfold SAVE_STATUS_DISPLAY_DURATION in *; lia).
    split_and!; try done.
    apply no_timers_comp.
    + unfold save_timers in *. cbn. by rewrite filter_filter_ne, Hsv.
    + unfold reset_timers in *. cbn. rewrite filter_filter_ne, Hr, filter_one.
      by rewrite decide_False by (cbn; intros ?; done).
Qed.
End ReactCycle.

(** X8. The whole cycle, in both implementations. From any state the
    loaded page can reach, over a storage that accepts the save: an input,
    then the save timer running once its delay has elapsed, leaves the
    status at saved and the text in the store; the reset timer then does
    nothing before the display duration has elapsed, and once it has,
    running it puts the status back to default, with the text still
    stored and no timer left. *)
Theorem save_cycle (d : Legacy.Dom) (dk : bool) (i : gmap string string)
    (p : StorageOp → option JsError) (pre : list Event) (c : string) (d1 : N) :
  Legacy.listening (legacy_after d i p pre) = true →
  React.isLoaded (react_after dk i p pre) = true →
  accepts (policy (Legacy.env (legacy_after d i p pre))) c →
  accepts (policy (React.env (react_after dk i p pre))) c →
  AUTOSAVE_DELAY ≤ d1 →
  (let s := legacy_after d i p pre in
   let s2 := Legacy.run [Input c; Advance d1; Fire (next_id (Legacy.env s))] s in
   let rid := Pos.succ (next_id (Legacy.env s)) in
   (Legacy.status s2 = st_saved ∧ items (Legacy.env s2) !! STORAGE_KEY = Some c)
   ∧ (∀ d2, d2 < SAVE_STATUS_DISPLAY_DURATION →
        Legacy.run [Advance d2; Fire rid] s2 = Legacy.run [Advance d2] s2)
   ∧ (∀ d2, SAVE_STATUS_DISPLAY_DURATION ≤ d2 →
        let s3 := Legacy.run [Advance d2; Fire rid] s2 in
        Legacy.status s3 = st_default
        ∧ Legacy.saveStatus_text (Legacy.dom s3) = "Auto-save on"
        ∧ timers (Legacy.env s3) = []
        ∧ items (Legacy.env s3) !! STORAGE_KEY = Some c))
  ∧
  (let s := react_after dk i p pre in
   let s2 := React.run [Input c; Advance d1; Fire (next_id (React.env s))] s in
   let rid := Pos.succ (next_id (React.env s)) in
   (React.status s2 = st_saved ∧ items (React.env s2) !! STORAGE_KEY = Some c)
   ∧ (∀ d2, d2 < SAVE_STATUS_DISPLAY_DURATION →
        React.run [Advance d2; Fire rid] s2 = React.run [Advance d2] s2)
   ∧ (∀ d2, SAVE_STATUS_DISPLAY_DURATION ≤ d2 →
        let s3 := React.run [Advance d2; Fire rid] s2 in
        React.status s3 = st_default
        ∧ React.getStatusText s3 = "Auto-save on"
        ∧ timers (React.env s3) = []
        ∧ items (React.env s3) !! STORAGE_KEY = Some c)).
Proof.
  intros Hl Hr HaL HaR Hd1. split.
  - by apply LegacyCycle.cycle; [apply legacy_after_inv|..].
  - by apply ReactCycle.cycle_comp; [apply react_after_inv|..].
Qed.

(** Typing "hello" on a fresh page, the save once 500 ms have passed, the
    reset 2000 ms later. *)
Lemma save_cycle_witness :
  (let s := legacy_after blank ∅ no_fault [] in
   let s2 := Legacy.run [Input "hello"; Advance 500; Fire (next_id (Legacy.env s))] s in
   Legacy.status (Legacy.run [Advance 2000; Fire (Pos.succ (next_id (Legacy.env s)))] s2)
   = st_default)
  ∧
  (let s := react_after false ∅ no_fault [] in
   let s2 := React.run [Input "hello"; Advance 500; Fire (next_id (React.env s))] s in
   React.status (React.run [Advance 2000; Fire (Pos.succ (next_id (React.env s)))] s2)
   = st_default).
Proof.
  assert (Legacy.listening (legacy_after blank ∅ no_fault []) = true) as Hl
    by (by vm_compute).
  assert (React.isLoaded (react_after false ∅ no_fault []) = true) as Hr
    by (by vm_compute).
  assert (accepts (policy (Legacy.env (legacy_after blank ∅ no_fault []))) "hello") as HaL
    by (by vm_compute).
  assert (accepts (policy (React.env (react_after false ∅ no_fault []))) "hello") as HaR
    by (by vm_compute).
  assert (AUTOSAVE_DELAY ≤ 500) as Hd by (by vm_compute).
  assert (SAVE_STATUS_DISPLAY_DURATION ≤ 2000) as Hd2 by (by vm_compute).
  destruct (save_cycle blank false ∅ no_fault [] "hello" 500 Hl Hr HaL HaR Hd)
    as [(_ & _ & HL) (_ & _ & HR)].
  split; [exact (proj1 (HL 2000 Hd2))|exact (proj1 (HR 2000 Hd2))].
Defined.

(** ** Saving without a working storage *)

(** X9. [saveNotes] when the probe fails, in both implementations: it
    returns normally, the status is the error status, the notice is
    shown, and nothing is attempted under the notes key: what the store
    holds there, the writes made there, the alerts raised, the clock and
    the handle of the save timer are as before. The script clears its
    reset timer on the way; the component leaves its timers alone. *)
Theorem save_without_storage (l : Legacy.State) (r : React.State) (text : string) :
  available (Legacy.env l) = false →
  available (React.env r) = false →
  (let l' := exec Legacy.saveNotes l in
   fst (Legacy.saveNotes l) = Normal ()
   ∧ Legacy.dom l' = Legacy.set_modal "flex" (LegacyRun.shown st_error (Legacy.dom l))
   ∧ items (Legacy.env l') !! STORAGE_KEY = items (Legacy.env l) !! STORAGE_KEY
   ∧ writes_to STORAGE_KEY (log (Legacy.env l')) = writes_to STORAGE_KEY (log (Legacy.env l))
   ∧ filter is_alert (log (Legacy.env l')) = filter is_alert (log (Legacy.env l))
   ∧ Legacy.saveTimeout l' = Legacy.saveTimeout l
   ∧ Legacy.statusTimeout l' = None
   ∧ timers (Legacy.env l') = timers (clear (Legacy.statusTimeout l) (Legacy.env l)))
  ∧
  (let r' := exec (React.saveNotes text) r in
   fst (React.saveNotes text r) = Normal ()
   ∧ React.status r' = st_error
   ∧ React.showError r' = true
   ∧ React.content r' = React.content r
   ∧ items (React.env r') !! STORAGE_KEY = items (React.env r) !! STORAGE_KEY
   ∧ writes_to STORAGE_KEY (log (React.env r')) = writes_to STORAGE_KEY (log (React.env r))
   ∧ filter is_alert (log (React.env r')) = filter is_alert (log (React.env r))
   ∧ React.saveTimeoutRef r' = React.saveTimeoutRef r
   ∧ timers (React.env r') = timers (React.env r)).
Proof.
  intros El Er. unfold exec.
  rewrite LegacyRun.script_saveNotes_run, ReactRun.comp_saveNotes_run. cbn [fst snd].
  unfold LegacyRun.saved_state, ReactRun.saved_state. cbn zeta. rewrite El, Er.
  split.
  - split_and!; try done; cbn; env_simpl.
    all: try apply notes_survive_probe.
    all: rewrite ?log_probed, ?writes_to_app, ?list.filter_app, ?alerts_probe_log,
           ?(writes_probe_log _ STORAGE_KEY), ?app_nil_r by done; try done.
    unfold clear. destruct (Legacy.statusTimeout l); cbn; by rewrite timers_probed.
  - split_and!; try done; cbn; env_simpl.
    all: try apply notes_survive_probe.
    all: rewrite ?log_probed, ?writes_to_app, ?list.filter_app, ?alerts_probe_log,
           ?(writes_probe_log _ STORAGE_KEY), ?app_nil_r by done; try done.
Qed.

(** The storage starts refusing writes after the page has loaded and a
    text has been typed. *)
Lemma save_without_storage_witness :
  let tr := [Input "kept in the editor"; SetPolicy read_only] in
  Legacy.status (exec Legacy.saveNotes (legacy_after blank ∅ no_fault tr)) = st_error
  ∧ React.showError
      (exec (React.saveNotes "kept in the editor") (react_after false ∅ no_fault tr))
    = true.
Proof.
  cbn zeta.
  pose proof (save_without_storage
                (legacy_after blank ∅ no_fault [Input "kept in the editor"; SetPolicy read_only])
                (react_after false ∅ no_fault [Input "kept in the editor"; SetPolicy read_only])
                "kept in the editor" eq_refl eq_refl) as [(_ & HL & _) (_ & _ & HR & _)].
  split; [|exact HR].
  unfold Legacy.status. cbn zeta in HL. rewrite HL. reflexivity.
Defined.

(** ** The theme *)

Lemma legacy_start_theme (d : Legacy.Dom) (i : gmap string string)
    (p : StorageOp → option JsError) :
  p (OpGet THEME_KEY) = None →
  Legacy.dark_mode (Legacy.dom (Legacy.start d i p))
  = bool_decide (i !! THEME_KEY = Some "dark").
Proof.
  intros Hp. unfold Legacy.start, exec. rewrite LegacyInv.init_run.
  cbn [Legacy.page Legacy.env boot policy].
  rewrite Hp. cbn [snd]. unfold LegacyInv.init_state. cbn zeta.
  destruct (available _); [|done].
  unfold LegacyInv.loaded_state. cbn zeta.
  destruct (available _); [|done].
  destruct (policy _ _); [done|]. cbn. by destruct (items _ !! STORAGE_KEY).
Qed.

Lemma react_start_theme (dk : bool) (i : gmap string string)
    (p : StorageOp → option JsError) :
  p (OpGet THEME_KEY) = None →
  React.isDark (React.start dk i p) = bool_decide (i !! THEME_KEY = Some "dark")
  ∧ React.body_dark (React.start dk i p) = bool_decide (i !! THEME_KEY = Some "dark").
Proof.
  intros Hp. unfold React.start, exec. rewrite ReactInv.mountEffect_run.
  cbn [React.page React.env boot policy]. rewrite Hp. cbn zeta.
  destruct (if available _ then _ else _); [done|]. cbn [snd].
  unfold ReactInv.mount_state. cbn zeta.
  destruct (available _); [|done]. by destruct (items _ !! STORAGE_KEY).
Qed.

Lemma theme_value_dark (b : bool) :
  bool_decide (Some (if b then "dark" else "light") = Some "dark") = b.
Proof. by destruct b. Qed.

(** X10. The theme survives a reload. When the toggle's write is taken,
    the store holds "dark" or "light" for the new mode, and a page loaded
    from that store by either implementation (the theme key being
    readable) comes up in the mode the toggle switched to, the opposite
    of the mode before the click. *)
Theorem theme_round_trip (l : Legacy.State) (r : React.State) (d : Legacy.Dom) (dk : bool)
    (p : StorageOp → option JsError) :
  (∀ v, policy (Legacy.env l) (OpSet THEME_KEY v) = None) →
  (∀ v, policy (React.env r) (OpSet THEME_KEY v) = None) →
  p (OpGet THEME_KEY) = None →
  let l' := exec Legacy.handleThemeToggle l in
  let r' := exec React.toggleTheme r in
  let was_l := Legacy.dark_mode (Legacy.dom l) in
  let was_r := React.isDark r in
  (Legacy.dark_mode (Legacy.dom l') = negb was_l
   ∧ items (Legacy.env l') !! THEME_KEY = Some (if was_l then "light" else "dark")
   ∧ Legacy.dark_mode (Legacy.dom (Legacy.start d (items (Legacy.env l')) p)) = negb was_l
   ∧ React.isDark (React.start dk (items (Legacy.env l')) p) = negb was_l)
  ∧
  (React.isDark r' = negb was_r ∧ React.body_dark r' = negb was_r
   ∧ items (React.env r') !! THEME_KEY = Some (if was_r then "light" else "dark")
   ∧ Legacy.dark_mode (Legacy.dom (Legacy.start d (items (React.env r')) p)) = negb was_r
   ∧ React.isDark (React.start dk (items (React.env r')) p) = negb was_r
   ∧ React.body_dark (React.start dk (items (React.env r')) p) = negb was_r).
Proof.
  intros Hl Hr Hp. cbn zeta. unfold exec.
  rewrite LegacyRun.handleThemeToggle_run, ReactRun.toggleTheme_run. cbn zeta.
  rewrite Hl, Hr. cbn [snd].
  destruct (react_start_theme dk
              (items (Legacy.env (Legacy.on_env
                 (λ e, emit (Stored THEME_KEY
                               (if negb (Legacy.dark_mode (Legacy.dom l)) then "dark" else "light"))
                         (set_items (insert THEME_KEY
                               (if negb (Legacy.dark_mode (Legacy.dom l)) then "dark" else "light"))
                            e))
                 (Legacy.on_dom (Legacy.set_dark (negb (Legacy.dark_mode (Legacy.dom l)))) l))))
              p Hp) as [E1 _].
  destruct (react_start_theme dk
              (items (React.env (React.on_env
                 (λ e, emit (Stored THEME_KEY (if negb (React.isDark r) then "dark" else "light"))
                         (set_items (insert THEME_KEY
                               (if negb (React.isDark r) then "dark" else "light")) e))
                 (React.set_body_dark (negb (React.isDark r))
                    (React.set_isDark (negb (React.isDark r)) r)))))
              p Hp) as [E2 E3].
  rewrite !legacy_start_theme by done. rewrite E1, E2, E3. cbn.
  rewrite !lookup_insert_eq, !theme_value_dark.
  split_and!; try done.
  - by destruct (Legacy.dark_mode (Legacy.dom l)).
  - by destruct (React.isDark r).
Qed.

Lemma theme_round_trip_witness :
  let l := legacy_after blank ∅ no_fault [] in
  let r := react_after false ∅ no_fault [ThemeClick] in
  Legacy.dark_mode
    (Legacy.dom (Legacy.start blank (items (Legacy.env (exec Legacy.handleThemeToggle l)))
                   no_fault)) = true
  ∧ React.isDark (React.start false (items (React.env (exec React.toggleTheme r))) no_fault)
    = false.
Proof.
  cbn zeta.
  pose proof (theme_round_trip (legacy_after blank ∅ no_fault [])
                (react_after false ∅ no_fault [ThemeClick]) blank false no_fault
                (λ _, eq_refl) (λ _, eq_refl) eq_refl)
    as [(_ & _ & HL & _) (_ & _ & _ & _ & HR & _)].
  split; [exact HL|exact HR].
Defined.

(** X11. A theme write that the storage refuses. The click handler
    throws the storage's exception, after it has switched the page to the
    other mode: what is displayed and what is stored part ways. The store,
    the status, the text, the timers and their handles are untouched, so a
    reload from that store comes up in the stored mode, not in the
    displayed one. *)
Theorem theme_write_refused (l : Legacy.State) (r : React.State) (err : JsError) :
  (∀ v, policy (Legacy.env l) (OpSet THEME_KEY v) = Some err) →
  (∀ v, policy (React.env r) (OpSet THEME_KEY v) = Some err) →
  let l' := exec Legacy.handleThemeToggle l in
  let r' := exec React.toggleTheme r in
  (fst (Legacy.handleThemeToggle l) = Throw err
   ∧ Legacy.dark_mode (Legacy.dom l') = negb (Legacy.dark_mode (Legacy.dom l))
   ∧ items (Legacy.env l') = items (Legacy.env l)
   ∧ timers (Legacy.env l') = timers (Legacy.env l)
   ∧ Legacy.status l' = Legacy.status l
   ∧ Legacy.content l' = Legacy.content l
   ∧ filter is_alert (log (Legacy.env l')) = filter is_alert (log (Legacy.env l)))
  ∧
  (fst (React.toggleTheme r) = Throw err
   ∧ React.isDark r' = negb (React.isDark r)
   ∧ React.body_dark r' = negb (React.isDark r)
   ∧ items (React.env r') = items (React.env r)
   ∧ timers (React.env r') = timers (React.env r)
   ∧ React.status r' = React.status r
   ∧ React.content r' = React.content r
   ∧ filter is_alert (log (React.env r')) = filter is_alert (log (React.env r))).
Proof.
  intros Hl Hr. cbn zeta. unfold exec.
  rewrite LegacyRun.handleThemeToggle_run, ReactRun.toggleTheme_run. cbn zeta.
  rewrite Hl, Hr. cbn [fst snd].
  split; split_and!; try done; cbn; rewrite list.filter_app; cbn; by rewrite app_nil_r.
Qed.

Lemma theme_write_refused_witness :
  let l := legacy_after blank ∅ no_fault [SetPolicy read_only] in
  let r := react_after false ∅ no_fault [SetPolicy read_only] in
  (Legacy.dark_mode (Legacy.dom (exec Legacy.handleThemeToggle l)) = true
   ∧ items (Legacy.env (exec Legacy.handleThemeToggle l)) !! THEME_KEY = None)
  ∧ (React.isDark (exec React.toggleTheme r) = true
     ∧ items (React.env (exec React.toggleTheme r)) !! THEME_KEY = None).
Proof.
  cbn zeta.
  pose proof (theme_write_refused (legacy_after blank ∅ no_fault [SetPolicy read_only])
                (react_after false ∅ no_fault [SetPolicy read_only])
                {| name := "QuotaExceededError" |} (λ _, eq_refl) (λ _, eq_refl))
    as [(_ & HL1 & HL2 & _) (_ & HR1 & _ & HR2 & _)].
  cbn zeta in *. rewrite HL1, HL2, HR1, HR2. by vm_compute.
Defined.

(** ** The debugging handle: [window.scratchpad] *)

Module LegacyDebug.
Import CONFIG Legacy LegacyRun LegacyInv.
Implicit Types (s : State).

(** [window.scratchpad.clearNotes]; [confirmed] is the answer given to
    the [confirm] dialog. The handle is set up outside [init], whether or
    not the listeners were registered. *)
Definition clearNotes (confirmed : bool) : M State unit :=
  if confirmed : bool return M State unit then
    modify (on_dom (set_notepad_value "")) ;;
    saveNotes
  else mret ().

Lemma clearNotes_run confirmed s :
  clearNotes confirmed s =
    (Normal (), if confirmed then saved_state (on_dom (set_notepad_value "") s) else s).
Proof.
  destruct confirmed; [|done].
  unfold clearNotes, mbind, M_bind, modify. by rewrite script_saveNotes_run.
Qed.

Lemma save_timers_updated st s : inv s → save_timers (updated st s) = save_timers s.
Proof.
  intros Hi. unfold save_timers, updated. cbn [env].
  pose proof (tinv_clear_Q_keeps_P _ _ _ _ _ _ Hi) as E.
  assert (filter is_save (timers (clear (statusTimeout s) (env s))) = save_timers s) as E'
    by by destruct (statusTimeout s).
  destruct st; cbn [id]; try done.
  unfold schedule, setTimeout. cbn [snd timers set_timers bump_id].
  rewrite list.filter_app, filter_one, decide_False by done.
  by rewrite app_nil_r.
Qed.
End LegacyDebug.

(** X12. Clearing the notes from the debugging handle. Declined at the
    dialog, nothing changes. Confirmed, over a storage that takes the
    write: the textarea is emptied and the empty text is stored under
    the notes key, which stays in the store; the status is
    saved; a save timer left pending by earlier typing is not cancelled;
    and a page loaded afterwards from that store, by either
    implementation, has an empty editor whatever its markup held. *)
Theorem clear_notes (d0 : Legacy.Dom) (i0 : gmap string string)
    (p0 : StorageOp → option JsError) (pre : list Event)
    (d : Legacy.Dom) (dk : bool) (p : StorageOp → option JsError) :
  let s := legacy_after d0 i0 p0 pre in
  accepts (policy (Legacy.env s)) "" →
  p (OpGet THEME_KEY) = None → p (OpGet STORAGE_KEY) = None →
  p (OpSet testKey "test") = None → p (OpRemove testKey) = None →
  LegacyDebug.clearNotes false s = (Normal (), s)
  ∧ (let s' := exec (LegacyDebug.clearNotes true) s in
     fst (LegacyDebug.clearNotes true s) = Normal ()
     ∧ Legacy.content s' = ""
     ∧ Legacy.status s' = st_saved
     ∧ items (Legacy.env s') !! STORAGE_KEY = Some ""
     ∧ writes_to STORAGE_KEY (log (Legacy.env s'))
       = writes_to STORAGE_KEY (log (Legacy.env s)) ++ [""]
     ∧ Legacy.saveTimeout s' = Legacy.saveTimeout s
     ∧ Legacy.save_timers s' = Legacy.save_timers s
     ∧ Legacy.content (Legacy.start d (items (Legacy.env s')) p) = ""
     ∧ React.content (React.start dk (items (Legacy.env s')) p) = "").
Proof.
  cbn zeta. intros (A1 & A2 & A3) G1 G2 G3 G4.
  pose proof (legacy_after_inv d0 i0 p0 pre) as Hi.
  set (s := legacy_after d0 i0 p0 pre) in *. clearbody s.
  unfold exec. rewrite !LegacyDebug.clearNotes_run. cbn [fst snd].
  split; [done|].
  set (s1 := Legacy.on_dom (Legacy.set_notepad_value "") s).
  assert (available (Legacy.env s1) = true) as Ea by (by apply available_true).
  assert (items (Legacy.env (LegacyRun.saved_state s1)) !! STORAGE_KEY = Some "") as Ei.
  { unfold LegacyRun.saved_state. cbn zeta. rewrite Ea.
    cbn [s1 Legacy.on_dom Legacy.dom Legacy.set_notepad_value Legacy.edited
           normalize_newlines Legacy.notepad_value Legacy.env].
    rewrite A3. env_simpl. cbn. by rewrite lookup_insert_eq. }
  assert (LegacyRun.saved_state s1
          = LegacyRun.updated st_saved
              (Legacy.on_env (λ _, emit (Stored STORAGE_KEY "")
                 (set_items (insert STORAGE_KEY "") (probed (Legacy.env s)))) s1)) as Es.
  { unfold LegacyRun.saved_state. cbn zeta. rewrite Ea.
    cbn [s1 Legacy.on_dom Legacy.dom Legacy.set_notepad_value Legacy.edited
           normalize_newlines Legacy.notepad_value Legacy.env].
    by rewrite A3. }
  assert (available (Legacy.env (Legacy.page d (items (Legacy.env (LegacyRun.saved_state s1))) p))
          = true) as Ea1 by (by apply available_true).
  assert (available (React.env (React.page dk (items (Legacy.env (LegacyRun.saved_state s1))) p))
          = true) as Ea2 by (by apply available_true).
  rewrite (legacy_loaded_content d _ p G1 G2 Ea1), (react_loaded_content dk _ p G1 G2 Ea2).
  rewrite Ei. split_and!; try done.
  - by rewrite Es.
  - by rewrite Es.
  - rewrite Es. cbn. env_simpl. cbn.
    rewrite <- !app_assoc, !writes_to_app, (writes_probe_log _ STORAGE_KEY) by done.
    unfold writes_to at 2. cbn. by rewrite decide_True.
  - by rewrite Es.
  - rewrite Es, LegacyDebug.save_timers_updated.
    + unfold Legacy.save_timers. cbn. by env_simpl.
    + apply LegacyInv.script_inv_on_env; [by env_simpl..|]. by apply LegacyInv.inv_on_dom.
Qed.

(** Notes were typed and saved, more typing is pending, and the notes are
    then cleared from the console. *)
Lemma clear_notes_witness :
  let s := legacy_after blank ∅ no_fault
             [Input "draft"; Advance 500; Fire 1%positive; Input "draft 2"] in
  items (Legacy.env (exec (LegacyDebug.clearNotes true) s)) !! STORAGE_KEY = Some ""
  ∧ Legacy.save_timers (exec (LegacyDebug.clearNotes true) s) = Legacy.save_timers s.
Proof.
  cbn zeta.
  assert (accepts (policy (Legacy.env (legacy_after blank ∅ no_fault
            [Input "draft"; Advance 500; Fire 1%positive; Input "draft 2"]))) "") as Ha
    by (by vm_compute).
  pose proof (clear_notes blank ∅ no_fault
                [Input "draft"; Advance 500; Fire 1%positive; Input "draft 2"]
                blank false no_fault Ha eq_refl eq_refl eq_refl eq_refl)
    as (_ & _ & _ & _ & H1 & _ & _ & H2 & _).
  split; [exact H1|exact H2].
Defined.

(** ** Another tab writes while a save is pending *)

(** What a save that succeeds adds to the writes under the notes key. *)
Lemma legacy_save_writes (l : Legacy.State) :
  available (Legacy.env l) = true →
  policy (Legacy.env l) (OpSet STORAGE_KEY (Legacy.content l)) = None →
  writes_to STORAGE_KEY (log (Legacy.env (exec Legacy.saveNotes l)))
  = writes_to STORAGE_KEY (log (Legacy.env l)) ++ [Legacy.content l].
Proof.
  intros Ea Ew. unfold exec, Legacy.content in *. rewrite LegacyRun.script_saveNotes_run.
  cbn [snd]. unfold LegacyRun.saved_state. cbn zeta. rewrite Ea, Ew.
  cbn. env_simpl. cbn. rewrite ?log_probed.
  rewrite <- !app_assoc, !writes_to_app, (writes_probe_log _ STORAGE_KEY) by done.
  unfold writes_to at 2. cbn. by rewrite decide_True.
Qed.

Lemma react_save_writes (r : React.State) (text : string) :
  available (React.env r) = true →
  policy (React.env r) (OpSet STORAGE_KEY text) = None →
  writes_to STORAGE_KEY (log (React.env (exec (React.saveNotes text) r)))
  = writes_to STORAGE_KEY (log (React.env r)) ++ [text].
Proof.
  intros Ea Ew. unfold exec. rewrite ReactRun.comp_saveNotes_run.
  cbn [snd]. unfold ReactRun.saved_state. cbn zeta. rewrite Ea, Ew.
  cbn. env_simpl. cbn. rewrite ?log_probed.
  rewrite <- !app_assoc, !writes_to_app, (writes_probe_log _ STORAGE_KEY) by done.
  unfold writes_to at 2. cbn. by rewrite decide_True.
Qed.

Module LegacyOverwrite.
Import Legacy LegacyRun LegacyInv LegacyBurst.
Implicit Types (s : State).

(** The one save timer, run once it is due, is a call of [saveNotes]. *)
Lemma fire_save_script b dt s id :
  inv s →
  save_timers s = [{| tid := id; due := now (env s) + b; cb := cb_saveNotes |}] →
  b ≤ dt →
  step (Fire id) (step (Advance dt) s)
  = exec saveNotes (on_env (clear (Some id)) (on_env (tick dt) s)).
Proof.
  intros Hi Hs Hdt. cbn [step]. unfold fire.
  assert ({| tid := id; due := now (env s) + b; cb := cb_saveNotes |} ∈ timers (env s))
    as Hin.
  { assert ({| tid := id; due := now (env s) + b; cb := cb_saveNotes |} ∈ save_timers s)
      as Hx by (rewrite Hs; apply list_elem_of_singleton; done).
    by apply list_elem_of_filter in Hx as [_ ?]. }
  by rewrite (ripe_unique _ _ script_kinds id (env (on_env (tick dt) s)) _
             (saveTimeout s) (statusTimeout s) Hi Hin eq_refl) by (cbn; lia).
Qed.

Lemma overwrite_script c nv dt s :
  inv s → listening s = true → nv ≠ Some c → AUTOSAVE_DELAY ≤ dt →
  accepts (policy (env s)) (normalize_newlines (or_empty nv)) →
  let s' := run [Input c; Remote STORAGE_KEY nv; StorageEv (Some STORAGE_KEY) nv;
                 Advance dt; Fire (next_id (env s))] s in
  content s' = normalize_newlines (or_empty nv)
  ∧ items (env s') !! STORAGE_KEY = Some (normalize_newlines (or_empty nv))
  ∧ writes_to STORAGE_KEY (log (env s'))
    = writes_to STORAGE_KEY (log (env s)) ++ [normalize_newlines (or_empty nv)].
Proof.
  intros Hi Hl Hnv Hdt (A1 & A2 & A3). cbn zeta.
  change (run _ s) with
    (step (Fire (next_id (env s)))
       (step (Advance dt)
          (step (StorageEv (Some STORAGE_KEY) nv)
             (step (Remote STORAGE_KEY nv) (step (Input c) s))))).
  destruct (script_pending_input c s Hi Hl)
    as [(Hi1 & Hl1 & _ & Hc1 & Hw1 & Hp1 & id & Hh1 & Hs1) _].
  assert (saveTimeout (step (Input c) s) = Some (next_id (env s))) as Hid.
  { cbn [step]. rewrite Hl. unfold exec. by rewrite script_handleInput_run. }
  rewrite Hh1 in Hid. injection Hid as ->.
  set (s1 := step (Input c) s) in *. clearbody s1.
  set (s3 := step (StorageEv (Some STORAGE_KEY) nv) (step (Remote STORAGE_KEY nv) s1)).
  assert (s3 = on_dom (set_notepad_value (or_empty nv)) (on_env (remote STORAGE_KEY nv) s1))
    as E3.
  { unfold s3. cbn [step on_env listening]. rewrite Hl1. unfold exec.
    rewrite handleStorageEvent_run. cbn [snd].
    rewrite decide_True; [done|]. split; [done|]. cbn. by rewrite Hc1. }
  clearbody s3. subst s3.
  set (s3 := on_dom (set_notepad_value (or_empty nv)) (on_env (remote STORAGE_KEY nv) s1)).
  assert (inv s3) as Hi3.
  { apply inv_on_dom, script_inv_on_env; done. }
  rewrite (fire_save_script AUTOSAVE_DELAY dt s3 (next_id (env s)) Hi3 Hs1 Hdt).
  set (s4 := on_env (clear (Some (next_id (env s)))) (on_env (tick dt) s3)).
  assert (policy (env s4) = policy (env s)) as Hp4 by (rewrite <- Hp1; reflexivity).
  assert (content s4 = normalize_newlines (or_empty nv)) as Hc4 by reflexivity.
  assert (available (env s4) = true) as Ea by (apply available_true; by rewrite Hp4).
  assert (policy (env s4) (OpSet STORAGE_KEY (content s4)) = None) as Ew
    by (by rewrite Hp4, Hc4).
  destruct (legacy_save_stores s4 Ea Ew) as (Ei & _ & Ec & _).
  pose proof (legacy_save_writes s4 Ea Ew) as Ewr.
  rewrite Ec, Ei, Ewr, Hc4. split; [done|]. split; [by rewrite lookup_insert_eq|].
  f_equal. rewrite <- Hw1. reflexivity.
Qed.
End LegacyOverwrite.

Module ReactOverwrite.
Import React ReactRun ReactInv ReactBurst.
Implicit Types (s : State).

(** The save timer of the component, run once it is due, is a call of
    [saveNotes] on the text the timer was created with. *)
Lemma fire_save_comp b dt txt s id :
  inv s →
  save_timers s = [{| tid := id; due := now (env s) + b; cb := cb_saveNotes txt |}] →
  b ≤ dt →
  step (Fire id) (step (Advance dt) s)
  = exec (saveNotes txt) (on_env (clear (Some id)) (on_env (tick dt) s)).
Proof.
  intros Hi Hs Hdt. cbn [step]. unfold fire.
  assert ({| tid := id; due := now (env s) + b; cb := cb_saveNotes txt |} ∈ timers (env s))
    as Hin.
  { assert ({| tid := id; due := now (env s) + b; cb := cb_saveNotes txt |} ∈ save_timers s)
      as Hx by (rewrite Hs; apply list_elem_of_singleton; done).
    by apply list_elem_of_filter in Hx as [_ ?]. }
  by rewrite (ripe_unique _ _ comp_kinds id (env (on_env (tick dt) s)) _
             (saveTimeoutRef s) (statusTimeoutRef s) Hi Hin eq_refl) by (cbn; lia).
Qed.

Lemma overwrite_comp c nv dt s :
  inv s → isLoaded s = true → nv ≠ Some c → AUTOSAVE_DELAY ≤ dt →
  accepts (policy (env s)) c →
  let s' := run [Input c; Remote STORAGE_KEY nv; StorageEv (Some STORAGE_KEY) nv;
                 Advance dt; Fire (next_id (env s))] s in
  content s' = or_empty nv
  ∧ items (env s') !! STORAGE_KEY = Some c
  ∧ writes_to STORAGE_KEY (log (env s'))
    = writes_to STORAGE_KEY (log (env s)) ++ [c].
Proof.
  intros Hi Hl Hnv Hdt (A1 & A2 & A3). cbn zeta.
  change (run _ s) with
    (step (Fire (next_id (env s)))
       (step (Advance dt)
          (step (StorageEv (Some STORAGE_KEY) nv)
             (step (Remote STORAGE_KEY nv) (step (Input c) s))))).
  destruct (comp_pending_input c s Hi Hl)
    as [(Hi1 & Hl1 & _ & Hc1 & Hw1 & Hp1 & id & Hh1 & Hs1) _].
  assert (saveTimeoutRef (step (Input c) s) = Some (next_id (env s))) as Hid.
  { cbn [step]. rewrite Hl. unfold exec. by rewrite comp_handleInput_run. }
  rewrite Hh1 in Hid. injection Hid as ->.
  set (s1 := step (Input c) s) in *. clearbody s1.
  set (s3 := step (StorageEv (Some STORAGE_KEY) nv) (step (Remote STORAGE_KEY nv) s1)).
  assert (s3 = set_content (or_empty nv) (on_env (remote STORAGE_KEY nv) s1)) as E3.
  { unfold s3. cbn [step on_env isLoaded]. rewrite Hl1. unfold exec.
    rewrite handleStorage_run. cbn [snd].
    rewrite decide_True; [done|]. split; [done|]. cbn. by rewrite Hc1. }
  clearbody s3. subst s3.
  set (s3 := set_content (or_empty nv) (on_env (remote STORAGE_KEY nv) s1)).
  assert (inv s3) as Hi3 by done.
  rewrite (fire_save_comp AUTOSAVE_DELAY dt c s3 (next_id (env s)) Hi3 Hs1 Hdt).
  set (s4 := on_env (clear (Some (next_id (env s)))) (on_env (tick dt) s3)).
  assert (policy (env s4) = policy (env s)) as Hp4 by (rewrite <- Hp1; reflexivity).
  assert (content s4 = or_empty nv) as Hc4 by reflexivity.
  assert (available (env s4) = true) as Ea by (apply available_true; by rewrite Hp4).
  assert (policy (env s4) (OpSet STORAGE_KEY c) = None) as Ew by (by rewrite Hp4).
  destruct (react_save_stores s4 c Ea Ew) as (Ei & _ & Ec & _).
  pose proof (react_save_writes s4 c Ea Ew) as Ewr.
  rewrite Ec, Ei, Ewr, Hc4. split; [done|]. split; [by rewrite lookup_insert_eq|].
  f_equal. rewrite <- Hw1. reflexivity.
Qed.
End ReactOverwrite.

(** X13. Another tab writes while a save is pending. After an input [c],
    let another tab store [nv] under the notes key (or remove the key),
    different from [c], and let the notification arrive before the save
    timer runs. The script's textarea then reads the other tab's text
    with CR LF and CR turned into LF, and that is what the script stores
    when the timer runs: the other tab's text itself when it has no CR.
    The component holds the other tab's text as it came and stores the
    text its timer was created with, [c], over the other tab's write. *)
Theorem remote_write_while_pending (d : Legacy.Dom) (dk : bool) (i : gmap string string)
    (p : StorageOp → option JsError) (pre : list Event)
    (c : string) (nv : option string) (dt : N) :
  let l := legacy_after d i p pre in
  let r := react_after dk i p pre in
  let tr id := [Input c; Remote STORAGE_KEY nv; StorageEv (Some STORAGE_KEY) nv;
                Advance dt; Fire id] in
  let theirs := normalize_newlines (Legacy.or_empty nv) in
  Legacy.listening l = true →
  React.isLoaded r = true →
  nv ≠ Some c →
  AUTOSAVE_DELAY ≤ dt →
  accepts (policy (Legacy.env l)) theirs →
  accepts (policy (React.env r)) c →
  (let l' := Legacy.run (tr (next_id (Legacy.env l))) l in
   Legacy.content l' = theirs
   ∧ items (Legacy.env l') !! STORAGE_KEY = Some theirs
   ∧ writes_to STORAGE_KEY (log (Legacy.env l'))
     = writes_to STORAGE_KEY (log (Legacy.env l)) ++ [theirs]
   ∧ (normalised (Legacy.or_empty nv) →
      items (Legacy.env l') !! STORAGE_KEY = Some (Legacy.or_empty nv)))
  ∧
  (let r' := React.run (tr (next_id (React.env r))) r in
   React.content r' = React.or_empty nv
   ∧ items (React.env r') !! STORAGE_KEY = Some c
   ∧ writes_to STORAGE_KEY (log (React.env r'))
     = writes_to STORAGE_KEY (log (React.env r)) ++ [c]).
Proof.
  cbn zeta. intros Hl Hr Hnv Hdt HaL HaR. split.
  - destruct (LegacyOverwrite.overwrite_script c nv dt (legacy_after d i p pre))
      as (H1 & H2 & H3); try done; [apply legacy_after_inv|].
    cbn zeta in *. split_and!; try done. intros Hn. by rewrite H2, Hn.
  - by apply ReactOverwrite.overwrite_comp; [apply react_after_inv|..].
Qed.

(** "mine" is typed; another tab stores two lines, separated by CR LF,
    before the save. *)
Lemma remote_write_while_pending_witness :
  (let l := legacy_after blank ∅ no_fault [] in
   items (Legacy.env (Legacy.run [Input "mine"; Remote STORAGE_KEY (Some two_lines_crlf);
                                  StorageEv (Some STORAGE_KEY) (Some two_lines_crlf);
                                  Advance 600; Fire (next_id (Legacy.env l))] l))
   !! STORAGE_KEY = Some two_lines_lf)
  ∧
  (let r := react_after false ∅ no_fault [] in
   items (React.env (React.run [Input "mine"; Remote STORAGE_KEY (Some two_lines_crlf);
                                StorageEv (Some STORAGE_KEY) (Some two_lines_crlf);
                                Advance 600; Fire (next_id (React.env r))] r))
   !! STORAGE_KEY = Some "mine").
Proof.
  assert (Legacy.listening (legacy_after blank ∅ no_fault []) = true) as Hl
    by (by vm_compute).
  assert (React.isLoaded (react_after false ∅ no_fault []) = true) as Hr
    by (by vm_compute).
  assert (Some two_lines_crlf ≠ Some "mine") as Hnv by (by vm_compute).
  assert (AUTOSAVE_DELAY ≤ 600) as Hd by (by vm_compute).
  assert (accepts (policy (Legacy.env (legacy_after blank ∅ no_fault [])))
            (normalize_newlines (Legacy.or_empty (Some two_lines_crlf)))) as HaL
    by (by vm_compute).
  assert (accepts (policy (React.env (react_after false ∅ no_fault []))) "mine") as HaR
    by (by vm_compute).
  destruct (remote_write_while_pending blank false ∅ no_fault [] "mine"
              (Some two_lines_crlf) 600 Hl Hr Hnv Hd HaL HaR)
    as [(_ & HL & _) (_ & HR & _)].
  split; [exact HL|exact HR].
Defined.

(** ** The handle of the save timer *)

Lemma legacy_handle_saved (s : Legacy.State) :
  Legacy.saveTimeout (LegacyRun.saved_state s) = Legacy.saveTimeout s.
Proof.
  unfold LegacyRun.saved_state. cbn zeta.
  destruct (available _); [|done].
  destruct (policy _ _) as [err|]; [|done]. by destruct (is_quota err).
Qed.

Lemma react_handle_saved (text : string) (s : React.State) :
  React.saveTimeoutRef (ReactRun.saved_state text s) = React.saveTimeoutRef s.
Proof.
  unfold ReactRun.saved_state. cbn zeta.
  destruct (available _); [|done].
  destruct (policy _ _) as [err|]; [|done]. by destruct (is_quota err).
Qed.

Lemma legacy_handle_step (ev : Event) (s : Legacy.State) :
  is_Some (Legacy.saveTimeout s) → is_Some (Legacy.saveTimeout (Legacy.step ev s)).
Proof.
  intros Hs. destruct ev; cbn [Legacy.step]; try done.
  - destruct (Legacy.listening s); [|done].
    unfold exec. by rewrite LegacyRun.script_handleInput_run.
  - unfold Legacy.fire. destruct (ripe _ _) as [t|]; [|done].
    destruct (cb t); cbn [Legacy.run_callback]; unfold exec.
    + by rewrite LegacyRun.script_saveNotes_run; cbn [snd]; rewrite legacy_handle_saved.
    + by rewrite LegacyRun.resetStatus_run.
  - destruct (Legacy.listening s); [|done].
    unfold exec. rewrite LegacyRun.handleStorageEvent_run. cbn [snd].
    by destruct (decide _).
  - destruct (Legacy.listening s); [|done].
    unfold exec. rewrite LegacyRun.script_handleVisibilityChange_run. cbn [snd].
    cbn [Legacy.env Legacy.on_env hidden set_hidden Legacy.saveTimeout].
    destruct h; [|done].
    destruct (Legacy.saveTimeout s) eqn:E; [|done]. rewrite legacy_handle_saved. cbn. by rewrite E.
  - destruct (Legacy.listening s); [|done].
    unfold exec. rewrite LegacyRun.script_handleBeforeUnload_run. cbn [snd].
    destruct (Legacy.saveTimeout s) eqn:E; [|done]. rewrite legacy_handle_saved. cbn. by rewrite ?E.
  - destruct (Legacy.listening s); [|done].
    unfold exec. rewrite LegacyRun.handleThemeToggle_run. cbn zeta.
    by destruct (policy _ _).
  - by destruct (Legacy.listening s).
Qed.

Lemma react_handle_step (ev : Event) (s : React.State) :
  is_Some (React.saveTimeoutRef s) → is_Some (React.saveTimeoutRef (React.step ev s)).
Proof.
  intros Hs. destruct ev; cbn [React.step]; try done.
  - destruct (React.isLoaded s); [|done].
    unfold exec. by rewrite ReactRun.comp_handleInput_run.
  - unfold React.fire. destruct (ripe _ _) as [t|]; [|done].
    destruct (cb t); cbn [React.run_callback]; unfold exec.
    + by rewrite ReactRun.comp_saveNotes_run; cbn [snd]; rewrite react_handle_saved.
    + done.
  - destruct (React.isLoaded s); [|done].
    unfold exec. rewrite ReactRun.handleStorage_run. cbn [snd].
    by destruct (decide _).
  - destruct (React.isLoaded s); [|done].
    unfold exec. rewrite ReactRun.comp_handleVisibilityChange_run. cbn [snd].
    cbn [React.env React.on_env hidden set_hidden React.saveTimeoutRef].
    destruct h; [|done].
    destruct (React.saveTimeoutRef s) eqn:E; [|done]. rewrite react_handle_saved. cbn. by rewrite E.
  - destruct (React.isLoaded s); [|done].
    unfold exec. rewrite ReactRun.comp_handleBeforeUnload_run. cbn [snd].
    destruct (React.saveTimeoutRef s) eqn:E; [|done].
    rewrite react_handle_saved. cbn. by rewrite ?E.
  - destruct (React.isLoaded s); [|done].
    unfold exec. rewrite ReactRun.toggleTheme_run. cbn zeta.
    by destruct (policy _ _).
  - by destruct (React.isLoaded s).
Qed.

Lemma legacy_handle_run (tr : list Event) (s : Legacy.State) :
  is_Some (Legacy.saveTimeout s) → is_Some (Legacy.saveTimeout (Legacy.run tr s)).
Proof.
  revert s. induction tr as [|ev tr IH]; intros s Hs; [done|].
  apply IH, legacy_handle_step, Hs.
Qed.

Lemma react_handle_run (tr : list Event) (s : React.State) :
  is_Some (React.saveTimeoutRef s) → is_Some (React.saveTimeoutRef (React.run tr s)).
Proof.
  revert s. induction tr as [|ev tr IH]; intros s Hs; [done|].
  apply IH, react_handle_step, Hs.
Qed.

(** X14. The handle of the save timer is never reset. It is null when the
    page has loaded; the first input that is handled sets it; and from
    then on, whatever happens (the timer running, a flush, a failed
    save), it holds a handle, also when no save timer is live any more. *)
Theorem save_handle_never_reset (d : Legacy.Dom) (dk : bool) (i : gmap string string)
    (p : StorageOp → option JsError) (pre tr : list Event) :
  (Legacy.saveTimeout (Legacy.start d i p) = None
   ∧ React.saveTimeoutRef (React.start dk i p) = None)
  ∧ (is_Some (Legacy.saveTimeout (legacy_after d i p pre)) →
     is_Some (Legacy.saveTimeout (legacy_after d i p (pre ++ tr))))
  ∧ (is_Some (React.saveTimeoutRef (react_after dk i p pre)) →
     is_Some (React.saveTimeoutRef (react_after dk i p (pre ++ tr)))).
Proof.
  split_and!.
  - unfold Legacy.start, exec. rewrite LegacyInv.init_run.
    destruct (policy _ _); [done|]. cbn [snd]. unfold LegacyInv.init_state. cbn zeta.
    destruct (available _); [|done]. cbn.
    unfold LegacyInv.loaded_state. cbn zeta.
    destruct (available _); [|done]. by destruct (policy _ _).
  - unfold React.start, exec. rewrite ReactInv.mountEffect_run.
    destruct (policy _ _); [done|]. cbn zeta.
    destruct (if available _ then _ else _); [done|]. cbn [snd].
    unfold ReactInv.mount_state. cbn zeta.
    destruct (available _); [|done]. by destruct (items _ !! _).
  - unfold legacy_after, Legacy.run. rewrite foldl_app. apply legacy_handle_run.
  - unfold react_after, React.run. rewrite foldl_app. apply react_handle_run.
Qed.

(** After one input and its save no save timer is live, and the handle
    still holds the timer's id. *)
Lemma save_handle_never_reset_witness :
  Legacy.save_timers
    (legacy_after blank ∅ no_fault ([Input "a"] ++ [Advance 500; Fire 1%positive])) = []
  ∧ is_Some (Legacy.saveTimeout
               (legacy_after blank ∅ no_fault ([Input "a"] ++ [Advance 500; Fire 1%positive])))
  ∧ is_Some (React.saveTimeoutRef
               (react_after false ∅ no_fault ([Input "a"] ++ [Advance 500; Fire 1%positive]))).
Proof.
  destruct (save_handle_never_reset blank false ∅ no_fault [Input "a"]
              [Advance 500; Fire 1%positive]) as (_ & HL & HR).
  split_and!.
  - by vm_compute.
  - apply HL. exists 1%positive. by vm_compute.
  - apply HR. exists 1%positive. by vm_compute.
Defined.
